(** * Liberty pump monitor / HMI switch: telemetry and auto-control engine

    A shallow embedding of the polling and control code of
    [HMI_View_Selector_v5.3.1.py] (with the connection pool of revision
    5.2.1 next to it), and the properties its specification states.

    Conventions of the embedding:
    - a Modbus register is a [Z]; the replies of the device are an input of
      each poll cycle, one per call site, because every call site runs at
      most once per cycle;
    - [time.time()] readings are exact rationals ([Q], in seconds);
    - a Python [float] is its IEEE-754 datum, [spec_float] of the Standard
      Library (which, like IEEE-754 values, has one NaN without payload);
    - the Python locals of [monitor_unit] that survive from one iteration to
      the next, the entries of the [unit] and [widgets] dictionaries the loop
      mutates and [self.last_fan_activation] form the state of the worker;
    - everything observable (Modbus calls, widget updates scheduled with
      [root.after], prints, sleeps) is an event of a trace. *)

From Stdlib Require Import ZArith QArith Qminmax Lqa List String Ascii Bool Lia.
From Stdlib Require Import Floats.SpecFloat DecimalString DecimalZ DecimalPos.
From stdpp Require Import base option gmap strings list.

Open Scope Z_scope.

(** ** Modbus replies, widgets and events *)

Module Modbus.

(** What a call of the pymodbus client can do: return a response whose
    [isError()] is false, return an error response, or raise. *)
Inductive read_reply :=
| ReadOk (registers : list Z)
| ReadError
| ReadRaises.

Inductive write_reply := WriteOk | WriteError | WriteRaises.

Inductive connect_reply := ConnectTrue | ConnectFalse | ConnectRaises.

(** Python exceptions that the modelled code can meet. *)
Inductive exn :=
| UnboundLocalError (name : string)
| IndexError
| StructError
| ValueError
| ModbusException.

Inductive widget :=
| w_turbo_value | w_battery_value | w_setpoint_value
| w_status_light | w_control_button | w_unit_frame.

(** [f"{v:>4}"] is [TInt 4 v]. *)
Inductive text := TInt (width : nat) (v : Z) | TStr (s : string).

(** Keyword arguments of [safe_widget_update]. *)
Record update := Update { u_text : option text; u_fg : option string; u_bg : option string }.

Definition set_text (t : text) : update := Update (Some t) None None.
Definition set_bg (c : string) : update := Update None None (Some c).

Inductive message :=
| MsgDeactivatedTop
| MsgDeactivatedEnd
| MsgAutoTriggered (turbo : Z)
| MsgFanActivated (turbo : Z)
| MsgFanError
| MsgCooldown (remaining : Q) (turbo : Z)
| MsgLoopError (e : exn)
| MsgCloseError
| MsgConnectFailed (ip : string)
| MsgPoolCloseError (ip : string)
| MsgStopping
| MsgNotTerminated (n : nat)
| MsgArmError
| MsgArmOk
| MsgWriteError
| MsgWriteOk
| MsgSendFailedConnect
| MsgSendError (e : exn)
| MsgNotANumber
| MsgSetpointRange (v : Z)
| MsgThresholdRange
| MsgThresholdSet (v : Z)
| MsgThresholdChanged (old new : Z).

Inductive event :=
| EvNewClient (ip : string)
| EvConnect
| EvReadInput (address count : Z)
| EvReadHolding (address count : Z)
| EvWriteRegister (address value : Z)
| EvClose
| EvWidget (w : widget) (u : update)
| EvPrint (m : message)
| EvSleep (seconds : Q)
| EvShowInfo (m : message)
| EvShowError (m : message)
| EvSaveConfig (threshold : Z)
| EvLogActivity (m : message)
| EvRefreshPage
| EvClearInput.

Definition is_network (e : event) : bool :=
  match e with
  | EvNewClient _ | EvConnect | EvReadInput _ _ | EvReadHolding _ _
  | EvWriteRegister _ _ | EvClose => true
  | _ => false
  end.

Definition is_widget (e : event) : bool :=
  match e with EvWidget _ _ => true | _ => false end.

Definition is_close (e : event) : bool :=
  match e with EvClose => true | _ => false end.

Definition is_write (e : event) : bool :=
  match e with EvWriteRegister _ _ => true | _ => false end.

(** The auto-control command: 100 to holding register 401000. *)
Definition is_fan_write (e : event) : bool :=
  match e with
  | EvWriteRegister a v => (a =? 1000) && (v =? 100)
  | _ => false
  end.

(** Creating a client and closing it. *)
Definition is_lifecycle (e : event) : bool :=
  match e with EvNewClient _ | EvClose => true | _ => false end.

(** The Modbus calls of a trace, and its register writes, in order. *)
Definition network (tr : list event) : list event := List.filter is_network tr.
Definition writes (tr : list event) : list event := List.filter is_write tr.

Definition fan_write : event := EvWriteRegister 1000 100.

End Modbus.
Import Modbus.

(** ** A state, trace and exception monad for the Python code *)

Section Monad.
Context {S : Type}.

Inductive outcome (A : Type) :=
| Normal (a : A)
| Raised (e : exn).
Global Arguments Normal {A} a.
Global Arguments Raised {A} e.

Definition M (A : Type) : Type := S -> outcome A * S * list event.

Definition ret {A} (a : A) : M A := fun s => (Normal a, s, []).

Definition bind {A B} (m : M A) (f : A -> M B) : M B :=
  fun s =>
    match m s with
    | (Normal a, s1, t1) =>
        match f a s1 with
        | (r, s2, t2) => (r, s2, t1 ++ t2)
        end
    | (Raised e, s1, t1) => (Raised e, s1, t1)
    end.

Definition raise {A} (e : exn) : M A := fun s => (Raised e, s, []).
Definition emit (e : event) : M unit := fun s => (Normal tt, s, [e]).
Definition get : M S := fun s => (Normal s, s, []).
Definition modify (f : S -> S) : M unit := fun s => (Normal tt, f s, []).

(** [try: m  except Exception as e: h e] *)
Definition try_except {A} (m : M A) (h : exn -> M A) : M A :=
  fun s =>
    match m s with
    | (Normal a, s1, t1) => (Normal a, s1, t1)
    | (Raised e, s1, t1) =>
        match h e s1 with
        | (r, s2, t2) => (r, s2, t1 ++ t2)
        end
    end.

(** [try: m  finally: fin], for a [fin] that does not raise itself. *)
Definition finally {A} (m : M A) (fin : M unit) : M A :=
  fun s =>
    match m s with
    | (r, s1, t1) =>
        match fin s1 with
        | (_, s2, t2) => (r, s2, t1 ++ t2)
        end
    end.

Definition state_of {A} (x : outcome A * S * list event) : S := snd (fst x).
Definition trace_of {A} (x : outcome A * S * list event) : list event := snd x.
Definition result_of {A} (x : outcome A * S * list event) : outcome A := fst (fst x).
End Monad.

Declare Scope py_scope.
Delimit Scope py_scope with py.
Notation "x <- m ;; k" := (bind m (fun x => k))
  (at level 100, m at next level, right associativity) : py_scope.
Notation "m ;; k" := (bind m (fun _ => k))
  (at level 100, right associativity) : py_scope.
Open Scope py_scope.

(** Client calls. A read returns [Some registers] when [isError()] is false
    and [None] when it is true. *)
Section Client.
Context {S : Type}.

Definition reply_registers (r : read_reply) : M (S:=S) (option (list Z)) :=
  match r with
  | ReadOk regs => ret (Some regs)
  | ReadError => ret None
  | ReadRaises => raise ModbusException
  end.

Definition read_input_registers (address count : Z) (r : read_reply)
  : M (S:=S) (option (list Z)) :=
  emit (EvReadInput address count) ;; reply_registers r.

Definition read_holding_registers (address count : Z) (r : read_reply)
  : M (S:=S) (option (list Z)) :=
  emit (EvReadHolding address count) ;; reply_registers r.

(** Returns [true] when [isError()] is false. *)
Definition write_register (address value : Z) (r : write_reply) : M (S:=S) bool :=
  emit (EvWriteRegister address value) ;;
  match r with
  | WriteOk => ret true
  | WriteError => ret false
  | WriteRaises => raise ModbusException
  end.

Definition connect (r : connect_reply) : M (S:=S) bool :=
  emit EvConnect ;;
  match r with
  | ConnectTrue => ret true
  | ConnectFalse => ret false
  | ConnectRaises => raise ModbusException
  end.

(** [registers[i]] *)
Definition item (regs : list Z) (i : nat) : M (S:=S) Z :=
  match nth_error regs i with
  | Some v => ret v
  | None => raise IndexError
  end.

Definition widget_update (w : widget) (u : update) : M (S:=S) unit :=
  emit (EvWidget w u).

Definition print (m : message) : M (S:=S) unit := emit (EvPrint m).
End Client.

(** ** Register codec *)

Module Codec.

(** [struct.pack('>I', n)]: four big-endian bytes, [struct.error] outside
    of the unsigned 32-bit range. *)
Definition pack_u32_be (n : Z) : option (list Z) :=
  if (0 <=? n) && (n <? 2 ^ 32) then
    Some [Z.shiftr n 24;
          Z.land (Z.shiftr n 16) 255;
          Z.land (Z.shiftr n 8) 255;
          Z.land n 255]
  else None.

Definition unpack_u32_be (b : list Z) : option Z :=
  match b with
  | [b0; b1; b2; b3] =>
      Some (Z.lor (Z.shiftl b0 24) (Z.lor (Z.shiftl b1 16) (Z.lor (Z.shiftl b2 8) b3)))
  | _ => None
  end.

(** The binary32 datum of a 32-bit pattern: sign bit 31, biased exponent
    bits 30..23, fraction bits 22..0. *)
Definition float_of_bits32 (w : Z) : spec_float :=
  let s := Z.testbit w 31 in
  let e := Z.land (Z.shiftr w 23) 255 in
  let m := Z.land w (2 ^ 23 - 1) in
  if e =? 0 then
    match m with
    | Zpos p => S754_finite s p (-149)
    | _ => S754_zero s
    end
  else if e =? 255 then
    (if m =? 0 then S754_infinity s else S754_nan)
  else S754_finite s (Z.to_pos (m + 2 ^ 23)) (e - 150).

(** [struct.unpack('>f', b)[0]] *)
Definition unpack_f32_be (b : list Z) : option spec_float :=
  float_of_bits32 <$> unpack_u32_be b.

(** The decoding of the monitor loop:
    [combined_value = (registers[0] << 16) | registers[1]] and
    [struct.unpack('>f', struct.pack('>I', combined_value))[0]];
    [None] is [struct.error]. *)
Definition combined_value (hi lo : Z) : Z := Z.lor (Z.shiftl hi 16) lo.

Definition decodeFloat32BE (hi lo : Z) : option spec_float :=
  pack_u32_be (combined_value hi lo) ≫= unpack_f32_be.

(** The standard encoder, [struct.pack('>f', x)]: round to binary32 (to
    nearest, ties to even), [OverflowError] when a finite value does not
    fit, then lay the fields out. *)
Definition round_binary32 (x : spec_float) : spec_float :=
  match x with
  | S754_finite s m e => binary_normalize 24 128 (cond_Zopp s (Zpos m)) e s
  | _ => x
  end.

Definition sign_bit (s : bool) : Z := if s then 2 ^ 31 else 0.

Definition bits32_of_float (x : spec_float) : Z :=
  match x with
  | S754_zero s => sign_bit s
  | S754_infinity s => sign_bit s + 255 * 2 ^ 23
  | S754_nan => 255 * 2 ^ 23 + 2 ^ 22
  | S754_finite s m e =>
      if Zpos m <? 2 ^ 23 then sign_bit s + Zpos m
      else sign_bit s + (e + 150) * 2 ^ 23 + (Zpos m - 2 ^ 23)
  end.

Definition pack_f32_be (x : spec_float) : option (list Z) :=
  match x, round_binary32 x with
  | S754_finite _ _ _, S754_infinity _ => None
  | _, y => pack_u32_be (bits32_of_float y)
  end.

(** [struct.unpack('>HH', struct.pack('>f', x))] *)
Definition encodeFloat32BE (x : spec_float) : option (Z * Z) :=
  match pack_f32_be x with
  | Some [b0; b1; b2; b3] =>
      Some (Z.lor (Z.shiftl b0 8) b1, Z.lor (Z.shiftl b2 8) b3)
  | _ => None
  end.

Definition is_word (w : Z) : Prop := 0 <= w < 2 ^ 16.

(** A pattern is a NaN when its exponent field is all ones and its
    fraction is not zero. *)
Definition is_nan_pattern (hi lo : Z) : bool :=
  (Z.land (Z.shiftr hi 7) 255 =? 255) && negb ((Z.land hi 127 =? 0) && (lo =? 0)).

(** 34 as a binary32 datum, for the comparisons [value < 34] of the oil
    rates: both sides are then canonical data of one format, on which
    [SFltb] is the order of the values. *)
Definition float_34 : spec_float := S754_finite false 8912896 (-18).

End Codec.

(** ** The monitoring worker of revision 5.3.1: [monitor_unit] *)

Module Monitor.

(** What the loop reads of its [unit] dictionary and of the widgets in it:
    the address, the unit type, and which optional widgets exist
    ([widgets['setpoint_value'] is not None], and so on). *)
Record unit_info := {
  ip_address : string;
  is_lfpc : bool;
  has_setpoint_value : bool;
  has_status_light : bool;
  has_unit_frame : bool
}.

(** The state of one worker. [turbo_temp] is [None] as long as the Python
    local of that name is not bound. *)
Record state := {
  flash_counter : Z;
  turbo_temp : option Z;
  has_red_params : bool;
  alert_acknowledged : bool;
  bg_flash_state : bool;
  last_fan_activation : gmap string Q
}.

Definition with_flash_counter (v : Z) (s : state) : state :=
  {| flash_counter := v; turbo_temp := turbo_temp s;
     has_red_params := has_red_params s;
     alert_acknowledged := alert_acknowledged s;
     bg_flash_state := bg_flash_state s;
     last_fan_activation := last_fan_activation s |}.

Definition with_turbo_temp (v : Z) (s : state) : state :=
  {| flash_counter := flash_counter s; turbo_temp := Some v;
     has_red_params := has_red_params s;
     alert_acknowledged := alert_acknowledged s;
     bg_flash_state := bg_flash_state s;
     last_fan_activation := last_fan_activation s |}.

Definition with_has_red_params (v : bool) (s : state) : state :=
  {| flash_counter := flash_counter s; turbo_temp := turbo_temp s;
     has_red_params := v;
     alert_acknowledged := alert_acknowledged s;
     bg_flash_state := bg_flash_state s;
     last_fan_activation := last_fan_activation s |}.

Definition with_alert_acknowledged (v : bool) (s : state) : state :=
  {| flash_counter := flash_counter s; turbo_temp := turbo_temp s;
     has_red_params := has_red_params s;
     alert_acknowledged := v;
     bg_flash_state := bg_flash_state s;
     last_fan_activation := last_fan_activation s |}.

Definition with_bg_flash_state (v : bool) (s : state) : state :=
  {| flash_counter := flash_counter s; turbo_temp := turbo_temp s;
     has_red_params := has_red_params s;
     alert_acknowledged := alert_acknowledged s;
     bg_flash_state := v;
     last_fan_activation := last_fan_activation s |}.

(** [self.last_fan_activation[ip] = t] *)
Definition record_activation (ip : string) (t : Q) (s : state) : state :=
  {| flash_counter := flash_counter s; turbo_temp := turbo_temp s;
     has_red_params := has_red_params s;
     alert_acknowledged := alert_acknowledged s;
     bg_flash_state := bg_flash_state s;
     last_fan_activation := <[ip := t]> (last_fan_activation s) |}.

(** The state a worker starts in: [flash_counter = 0], nothing else bound. *)
Definition initial (activations : gmap string Q) : state :=
  {| flash_counter := 0; turbo_temp := None; has_red_params := false;
     alert_acknowledged := false; bg_flash_state := false;
     last_fan_activation := activations |}.

(** What one iteration of the loop gets from outside: the replies of the
    device per call site, the shared flags as the iteration reads them,
    and the clock. *)
Record cycle_env := {
  e_active_while : bool;
  e_active_top : bool;
  e_active_end : bool;
  e_connect : connect_reply;
  e_close_raises : bool;
  e_plc : read_reply;
  e_gear : read_reply;
  e_gas_sub : read_reply;
  e_rpm : read_reply;
  e_turbo : read_reply;
  e_battery : read_reply;
  e_setting : read_reply;
  e_fan : write_reply;
  e_control : read_reply;
  e_envolts : read_reply;
  e_pe_oil : read_reply;
  e_gb_oil : read_reply;
  e_gas_psi : read_reply;
  e_auto_control_active : bool;
  e_turbo_temp_threshold : Z;
  e_maintenance_mode_active : bool;
  e_master_maintenance_mode : bool;
  e_time : Q
}.

Abbreviation M := (M (S:=state)).

(** [flash_counter = (flash_counter + 1) % 4], then [flash_counter < 2]. *)
Definition next_flash : M bool :=
  modify (fun s => with_flash_counter ((flash_counter s + 1) mod 4) s) ;;
  s <- get ;;
  ret (flash_counter s <? 2).

Definition set_red : M unit := modify (with_has_red_params true).

(** Bit 2 of input register 5, shared by both unit types. *)
Definition read_plc_bit (e : cycle_env) : M bool :=
  plc_result <- read_input_registers 5 1 (e_plc e) ;;
  match plc_result with
  | Some regs => r0 <- item regs 0 ;; ret (negb (Z.land r0 4 =? 0))
  | None => ret false
  end.

Definition flash_status_light (plc_bit_set : bool) : M unit :=
  if plc_bit_set then
    low <- next_flash ;;
    if low then widget_update w_status_light (set_bg "red")
    else widget_update w_status_light (set_bg "green")
  else widget_update w_status_light (set_bg "green").

(** The background of the unit frame, at the end of both branches. *)
Definition flash_background (u : unit_info) : M unit :=
  s <- get ;;
  if has_red_params s && has_unit_frame u then
    if alert_acknowledged s then widget_update w_unit_frame (set_bg "#800000")
    else
      modify (fun s => with_bg_flash_state (negb (bg_flash_state s)) s) ;;
      s' <- get ;;
      if bg_flash_state s' then widget_update w_unit_frame (set_bg "#ff0000")
      else widget_update w_unit_frame (set_bg "#2d2d2d")
  else
    (if has_unit_frame u then widget_update w_unit_frame (set_bg "#2d2d2d")
     else ret tt) ;;
    modify (with_alert_acknowledged false).

(** The LFPC branch. *)
Definition lfpc_monitoring (u : unit_info) (e : cycle_env) : M unit :=
  plc_bit_set <- read_plc_bit e ;;
  (if has_status_light u then flash_status_light plc_bit_set else ret tt) ;;
  modify (with_has_red_params false) ;;
  gear_result <- read_holding_registers 270 1 (e_gear e) ;;
  gear_display <-
    match gear_result with
    | Some regs =>
        gear_value <- item regs 0 ;;
        ret (if (1 <=? gear_value) && (gear_value <=? 9) then Some gear_value else None)
    | None => ret None
    end ;;
  gas_sub_result <- read_holding_registers 250 1 (e_gas_sub e) ;;
  match gas_sub_result with
  | Some regs =>
      gas_sub_value <- item regs 0 ;;
      if bool_decide (is_Some gear_display) && (gas_sub_value =? 0) then set_red else ret tt
  | None => ret tt
  end ;;
  rpm_result <- read_holding_registers 370 1 (e_rpm e) ;;
  match rpm_result with
  | Some regs => rpm_value <- item regs 0 ;; if rpm_value =? 0 then set_red else ret tt
  | None => ret tt
  end ;;
  flash_background u.

(** The battery display. The source's test is [battery_value < 50]
    ("Check if battery is low (below 50%)"). *)
Definition battery_low (battery_value : Z) : bool := battery_value <? 50.

Definition battery_update (v : Z) (bg : string) : update :=
  Update (Some (TInt 3 v)) (Some "white"%string) (Some bg).

Definition show_battery (battery_value : Z) : M unit :=
  if battery_low battery_value then
    low <- next_flash ;;
    if low then widget_update w_battery_value (battery_update battery_value "#ff0000")
    else widget_update w_battery_value (battery_update battery_value "#1e1e1e")
  else widget_update w_battery_value (battery_update battery_value "#1e1e1e").

(** The first part of the 230xx branch: turbo temperature, battery and,
    in maintenance mode, the current setpoint. [turbo_temp] is bound only
    when the read succeeds. *)
Definition read_turbo (e : cycle_env) : M unit :=
  turbo_result <- read_input_registers 2075 1 (e_turbo e) ;;
  match turbo_result with
  | Some regs =>
      v <- item regs 0 ;;
      modify (with_turbo_temp v) ;;
      widget_update w_turbo_value (set_text (TInt 4 v))
  | None => ret tt
  end.

Definition read_battery (e : cycle_env) : M unit :=
  battery_result <- read_input_registers 2027 1 (e_battery e) ;;
  modify (with_has_red_params false) ;;
  match battery_result with
  | Some regs => battery_value <- item regs 0 ;; show_battery battery_value
  | None => ret tt
  end.

Definition read_setting (u : unit_info) (e : cycle_env) : M unit :=
  if (e_maintenance_mode_active e || e_master_maintenance_mode e)
     && has_setpoint_value u then
    setting_result <- read_holding_registers 1212 1 (e_setting e) ;;
    match setting_result with
    | Some regs =>
        current_setting <- item regs 0 ;;
        widget_update w_setpoint_value (set_text (TInt 3 current_setting))
    | None => ret tt
    end
  else ret tt.

Definition prime_monitoring (u : unit_info) (e : cycle_env) : M unit :=
  read_turbo e ;; read_battery e ;; read_setting u e.

(** Reading the local [turbo_temp]: [UnboundLocalError] when no
    assignment has run yet. *)
Definition load_turbo_temp : M Z :=
  s <- get ;;
  match turbo_temp s with
  | Some v => ret v
  | None => raise (UnboundLocalError "turbo_temp")
  end.

(** [self.auto_control_active and turbo_temp >= self.turbo_temp_threshold],
    with the short circuit of [and]. *)
Definition trigger (e : cycle_env) : M bool :=
  if e_auto_control_active e then
    t <- load_turbo_temp ;;
    ret (e_turbo_temp_threshold e <=? t)
  else ret false.

Definition cooldown : Q := 10.

(** [current_time - last_activation >= 10.0] *)
Definition cooldown_elapsed (current_time last_activation : Q) : bool :=
  Qle_bool cooldown (current_time - last_activation).

Definition auto_control (u : unit_info) (e : cycle_env) : M unit :=
  fire <- trigger e ;;
  if fire then
    let current_time := e_time e in
    s <- get ;;
    let last_activation := default 0%Q (last_fan_activation s !! ip_address u) in
    if cooldown_elapsed current_time last_activation then
      turbo <- load_turbo_temp ;;
      print (MsgAutoTriggered turbo) ;;
      fan_ok <- write_register 1000 100 (e_fan e) ;;
      if fan_ok then
        turbo <- load_turbo_temp ;;
        print (MsgFanActivated turbo) ;;
        modify (record_activation (ip_address u) current_time)
      else print MsgFanError
    else
      turbo <- load_turbo_temp ;;
      print (MsgCooldown (cooldown - (current_time - last_activation)) turbo)
  else ret tt.

Definition show_control (e : cycle_env) : M unit :=
  response <- read_holding_registers 1000 1 (e_control e) ;;
  match response with
  | Some regs =>
      control_value <- item regs 0 ;;
      if control_value =? 100 then
        low <- next_flash ;;
        if low then widget_update w_control_button (set_bg "red")
        else widget_update w_control_button (set_bg "#d83b01")
      else widget_update w_control_button (set_bg "#0078d4")
  | None => ret tt
  end.

(** One register, red when the test on its value holds. *)
Definition check_register (result : option (list Z)) (bad : Z -> bool) : M unit :=
  match result with
  | Some regs => v <- item regs 0 ;; if bad v then set_red else ret tt
  | None => ret tt
  end.

(** Two registers holding a big-endian binary32, red below 34. *)
Definition check_oil_rate (result : option (list Z)) : M unit :=
  match result with
  | Some regs =>
      hi <- item regs 0 ;;
      lo <- item regs 1 ;;
      match Codec.decodeFloat32BE hi lo with
      | Some oil_value =>
          if SFltb oil_value Codec.float_34 then set_red else ret tt
      | None => raise StructError
      end
  | None => ret tt
  end.

(** The second part of the 230xx branch ("Auto-control and status logic
    only for 230xx units"): the auto-control, then the status light, the
    fan button and the operations data. *)
Definition status_rest (u : unit_info) (e : cycle_env) : M unit :=
  plc_bit_set <- read_plc_bit e ;;
  flash_status_light plc_bit_set ;;
  show_control e ;;
  modify (with_has_red_params false) ;;
  rpm_result <- read_holding_registers 370 1 (e_rpm e) ;;
  check_register rpm_result (fun v => v <? 1200) ;;
  envolts_result <- read_input_registers 2044 1 (e_envolts e) ;;
  check_register envolts_result (fun v => negb (v =? 5)) ;;
  pe_oil_result <- read_holding_registers 494 2 (e_pe_oil e) ;;
  check_oil_rate pe_oil_result ;;
  gb_oil_result <- read_input_registers 2033 2 (e_gb_oil e) ;;
  check_oil_rate gb_oil_result ;;
  gas_psi_result <- read_input_registers 2035 1 (e_gas_psi e) ;;
  check_register gas_psi_result (fun v => v <? 100) ;;
  flash_background u.

Definition prime_status (u : unit_info) (e : cycle_env) : M unit :=
  auto_control u e ;; status_rest u e.

(** The body of the inner [try]. *)
Definition poll (u : unit_info) (e : cycle_env) : M unit :=
  connected <- connect (e_connect e) ;;
  if connected then
    (if is_lfpc u then lfpc_monitoring u e else prime_monitoring u e) ;;
    (if negb (is_lfpc u) then prime_status u e else ret tt)
  else ret tt.

(** [except Exception as e]: "Reset displays on error". *)
Definition reset_displays (u : unit_info) (ex : exn) : M unit :=
  print (MsgLoopError ex) ;;
  widget_update w_turbo_value (set_text (TStr "---")) ;;
  widget_update w_battery_value (set_text (TStr "---")) ;;
  (if has_setpoint_value u then widget_update w_setpoint_value (set_text (TStr "---"))
   else ret tt) ;;
  widget_update w_status_light (set_bg "gray") ;;
  widget_update w_control_button (set_bg "#0078d4").

(** The widget updates of that handler: the "unknown" look of a unit. *)
Definition unknown_displays (u : unit_info) : list event :=
  [EvWidget w_turbo_value (set_text (TStr "---"));
   EvWidget w_battery_value (set_text (TStr "---"))]
  ++ (if has_setpoint_value u then [EvWidget w_setpoint_value (set_text (TStr "---"))]
      else [])
  ++ [EvWidget w_status_light (set_bg "gray");
      EvWidget w_control_button (set_bg "#0078d4")].

(** [finally]: "Always ensure the client is closed". *)
Definition close_client (e : cycle_env) : M unit :=
  emit EvClose ;;
  if e_close_raises e then print MsgCloseError else ret tt.

(** One iteration, from [client = ModbusTcpClient(ip)] to the end of the
    [finally] block. The constructor and the scheduling of widget updates
    with [root.after] are taken not to raise. *)
Definition iteration (u : unit_info) (e : cycle_env) : M unit :=
  emit (EvNewClient (ip_address u)) ;;
  finally (try_except (poll u e) (reset_displays u)) (close_client e).

Definition poll_interval : Q := 3 # 2.

(** The clock does not run backwards from one iteration to a later one. *)
Definition clock_monotone (envs : list cycle_env) : Prop :=
  forall i j ei ej,
    (i <= j)%nat -> envs !! i = Some ei -> envs !! j = Some ej ->
    (e_time ei <= e_time ej)%Q.

(** The same, as a test that runs. *)
Fixpoint clock_sorted (envs : list cycle_env) : bool :=
  match envs with
  | [] => true
  | e :: rest =>
      forallb (fun e' => Qle_bool (e_time e) (e_time e')) rest && clock_sorted rest
  end.

(** Several workers. Each has its unit and its own locals; the dictionary
    [self.last_fan_activation] is the one object they share. A schedule
    names, iteration after iteration in the order of their clock readings,
    the worker that runs and what it meets. One iteration is one step: it
    reads and writes the shared dictionary only under the address of its own
    unit. *)
Definition with_activations (acts : gmap string Q) (s : state) : state :=
  {| flash_counter := flash_counter s; turbo_temp := turbo_temp s;
     has_red_params := has_red_params s;
     alert_acknowledged := alert_acknowledged s;
     bg_flash_state := bg_flash_state s;
     last_fan_activation := acts |}.

Definition fleet_step (k : nat) (e : cycle_env)
    (workers : list (unit_info * state)) (acts : gmap string Q)
  : list (unit_info * state) * gmap string Q * list event :=
  match workers !! k with
  | Some (u, s) =>
      let r := iteration u e (with_activations acts s) in
      (<[k := (u, state_of r)]> workers, last_fan_activation (state_of r), trace_of r)
  | None => (workers, acts, [])
  end.

Fixpoint fleet_run (schedule : list (nat * cycle_env))
    (workers : list (unit_info * state)) (acts : gmap string Q) : list (list event) :=
  match schedule with
  | [] => []
  | (k, e) :: rest =>
      let r := fleet_step k e workers acts in
      r.2 :: fleet_run rest r.1.1 r.1.2
  end.

Definition unit_of (workers : list (unit_info * state)) (k : nat) : option unit_info :=
  fst <$> workers !! k.

Definition schedule_monotone (schedule : list (nat * cycle_env)) : Prop :=
  clock_monotone (snd <$> schedule).

(** What the auto-control decision reads of the state. *)
Definition control_view (s : state) : option Z * gmap string Q :=
  (turbo_temp s, last_fan_activation s).

(** The [while self.monitoring_active] loop over the successive
    environments of its iterations; the result is the trace of every
    iteration that was entered, and the state the worker is left in. *)
Fixpoint monitor_unit (u : unit_info) (envs : list cycle_env) (s : state)
  : list (list event) * state :=
  match envs with
  | [] => ([], s)
  | e :: rest =>
      if negb (e_active_while e) then ([], s)
      else if negb (e_active_top e) then ([[EvPrint MsgDeactivatedTop]], s)
      else
        let r := iteration u e s in
        if negb (e_active_end e) then
          ([trace_of r ++ [EvPrint MsgDeactivatedEnd]], state_of r)
        else
          let rest_run := monitor_unit u rest (state_of r) in
          ((trace_of r ++ [EvSleep poll_interval]) :: fst rest_run, snd rest_run)
  end.

(** [m] leaves the part [view] of the state alone and does nothing that
    [loud] selects (for [is_write]: it writes no register). *)
Definition preserves {V : Type} (view : state -> V) (loud : event -> bool)
    {A} (m : M A) : Prop :=
  forall s, view (state_of (m s)) = view s /\ List.filter loud (trace_of (m s)) = [].

(** What a part of the worker may do to the activation times [before]:
    nothing, without a register write; or the one fan write, after the
    cooldown test against [before], recording the time only when the
    write reports success. *)
Inductive control_outcome (u : unit_info) (e : cycle_env) (before : gmap string Q)
  : list event -> gmap string Q -> Prop :=
| no_write tr :
    writes tr = [] ->
    control_outcome u e before tr before
| one_write tr :
    writes tr = [fan_write] ->
    e_auto_control_active e = true ->
    cooldown_elapsed (e_time e) (default 0%Q (before !! ip_address u)) = true ->
    (e_fan e = WriteError -> In (EvPrint MsgFanError) tr) ->
    control_outcome u e before tr
      (match e_fan e with
       | WriteOk => <[ip_address u := e_time e]> before
       | _ => before
       end).

Definition controlled (u : unit_info) (e : cycle_env) {A} (m : M A) : Prop :=
  forall s,
    control_outcome u e (last_fan_activation s) (trace_of (m s))
      (last_fan_activation (state_of (m s))).

End Monitor.

(** ** Python strings: [str.strip], [str.isdigit] and [int]

    Strings are byte strings here, so the functions are those of Python on
    ASCII text. *)

Module PyStr.

(** Python's white space below 128: tab to carriage return, the four
    separators 28 to 31, and the space. *)
Definition isspace (c : ascii) : bool :=
  let n := nat_of_ascii c in
  ((9 <=? n) && (n <=? 13) || (28 <=? n) && (n <=? 31) || (n =? 32))%nat.

Definition is_digit (c : ascii) : bool :=
  let n := nat_of_ascii c in ((48 <=? n) && (n <=? 57))%nat.

Definition digit_value (c : ascii) : Z := Z.of_nat (nat_of_ascii c) - 48.

Fixpoint lstrip (s : list ascii) : list ascii :=
  match s with
  | c :: rest => if isspace c then lstrip rest else s
  | [] => []
  end.

Definition strip_chars (s : list ascii) : list ascii :=
  rev (lstrip (rev (lstrip s))).

(** [s.strip()] *)
Definition strip (s : string) : string :=
  string_of_list_ascii (strip_chars (list_ascii_of_string s)).

(** [s.isdigit()]: at least one character, and only digits. *)
Definition isdigit (s : string) : bool :=
  match list_ascii_of_string s with
  | [] => false
  | cs => forallb is_digit cs
  end.

(** The digits of a decimal literal, where single underscores may stand
    between digits; [after_digit] tells whether the previous character
    was a digit. *)
Fixpoint digits (acc : Z) (after_digit : bool) (s : list ascii) : option Z :=
  match s with
  | [] => if after_digit then Some acc else None
  | c :: rest =>
      if Ascii.eqb c "_" then
        if after_digit then digits acc false rest else None
      else if is_digit c then digits (10 * acc + digit_value c) true rest
      else None
  end.

(** [int(s)] in base ten: surrounding white space, an optional sign, the
    digits; [None] is [ValueError]. (The limit that recent Python versions
    put on the number of digits is left out.) *)
Definition int (s : string) : option Z :=
  match strip_chars (list_ascii_of_string s) with
  | "+"%char :: rest => digits 0 false rest
  | "-"%char :: rest => Z.opp <$> digits 0 false rest
  | cs => digits 0 false cs
  end.

End PyStr.

(** ** The auto-control threshold: [set_turbo_threshold] *)

Module Threshold.

(** The two attributes the method assigns. *)
Record settings := {
  turbo_temp_threshold : Z;
  auto_threshold : Z
}.

(** [entry] is the text of [self.threshold_entry]. [save_user_config] and
    [log_activity] catch their own exceptions, so that only [int] can
    raise here, and it raises [ValueError]. *)
Definition set_turbo_threshold (entry : string) (st : settings)
  : settings * list event :=
  match PyStr.int entry with
  | Some new_threshold =>
      if (950 <=? new_threshold) && (new_threshold <=? 1050) then
        let old_threshold := turbo_temp_threshold st in
        ({| turbo_temp_threshold := new_threshold; auto_threshold := new_threshold |},
         [EvSaveConfig new_threshold;
          EvLogActivity (MsgThresholdChanged old_threshold new_threshold);
          EvShowInfo (MsgThresholdSet new_threshold);
          EvRefreshPage])
      else (st, [EvShowError MsgThresholdRange])
  | None => (st, [EvShowError MsgNotANumber])
  end.



End Threshold.

(** ** The operator's setpoint write: [send_register_value] *)

Module Setpoint.

Record send_env := {
  s_connect : connect_reply;
  s_arm : write_reply;
  s_value : write_reply;
  s_close_raises : bool
}.

Abbreviation M := (M (S:=unit)).

Definition close (e : send_env) : M unit :=
  emit EvClose ;;
  if s_close_raises e then raise ModbusException else ret tt.

(** The body of the [try]; a [return] ends the branch it stands in. *)
Definition send_body (ip : string) (value_var : string) (register_offset : Z)
    (e : send_env) : M unit :=
  let value_str := PyStr.strip value_var in
  if negb (PyStr.isdigit value_str) then emit (EvShowError MsgNotANumber)
  else
    match PyStr.int value_str with
    | None => raise ValueError
    | Some value =>
        if (value <? 50) || (value >? 100) then
          emit (EvShowError (MsgSetpointRange value))
        else
          emit (EvNewClient ip) ;;
          connected <- connect (s_connect e) ;;
          if connected then
            ok_509 <- write_register 509 3 (s_arm e) ;;
            if negb ok_509 then
              print MsgArmError ;; close e
            else
              print MsgArmOk ;;
              ok <- write_register register_offset value (s_value e) ;;
              (if ok then print MsgWriteOk ;; emit EvClearInput
               else print MsgWriteError) ;;
              close e
          else
            print MsgSendFailedConnect ;; close e
    end.


Definition send_register_value (ip : string) (value_var : string)
    (register_offset : Z) (e : send_env) : list event :=
  trace_of (try_except (send_body ip value_var register_offset e)
              (fun ex => print (MsgSendError ex)) tt).

End Setpoint.

(** ** The connection pool of revision 5.2.1 *)

Module Pool.

(** [self.connection_pool]: per address, whether the socket of its client
    is open. *)

(** [get_modbus_connection]; the result is [None] when [connect] raised. *)
Definition get_modbus_connection (ip : string) (r : connect_reply)
    (pool : gmap string bool) : option string * gmap string bool * list event :=
  let created :=
    match pool !! ip with
    | Some _ => (pool, [])
    | None => (<[ip := false]> pool, [EvNewClient ip])
    end in
  match fst created !! ip with
  | Some true => (Some ip, fst created, snd created)
  | _ =>
      match r with
      | ConnectTrue => (Some ip, <[ip := true]> (fst created), snd created ++ [EvConnect])
      | ConnectFalse => (Some ip, fst created, snd created ++ [EvConnect])
      | ConnectRaises =>
          (None, fst created, snd created ++ [EvConnect; EvPrint (MsgConnectFailed ip)])
      end
  end.

(** [close_all_connections]: close every open socket, then clear the pool. *)
Definition close_all_connections (close_raises : string -> bool)
    (pool : gmap string bool) : gmap string bool * list event :=
  (∅,
   flat_map (fun '(ip, is_open) =>
               if is_open : bool then
                 EvClose :: (if close_raises ip then [EvPrint (MsgPoolCloseError ip)] else [])
               else [])
            (map_to_list pool)).

End Pool.

(** ** The supervisor: [stop_monitoring] *)

Module Supervisor.

(** A monitoring thread as the supervisor sees it: the moment its target
    returns, [None] when it never does (a transport call that hangs). *)
Record thread := { ends_at : option Q }.

(** [thread.is_alive()] at the moment [now]. *)
Definition is_alive (now : Q) (t : thread) : bool :=
  match ends_at t with
  | None => true
  | Some d => negb (Qle_bool d now)
  end.

(** [thread.join(timeout)] called at [now]: the moment the call returns,
    which is the end of the thread or the end of the timeout, whichever
    comes first. *)
Definition join (timeout now : Q) (t : thread) : Q :=
  match ends_at t with
  | None => now + timeout
  | Some d => Qmin (Qmax now d) (now + timeout)
  end.

Definition join_timeout : Q := 3 # 2.

Record supervisor := {
  monitoring_active : bool;
  monitor_threads : list thread
}.

(** The [for thread in self.monitor_threads] loop; the clock advances only
    in [join]. *)
Fixpoint join_threads (threads : list thread) (now : Q) (active_threads : list thread)
  : Q * list thread :=
  match threads with
  | [] => (now, active_threads)
  | t :: rest =>
      if is_alive now t then
        let now' := join join_timeout now t in
        if is_alive now' t then join_threads rest now' (active_threads ++ [t])
        else join_threads rest now' active_threads
      else join_threads rest now active_threads
  end.

(** The result is the supervisor afterwards, the moment the call returns
    and what it did. The two buttons are left out. *)
Definition stop_monitoring (sv : supervisor) (now : Q)
  : supervisor * Q * list event :=
  if negb (monitoring_active sv) then (sv, now, [])
  else
    let joined := join_threads (monitor_threads sv) now [] in
    ({| monitoring_active := false; monitor_threads := [] |},
     fst joined,
     EvPrint MsgStopping ::
       match snd joined with
       | [] => []
       | active_threads => [EvPrint (MsgNotTerminated (length active_threads))]
       end).

End Supervisor.

(** ** Scenarios, and the sentences of the specification that the code
    does not satisfy as they are worded *)

Module Scenario.
Import Monitor.

Definition prime_unit : unit_info :=
  {| ip_address := "10.55.10.101"; is_lfpc := false; has_setpoint_value := true;
     has_status_light := true; has_unit_frame := true |}.

(** An iteration at clock reading [t] on a healthy 230xx unit, auto-control
    on with threshold 1050, with the given replies to [connect], to the
    turbo temperature read and to the fan write. *)
Definition cycle (t : Q) (conn : connect_reply) (turbo : read_reply) (fan : write_reply)
  : cycle_env :=
  {| e_active_while := true; e_active_top := true; e_active_end := true;
     e_connect := conn; e_close_raises := false;
     e_plc := ReadOk [0]; e_gear := ReadOk [0]; e_gas_sub := ReadOk [0];
     e_rpm := ReadOk [1500]; e_turbo := turbo; e_battery := ReadOk [80];
     e_setting := ReadOk [60]; e_fan := fan; e_control := ReadOk [0];
     e_envolts := ReadOk [5]; e_pe_oil := ReadOk [0x4220; 0];
     e_gb_oil := ReadOk [0x4220; 0]; e_gas_psi := ReadOk [120];
     e_auto_control_active := true; e_turbo_temp_threshold := 1050;
     e_maintenance_mode_active := false; e_master_maintenance_mode := false;
     e_time := t |}.

Definition hot (t : Q) (fan : write_reply) : cycle_env :=
  cycle t ConnectTrue (ReadOk [1051]) fan.

(** Three workers at the moment 0 of a stop: one ends after 0.2 s, one hangs
    in a transport call for ever, one ends after 2 s. *)
Definition three_workers : Supervisor.supervisor :=
  {| Supervisor.monitoring_active := true;
     Supervisor.monitor_threads :=
       [ {| Supervisor.ends_at := Some (1 # 5) |};
         {| Supervisor.ends_at := None |};
         {| Supervisor.ends_at := Some (2 # 1) |} ] |}.

End Scenario.

Module Stated.
Import Monitor.

(** "At most one write-back control command is issued per cooldown window":
    two fan writes of one worker are never less than the cooldown apart. *)
Definition one_write_per_window : Prop :=
  forall u envs s i j ei ej ti tj,
    clock_monotone envs -> (i < j)%nat ->
    envs !! i = Some ei -> envs !! j = Some ej ->
    (monitor_unit u envs s).1 !! i = Some ti ->
    (monitor_unit u envs s).1 !! j = Some tj ->
    In fan_write ti -> In fan_write tj ->
    (cooldown <= e_time ej - e_time ei)%Q.

(** "Record the timestamp regardless of whether the write itself reports
    success". *)
Definition timestamp_always_recorded : Prop :=
  forall u e s,
    In fan_write (trace_of (iteration u e s)) ->
    last_fan_activation (state_of (iteration u e s)) !! ip_address u = Some (e_time e).

(** "The pool never closes a connection implicitly between cycles": no
    iteration of the worker closes its client. *)
Definition connection_kept : Prop :=
  forall u envs s tr,
    In tr (monitor_unit u envs s).1 -> ~ In EvClose tr.

(** "On failure: publish a snapshot with all metrics in an unknown band":
    an iteration whose [connect] does not succeed resets the displays. *)
Definition unknown_on_connect_failure : Prop :=
  forall u e s,
    e_connect e <> ConnectTrue ->
    In (EvWidget w_turbo_value (set_text (TStr "---"))) (trace_of (iteration u e s)) /\
    In (EvWidget w_battery_value (set_text (TStr "---"))) (trace_of (iteration u e s)) /\
    In (EvWidget w_status_light (set_bg "gray")) (trace_of (iteration u e s)).


End Stated.

(** ** The poll cycle in closed form: when the fan command is sent *)

Module Decision.
Import Monitor.

(** A read whose result lets [registers[n - 1]] be taken: an error response
    is skipped by the code, a raising call or a response that is too short
    is not. *)
Definition reply_has (r : read_reply) (n : nat) : bool :=
  match r with
  | ReadOk regs => (n <=? length regs)%nat
  | ReadError => true
  | ReadRaises => false
  end.

(** The first part of the 230xx branch runs to its end. *)
Definition first_part_completes (u : unit_info) (e : cycle_env) : bool :=
  reply_has (e_turbo e) 1 && reply_has (e_battery e) 1
  && (negb ((e_maintenance_mode_active e || e_master_maintenance_mode e)
            && has_setpoint_value u)
      || reply_has (e_setting e) 1).

(** The binding of [turbo_temp] once the turbo temperature has been read. *)
Definition turbo_after (e : cycle_env) (s : state) : option Z :=
  match e_turbo e with
  | ReadOk (v :: _) => Some v
  | _ => turbo_temp s
  end.

Definition connected (e : cycle_env) : bool :=
  match e_connect e with ConnectTrue => true | _ => false end.

Definition sends_fan_command (u : unit_info) (e : cycle_env) (s : state) : bool :=
  negb (is_lfpc u) && connected e && first_part_completes u e
  && e_auto_control_active e
  && match turbo_after e s with
     | Some v => e_turbo_temp_threshold e <=? v
     | None => false
     end
  && cooldown_elapsed (e_time e)
       (default 0%Q (last_fan_activation s !! ip_address u)).

End Decision.

(** ** The oil-rate alarm on raw registers *)

Module Oil.

(** The register pairs that the test [value < 34] of the oil rates flags:
    those that are no NaN and either have the sign bit set or lie, as
    unsigned 32-bit numbers, below the pattern [0x42080000] of 34.0. *)
Definition oil_low (hi lo : Z) : bool :=
  negb (Codec.is_nan_pattern hi lo)
  && ((2 ^ 15 <=? hi) || (Codec.combined_value hi lo <? 0x42080000)).

End Oil.

(** ** Accounts: [authenticate_user], [create_user], [delete_user],
    [update_user_password] and the form [create_new_user] *)

Module Users.

(** An entry of [self.users]. [active] is [None] when the entry has no such
    key ([user_data.get("active", True)]). *)
Record user := {
  password_hash : string;
  role : string;
  active : option bool;
  created_date : string
}.

Record accounts := {
  users : gmap string user;
  current_user : option string;
  current_user_role : option string
}.

Definition is_active (u : user) : bool := default true (active u).

Definition is_admin_session (st : accounts) : bool :=
  match current_user_role st with
  | Some r => String.eqb r "admin"
  | None => false
  end.

Definition with_users (m : gmap string user) (st : accounts) : accounts :=
  {| users := m; current_user := current_user st;
     current_user_role := current_user_role st |}.

Section Hash.
(** [hash_password], the SHA-256 digest in hexadecimal, is a parameter. *)
Variable hash_password : string -> string.

Definition verify_password (input_password stored_hash : string) : bool :=
  String.eqb (hash_password input_password) stored_hash.

Definition authenticate_user (username password : string) (st : accounts)
  : option string * accounts :=
  match users st !! username with
  | Some user_data =>
      if is_active user_data && verify_password password (password_hash user_data) then
        (Some (role user_data),
         {| users := users st; current_user := Some username;
            current_user_role := Some (role user_data) |})
      else (None, st)
  | None => (None, st)
  end.

(** [today] is [time.strftime("%Y-%m-%d")], [save_ok] what
    [save_user_config] returns. *)
Definition create_user (username password role_ : string) (created_by_admin : bool)
    (today : string) (save_ok : bool) (st : accounts) : (bool * string) * accounts :=
  if negb created_by_admin && negb (is_admin_session st) then
    ((false, "Only administrators can create users"), st)
  else if bool_decide (is_Some (users st !! username)) then
    ((false, "Username already exists"), st)
  else if negb (String.eqb role_ "admin" || String.eqb role_ "tech") then
    ((false, "Invalid role. Must be 'admin' or 'tech'"), st)
  else
    let st' :=
      with_users (<[username := {| password_hash := hash_password password;
                                   role := role_; active := Some true;
                                   created_date := today |}]> (users st)) st in
    if save_ok then ((true, "User created successfully"), st')
    else ((false, "Failed to save user configuration"), st').

Definition is_active_admin (u : user) : bool :=
  String.eqb (role u) "admin" && is_active u.

(** [sum(1 for user in self.users.values() if ...)] *)
Definition admin_count (m : gmap string user) : nat :=
  length (filter (fun u => is_active_admin u = true) (map_to_list m).*2).

Definition delete_user (username : string) (save_ok : bool) (st : accounts)
  : (bool * string) * accounts :=
  if negb (is_admin_session st) then
    ((false, "Only administrators can delete users"), st)
  else if bool_decide (current_user st = Some username) then
    ((false, "Cannot delete currently logged in user"), st)
  else
    match users st !! username with
    | None => ((false, "User does not exist"), st)
    | Some target =>
        if String.eqb (role target) "admin" && (admin_count (users st) <=? 1)%nat then
          ((false, "Cannot delete the last administrator"), st)
        else
          let st' := with_users (delete username (users st)) st in
          if save_ok then ((true, "User deleted successfully"), st')
          else ((false, "Failed to save user configuration"), st')
    end.

Definition update_user_password (username new_password : string) (save_ok : bool)
    (st : accounts) : (bool * string) * accounts :=
  match users st !! username with
  | None => ((false, "User does not exist"), st)
  | Some u =>
      if negb (bool_decide (current_user st = Some username))
         && negb (is_admin_session st) then
        ((false, "Insufficient permissions"), st)
      else
        let st' :=
          with_users (<[username := {| password_hash := hash_password new_password;
                                      role := role u; active := active u;
                                      created_date := created_date u |}]> (users st)) st in
        if save_ok then ((true, "Password updated successfully"), st')
        else ((false, "Failed to save user configuration"), st')
  end.


End Hash.

End Users.

(** ** Starting, stopping and leaving the monitor page:
    [start_monitoring], [toggle_auto_control], [back_to_main] *)

Module App.
Import Supervisor.

Record app := {
  supervisor_of : supervisor;
  auto_control_active : bool
}.

Definition initial_app : app :=
  {| supervisor_of := {| monitoring_active := false; monitor_threads := [] |};
     auto_control_active := false |}.

(** What the navigation code prints besides the prints of [stop_monitoring]. *)
Inductive navigation_message :=
| NavRequested
| NavAutoOff
| NavStopping
| NavStillActive (n : nat).

Inductive app_event :=
| Engine (ev : event)
| Navigation (m : navigation_message).

(** [start_monitoring]: one thread per unit of [units_info]; [ends] tells
    when the thread started for a unit will end. The two buttons are left
    out, as in [stop_monitoring]. *)
Definition start_monitoring (units : list Monitor.unit_info)
    (ends : Monitor.unit_info -> option Q) (a : app) : app :=
  if monitoring_active (supervisor_of a) then a
  else
    {| supervisor_of :=
         {| monitoring_active := true;
            monitor_threads :=
              monitor_threads (supervisor_of a)
              ++ map (fun u => {| ends_at := ends u |}) units |};
       auto_control_active := auto_control_active a |}.

Definition stop (now : Q) (a : app) : app * Q * list app_event :=
  let r := stop_monitoring (supervisor_of a) now in
  ({| supervisor_of := r.1.1; auto_control_active := auto_control_active a |},
   r.1.2, map Engine r.2).

(** [toggle_auto_control]; the look of the button is left out. *)
Definition toggle_auto_control (units : list Monitor.unit_info)
    (ends : Monitor.unit_info -> option Q) (a : app) : app :=
  let a' := {| supervisor_of := supervisor_of a;
               auto_control_active := negb (auto_control_active a) |} in
  if auto_control_active a' then
    if negb (monitoring_active (supervisor_of a')) then start_monitoring units ends a'
    else a'
  else a'.

(** [sum(1 for thread in self.monitor_threads if thread.is_alive())] *)
Definition active_count (now : Q) (threads : list thread) : nat :=
  length (List.filter (is_alive now) threads).

(** [back_to_main], up to the point where [load_existing_configuration]
    turns to the pump assignments (its own stop and switch-off come after
    those of [back_to_main] and find nothing left to do). *)
Definition back_to_main (now : Q) (a : app) : app * Q * list app_event :=
  let t1 := [Navigation NavRequested] in
  let t2 := if auto_control_active a then [Navigation NavAutoOff] else [] in
  let a1 := {| supervisor_of := supervisor_of a; auto_control_active := false |} in
  let stopped :=
    if monitoring_active (supervisor_of a1) then
      let r := stop now a1 in
      let n := active_count r.1.2 (monitor_threads (supervisor_of r.1.1)) in
      (r.1.1, r.1.2,
       Navigation NavStopping :: r.2
         ++ (if (0 <? n)%nat then [Navigation (NavStillActive n)] else []))
    else (a1, now, []) in
  let a2 := {| supervisor_of :=
                 {| monitoring_active := monitoring_active (supervisor_of stopped.1.1);
                    monitor_threads := [] |};
               auto_control_active := auto_control_active stopped.1.1 |} in
  (* load_existing_configuration *)
  let again :=
    if monitoring_active (supervisor_of a2) then stop stopped.1.2 a2
    else (a2, stopped.1.2, []) in
  let t3 := if auto_control_active again.1.1 then [Navigation NavAutoOff] else [] in
  ({| supervisor_of := supervisor_of again.1.1; auto_control_active := false |},
   again.1.2, t1 ++ t2 ++ stopped.2 ++ again.2 ++ t3).

(** What the operator can do, and sequences of it. *)
Inductive operation :=
| OpStart
| OpStop (now : Q)
| OpToggleAuto
| OpBackToMain (now : Q).

Definition apply_operation (units : list Monitor.unit_info)
    (ends : Monitor.unit_info -> option Q) (op : operation) (a : app) : app :=
  match op with
  | OpStart => start_monitoring units ends a
  | OpStop now => (stop now a).1.1
  | OpToggleAuto => toggle_auto_control units ends a
  | OpBackToMain now => (back_to_main now a).1.1
  end.

Definition run_operations (units : list Monitor.unit_info)
    (ends : Monitor.unit_info -> option Q) (ops : list operation) (a : app) : app :=
  fold_left (fun acc op => apply_operation units ends op acc) ops a.

(** The thread list matches the flag: empty while monitoring is off, one
    thread per unit while it is on. *)
Definition tracked (units : list Monitor.unit_info) (a : app) : Prop :=
  if monitoring_active (supervisor_of a)
  then length (monitor_threads (supervisor_of a)) = length units
  else monitor_threads (supervisor_of a) = [].

End App.

(** ** Python's [str] of an integer and the dotted texts built from it *)

Module PyFormat.

(** [str(n)], also [f"{n}"]: the decimal digits, with a minus sign below zero. *)
Definition str (n : Z) : string := NilZero.string_of_int (Z.to_int n).

(** [f"{a}.{b}"] *)
Definition dot (a b : string) : string := a +:+ "." +:+ b.

End PyFormat.

(** ** The scan range: [save_ip_config] *)

Module IpConfig.

Record ip_config := {
  ip_start : list Z;
  ip_end : list Z
}.

(** The start-up value of [__init__]. *)
Definition default_config : ip_config :=
  {| ip_start := [10; 55; 10; 100]; ip_end := [10; 55; 10; 255] |}.

Inductive side := StartIp | EndIp.

(** How a call of [save_ip_config] ends: with one of its message boxes.
    The texts [start_ip_str] and [end_ip_str] are kept as the octets they
    are formatted from. *)
Inductive save_outcome :=
| OctetNotNumber (which : side) (octet : nat) (received : string)
| OctetOutOfRange (which : side) (octet : nat)
| InvalidRange (start_ip end_ip : list Z)
| InvalidNumbers
| SaveFailed
| Saved.

(** One of the two validation loops, from entry [i] on; [acc] is the list
    built so far. The texts are those of the entry widgets. *)
Fixpoint read_octets (which : side) (i : nat) (entries : list string) (acc : list Z)
  : list Z + save_outcome :=
  match entries with
  | [] => inl acc
  | entry :: rest =>
      let value_str := PyStr.strip entry in
      if String.eqb value_str EmptyString || negb (PyStr.isdigit value_str) then
        inr (OctetNotNumber which (i + 1) value_str)
      else
        match PyStr.int value_str with
        | None => inr InvalidNumbers
        | Some value =>
            if negb ((0 <=? value) && (value <=? 255)) then
              inr (OctetOutOfRange which (i + 1))
            else read_octets which (S i) rest (acc ++ [value])
        end
  end.

(** [(ip[0] << 24) + (ip[1] << 16) + (ip[2] << 8) + ip[3]]; [None] is
    [IndexError]. *)
Definition ip_int (ip : list Z) : option Z :=
  a ← ip !! 0%nat; b ← ip !! 1%nat; c ← ip !! 2%nat; d ← ip !! 3%nat;
  Some (Z.shiftl a 24 + Z.shiftl b 16 + Z.shiftl c 8 + d).

(** [write_ok] tells whether writing [ip_config.json] succeeds; an
    [IndexError] of the two sums and a failure of the write both end in the
    last handler. The attributes are assigned before the file is written.
    [log_activity] catches its own exceptions; the change of page after the
    success message is left out. *)
Definition save_ip_config (start_ip_entries end_ip_entries : list string)
    (write_ok : bool) (cfg : ip_config) : ip_config * save_outcome :=
  match read_octets StartIp 0 start_ip_entries [] with
  | inr err => (cfg, err)
  | inl start_ip =>
      match read_octets EndIp 0 end_ip_entries [] with
      | inr err => (cfg, err)
      | inl end_ip =>
          match ip_int start_ip, ip_int end_ip with
          | Some start_ip_int, Some end_ip_int =>
              if end_ip_int <? start_ip_int then (cfg, InvalidRange start_ip end_ip)
              else
                let cfg' := {| ip_start := start_ip; ip_end := end_ip |} in
                if write_ok then (cfg', Saved) else (cfg', SaveFailed)
          | _, _ => (cfg, SaveFailed)
          end
      end
  end.

(** The texts the configuration page puts into its eight entries:
    [entry.insert(0, str(self.ip_start[i]))] for [i in range(4)]. *)
Definition displayed (ip : list Z) : option (list string) :=
  a ← ip !! 0%nat; b ← ip !! 1%nat; c ← ip !! 2%nat; d ← ip !! 3%nat;
  Some (PyFormat.str <$> [a; b; c; d]).

Definition octet (v : Z) : Prop := 0 <= v <= 255.

(** Four octets each, the start address not above the end address in the
    order of IPv4 addresses (the first octet counts most). *)
Fixpoint address_le (a b : list Z) : Prop :=
  match a, b with
  | x :: a', y :: b' => x < y \/ (x = y /\ address_le a' b')
  | _, _ => True
  end.

Definition well_formed (cfg : ip_config) : Prop :=
  length (ip_start cfg) = 4%nat /\ length (ip_end cfg) = 4%nat /\
  Forall octet (ip_start cfg) /\ Forall octet (ip_end cfg) /\
  address_le (ip_start cfg) (ip_end cfg).

End IpConfig.

(** ** The address scan: [scan_ip], [process_scan_results],
    [create_pump_files] *)

Module Scan.
Import IpConfig.

(** [list(range(a, b))] *)
Definition range (a b : Z) : list Z := seqZ a (b - a).

(** The addresses [run_scan] hands to [scan_single_ip], as the texts
    [f"{start_ip_base}.{i}"]; [None] is the [IndexError] of a configuration
    with fewer than four octets. *)
Definition scan_targets (cfg : ip_config) : option (list string) :=
  a ← ip_start cfg !! 0%nat; b ← ip_start cfg !! 1%nat; c ← ip_start cfg !! 2%nat;
  let start_ip_base := PyFormat.dot (PyFormat.dot (PyFormat.str a) (PyFormat.str b))
                                    (PyFormat.str c) in
  start_last_octet ← ip_start cfg !! 3%nat;
  end_last_octet ← ip_end cfg !! 3%nat;
  Some ((fun i => PyFormat.dot start_ip_base (PyFormat.str i))
          <$> range start_last_octet (end_last_octet + 1)).

(** [chr(b)] for a byte. *)
Definition chr (b : Z) : ascii := ascii_of_N (Z.to_N b).

(** The characters one register adds to [pump_number]. *)
Definition register_text (reg : Z) : string :=
  let high_byte := Z.land (Z.shiftr reg 8) 255 in
  let low_byte := Z.land reg 255 in
  (if negb (high_byte =? 0) then String (chr high_byte) EmptyString else EmptyString)
  +:+ (if negb (low_byte =? 0) then String (chr low_byte) EmptyString else EmptyString).

Definition pump_number_of (registers : list Z) : string :=
  fold_left (fun pump_number reg => pump_number +:+ register_text reg)
            registers EmptyString.

(** What the scan does to the disk, in the folder named after the pump. *)
Inductive file_action :=
| MakeDirs (pump_number : string)
| CopyExe (source : string) (pump_number : string)
| WriteIni (pump_number : string) (ip : string) (version : Z).

Inductive scan_exn := ScanModbusException | ScanIndexError | ScanOSError.

(** The files made so far and, when an action failed, the exception. *)
Definition files := (list file_action * option scan_exn)%type.

(** [fs_ok] tells which file actions succeed; the others raise
    [OSError]. *)
Fixpoint perform (fs_ok : file_action -> bool) (todo : list file_action) : files :=
  match todo with
  | [] => ([], None)
  | a :: rest =>
      if fs_ok a then
        let r := perform fs_ok rest in (a :: r.1, r.2)
      else ([], Some ScanOSError)
  end.

Definition create_pump_files (fs_ok : file_action -> bool)
    (pump_number ip : string) (integer_value : Z) : files :=
  perform fs_ok
    (MakeDirs pump_number ::
     (if integer_value =? 22 then
        [CopyExe "PumperHMI 8.exe" pump_number; WriteIni pump_number ip 8]
      else if integer_value =? 1 then
        [CopyExe "PumperHMI.exe" pump_number; WriteIni pump_number ip 1]
      else [])).

Definition process_scan_results (fs_ok : file_action -> bool)
    (string_registers int_registers : list Z) (ip : string) : files :=
  let pump_number := pump_number_of string_registers in
  match int_registers !! 0%nat with
  | None => ([], Some ScanIndexError)
  | Some integer_value => create_pump_files fs_ok pump_number ip integer_value
  end.

(** The answers of the device at one address and of the disk. *)
Record scan_env := {
  s_connect : connect_reply;
  s_string : read_reply;
  s_int : read_reply;
  s_fs_ok : file_action -> bool
}.

Record scan_result := {
  calls : list event;
  made : list file_action;
  printed : option scan_exn
}.

(** [scan_single_ip], with [ip] already formatted: the calls of the
    client in order, the files made, and the exception its handler
    prints, if any. *)
Definition scan_single_ip (ip : string) (e : scan_env) : scan_result :=
  let body : list event * files :=
    match s_connect e with
    | ConnectRaises => ([EvConnect], ([], Some ScanModbusException))
    | ConnectFalse => ([EvConnect], ([], None))
    | ConnectTrue =>
        match s_string e with
        | ReadRaises =>
            ([EvConnect; EvReadHolding 128 10], ([], Some ScanModbusException))
        | string_result =>
            let tr := [EvConnect; EvReadHolding 128 10; EvReadHolding 138 1] in
            match string_result, s_int e with
            | _, ReadRaises => (tr, ([], Some ScanModbusException))
            | ReadOk string_registers, ReadOk int_registers =>
                (tr, process_scan_results (s_fs_ok e) string_registers int_registers ip)
            | _, _ => (tr, ([], None))
            end
        end
    end in
  {| calls := EvNewClient ip :: body.1 ++ [EvClose];
     made := body.2.1;
     printed := body.2.2 |}.

End Scan.

(** ** The client of [send_register_value], and the pool under a
    sequence of requests *)

Module Clients.
Import Setpoint.



(** Requests to the pool of revision 5.2.1, one after the other; each
    comes with the answer [connect] would give. *)
Definition serve (requests : list (string * connect_reply)) (pool : gmap string bool)
  : gmap string bool * list event :=
  fold_left (fun acc '(ip, r) =>
               let res := Pool.get_modbus_connection ip r acc.1 in
               (res.1.2, acc.2 ++ res.2))
            requests (pool, []).

Definition is_new_client_for (ip : string) (ev : event) : bool :=
  match ev with
  | EvNewClient ip' => String.eqb ip' ip
  | _ => false
  end.

End Clients.

(** * Properties *)

(** ** The codec and the string functions on examples *)

Example ex_decode_34 : Codec.decodeFloat32BE 0x4208 0 = Some Codec.float_34.
Proof. reflexivity. Qed.
Example ex_encode_34 : Codec.encodeFloat32BE Codec.float_34 = Some (0x4208, 0).
Proof. reflexivity. Qed.
Example ex_decode_1 : Codec.decodeFloat32BE 0x3F80 0 = Some (S754_finite false 8388608 (-23)).
Proof. reflexivity. Qed.
Example ex_encode_unnormalised : Codec.encodeFloat32BE (S754_finite false 17 1) = Some (0x4208, 0).
Proof. reflexivity. Qed.
Example ex_encode_overflow : Codec.encodeFloat32BE (S754_finite false 1 200) = None.
Proof. reflexivity. Qed.
Example ex_sub : Codec.encodeFloat32BE (S754_finite true 5 (-149)) = Some (0x8000, 5).
Proof. reflexivity. Qed.
Example ex_nan : Codec.decodeFloat32BE 0x7F80 1 = Some S754_nan /\ Codec.encodeFloat32BE S754_nan = Some (0x7FC0, 0) /\ Codec.is_nan_pattern 0x7F80 1 = true.
Proof. repeat split; reflexivity. Qed.
Example ex_int_1000 : PyStr.int " 1_000 " = Some 1000. Proof. reflexivity. Qed.
Example ex_int_neg : PyStr.int "-12" = Some (-12). Proof. reflexivity. Qed.
Example ex_int_bad : PyStr.int "10 50" = None /\ PyStr.int "" = None /\ PyStr.int "1__0" = None
  /\ PyStr.int "_1" = None /\ PyStr.int "1_" = None /\ PyStr.int "+ 1" = None /\ PyStr.int "1e3" = None.
Proof. repeat split; reflexivity. Qed.
Example ex_isdigit : PyStr.isdigit "075" = true /\ PyStr.isdigit "" = false /\ PyStr.isdigit "+75" = false.
Proof. repeat split; reflexivity. Qed.

(** ** Running the monad *)

Section MonadFacts.
Context {S : Type}.
Implicit Types s : S.

Lemma bind_run {A B} (m : M (S:=S) A) (f : A -> M B) s :
  bind m f s =
    match result_of (m s) with
    | Normal a =>
        let r := f a (state_of (m s)) in
        (result_of r, state_of r, trace_of (m s) ++ trace_of r)
    | Raised ex => (Raised ex, state_of (m s), trace_of (m s))
    end.
Proof.
  unfold bind, result_of, state_of, trace_of.
  destruct (m s) as [[[a|ex] s1] t1]; simpl; [|reflexivity].
  destruct (f a s1) as [[r s2] t2]; reflexivity.
Qed.

Lemma bind_normal {A B} (m : M (S:=S) A) (f : A -> M B) s a s1 t1 :
  m s = (Normal a, s1, t1) ->
  bind m f s = (result_of (f a s1), state_of (f a s1), t1 ++ trace_of (f a s1)).
Proof. intros H. rewrite bind_run, H. reflexivity. Qed.

Lemma bind_raised {A B} (m : M (S:=S) A) (f : A -> M B) s ex s1 t1 :
  m s = (Raised ex, s1, t1) -> bind m f s = (Raised ex, s1, t1).
Proof. intros H. rewrite bind_run, H. reflexivity. Qed.

Lemma try_except_run {A} (m : M (S:=S) A) h s :
  try_except m h s =
    match result_of (m s) with
    | Normal a => (Normal a, state_of (m s), trace_of (m s))
    | Raised ex =>
        let r := h ex (state_of (m s)) in
        (result_of r, state_of r, trace_of (m s) ++ trace_of r)
    end.
Proof.
  unfold try_except, result_of, state_of, trace_of.
  destruct (m s) as [[[a|ex] s1] t1]; simpl; [reflexivity|].
  destruct (h ex s1) as [[r s2] t2]; reflexivity.
Qed.

Lemma finally_run {A} (m : M (S:=S) A) fin s :
  finally m fin s =
    (result_of (m s), state_of (fin (state_of (m s))),
     trace_of (m s) ++ trace_of (fin (state_of (m s)))).
Proof.
  unfold finally, result_of, state_of, trace_of.
  destruct (m s) as [[r s1] t1]; simpl.
  destruct (fin s1) as [[r2 s2] t2]; reflexivity.
Qed.

Lemma state_of_run {A} (r : outcome A) s (t : list event) : state_of (r, s, t) = s.
Proof. reflexivity. Qed.
Lemma trace_of_run {A} (r : outcome A) s (t : list event) : trace_of (r, s, t) = t.
Proof. reflexivity. Qed.
Lemma result_of_run {A} (r : outcome A) s (t : list event) : result_of (r, s, t) = r.
Proof. reflexivity. Qed.

Lemma run_eta {A} (x : outcome A * S * list event) :
  x = (result_of x, state_of x, trace_of x).
Proof. destruct x as [[r s1] t1]; reflexivity. Qed.
End MonadFacts.

Ltac run_simpl :=
  cbv zeta; rewrite ?state_of_run, ?trace_of_run, ?result_of_run.

Lemma writes_app (t1 t2 : list event) : writes (t1 ++ t2) = writes t1 ++ writes t2.
Proof. apply List.filter_app. Qed.

Lemma writes_cons_other (ev : event) (t : list event) :
  is_write ev = false -> writes (ev :: t) = writes t.
Proof. intros H. unfold writes. simpl. rewrite H. reflexivity. Qed.

(** ** Which parts of the worker touch the control state *)

Module Frame.
Import Monitor.

Section View.
Context {V : Type} (view : state -> V) (loud : event -> bool).

Local Abbreviation keeps := (preserves view loud).

Lemma preserves_ret {A} (a : A) : keeps (ret a).
Proof. intros s. split; reflexivity. Qed.

Lemma preserves_raise {A} ex : keeps (raise (A:=A) ex).
Proof. intros s. split; reflexivity. Qed.

Lemma preserves_get : keeps get.
Proof. intros s. split; reflexivity. Qed.

Lemma preserves_emit ev : loud ev = false -> keeps (emit ev).
Proof.
  intros H s. split; [reflexivity|].
  unfold emit, trace_of. simpl. rewrite H. reflexivity.
Qed.

Lemma preserves_modify f : (forall s, view (f s) = view s) -> keeps (modify f).
Proof. intros H s. split; [apply H | reflexivity]. Qed.

Lemma preserves_bind {A B} (m : M A) (f : A -> M B) :
  keeps m -> (forall a, keeps (f a)) -> keeps (bind m f).
Proof.
  intros Hm Hf s. rewrite bind_run. destruct (Hm s) as [Hv Hw].
  destruct (result_of (m s)) as [a|ex]; run_simpl; [|split; assumption].
  destruct (Hf a (state_of (m s))) as [Hv' Hw'].
  split; [congruence|]. rewrite List.filter_app, Hw, Hw'. reflexivity.
Qed.

Lemma preserves_try_except {A} (m : M A) h :
  keeps m -> (forall ex, keeps (h ex)) -> keeps (try_except m h).
Proof.
  intros Hm Hh s. rewrite try_except_run. destruct (Hm s) as [Hv Hw].
  destruct (result_of (m s)) as [a|ex]; run_simpl; [split; assumption|].
  destruct (Hh ex (state_of (m s))) as [Hv' Hw'].
  split; [congruence|]. rewrite List.filter_app, Hw, Hw'. reflexivity.
Qed.

Lemma preserves_finally {A} (m : M A) fin :
  keeps m -> keeps fin -> keeps (finally m fin).
Proof.
  intros Hm Hf s. rewrite finally_run. destruct (Hm s) as [Hv Hw].
  destruct (Hf (state_of (m s))) as [Hv' Hw']. run_simpl.
  split; [congruence|]. rewrite List.filter_app, Hw, Hw'. reflexivity.
Qed.
End View.

Create HintDb frame.
#[export] Hint Resolve preserves_ret preserves_raise preserves_get preserves_emit
  preserves_modify : frame.
#[export] Hint Extern 1 (_ = false) => reflexivity : frame.

(** Splits a computation into its parts until known ones are reached. *)
Ltac quiet :=
  repeat first
    [ solve [auto with frame]
    | apply preserves_bind; [ | intros ]
    | match goal with
      | |- preserves _ _ (if ?b then _ else _) => destruct b
      | |- preserves _ _ (match ?x with _ => _ end) => destruct x
      end ].

Section Blocks.
Context {V : Type} (view : state -> V) (loud : event -> bool).
Hypothesis view_flash : forall v s, view (with_flash_counter v s) = view s.
Hypothesis view_red : forall v s, view (with_has_red_params v s) = view s.
Hypothesis view_ack : forall v s, view (with_alert_acknowledged v s) = view s.
Hypothesis view_bg : forall v s, view (with_bg_flash_state v s) = view s.

Hypothesis loud_read_input : forall a c, loud (EvReadInput a c) = false.
Hypothesis loud_read_holding : forall a c, loud (EvReadHolding a c) = false.
Hypothesis loud_widget : forall w upd, loud (EvWidget w upd) = false.
Hypothesis loud_print : forall msg, loud (EvPrint msg) = false.
Hypothesis loud_connect : loud EvConnect = false.
Hypothesis loud_close : loud EvClose = false.

Local Hint Resolve view_flash view_red view_ack view_bg loud_read_input
  loud_read_holding loud_widget loud_print loud_connect loud_close : frame.

Lemma preserves_reply_registers r : preserves view loud (reply_registers r).
Proof. unfold reply_registers. quiet. Qed.
Local Hint Resolve preserves_reply_registers : frame.

Lemma preserves_read_input a c r : preserves view loud (read_input_registers a c r).
Proof. unfold read_input_registers. quiet. Qed.

Lemma preserves_read_holding a c r : preserves view loud (read_holding_registers a c r).
Proof. unfold read_holding_registers. quiet. Qed.

Lemma preserves_item regs i : preserves view loud (item regs i).
Proof. unfold item. quiet. Qed.

Lemma preserves_widget_update w upd : preserves view loud (widget_update w upd).
Proof. unfold widget_update. quiet. Qed.

Lemma preserves_print msg : preserves view loud (print msg).
Proof. unfold print. quiet. Qed.

Lemma preserves_connect r : preserves view loud (connect r).
Proof. unfold connect. quiet. Qed.

Lemma preserves_next_flash : preserves view loud next_flash.
Proof. unfold next_flash. quiet. Qed.

Lemma preserves_set_red : preserves view loud set_red.
Proof. unfold set_red. quiet. Qed.

Local Hint Resolve preserves_read_input preserves_read_holding preserves_item
  preserves_widget_update preserves_print preserves_connect preserves_next_flash
  preserves_set_red : frame.

Lemma preserves_read_plc_bit e : preserves view loud (read_plc_bit e).
Proof. unfold read_plc_bit. quiet. Qed.

Lemma preserves_flash_status_light b : preserves view loud (flash_status_light b).
Proof. unfold flash_status_light. quiet. Qed.

Lemma preserves_flash_background u : preserves view loud (flash_background u).
Proof. unfold flash_background. quiet. Qed.

Lemma preserves_show_battery v : preserves view loud (show_battery v).
Proof. unfold show_battery. quiet. Qed.
Local Hint Resolve preserves_read_plc_bit preserves_flash_status_light
  preserves_flash_background preserves_show_battery : frame.

Lemma preserves_read_battery e : preserves view loud (read_battery e).
Proof. unfold read_battery. quiet. Qed.

Lemma preserves_read_setting u e : preserves view loud (read_setting u e).
Proof. unfold read_setting. quiet. Qed.

Lemma preserves_show_control e : preserves view loud (show_control e).
Proof. unfold show_control. quiet. Qed.

Lemma preserves_check_register r bad : preserves view loud (check_register r bad).
Proof. unfold check_register. quiet. Qed.

Lemma preserves_check_oil_rate r : preserves view loud (check_oil_rate r).
Proof. unfold check_oil_rate. quiet. Qed.
Local Hint Resolve preserves_show_control preserves_check_register
  preserves_check_oil_rate : frame.

Lemma preserves_lfpc_monitoring u e : preserves view loud (lfpc_monitoring u e).
Proof. unfold lfpc_monitoring. quiet. Qed.

Lemma preserves_status_rest u e : preserves view loud (status_rest u e).
Proof. unfold status_rest. quiet. Qed.

Lemma preserves_reset_displays u ex : preserves view loud (reset_displays u ex).
Proof. unfold reset_displays. quiet. Qed.

Lemma preserves_close_client e : preserves view loud (close_client e).
Proof. unfold close_client. quiet. Qed.

(** The parts that touch the control state, for views and selections that
    do not look at it. *)
Hypothesis view_turbo : forall v s, view (with_turbo_temp v s) = view s.
Hypothesis view_record : forall ip t s, view (record_activation ip t s) = view s.
Hypothesis loud_write : forall a v, loud (EvWriteRegister a v) = false.

Local Hint Resolve view_turbo view_record loud_write : frame.

Lemma preserves_read_turbo e : preserves view loud (read_turbo e).
Proof. unfold read_turbo. quiet. Qed.

Lemma preserves_prime_monitoring u e : preserves view loud (prime_monitoring u e).
Proof.
  unfold prime_monitoring.
  pose proof (preserves_read_turbo e). pose proof (preserves_read_battery e).
  pose proof (preserves_read_setting u e). quiet.
Qed.

Lemma preserves_load_turbo_temp : preserves view loud load_turbo_temp.
Proof. unfold load_turbo_temp. quiet. Qed.

Lemma preserves_auto_control u e : preserves view loud (auto_control u e).
Proof.
  pose proof preserves_load_turbo_temp.
  unfold auto_control, trigger, write_register. quiet.
Qed.

Lemma preserves_poll u e : preserves view loud (poll u e).
Proof.
  pose proof (preserves_prime_monitoring u e). pose proof (preserves_auto_control u e).
  pose proof (preserves_lfpc_monitoring u e). pose proof (preserves_status_rest u e).
  unfold poll, prime_status. quiet.
Qed.
End Blocks.

End Frame.

(** ** The auto-control and the activation times *)

Module Control.
Import Monitor Frame.

Lemma control_outcome_app_r u e before tr after t2 :
  control_outcome u e before tr after -> writes t2 = [] ->
  control_outcome u e before (tr ++ t2) after.
Proof.
  intros H Ht. destruct H as [tr Hw | tr Hw Ha Hc Hl].
  - apply no_write. rewrite writes_app, Hw, Ht. reflexivity.
  - apply one_write; auto.
    + rewrite writes_app, Hw, Ht. reflexivity.
    + intros Hf. apply in_or_app. left. auto.
Qed.

Lemma control_outcome_app_l u e before tr after t1 :
  control_outcome u e before tr after -> writes t1 = [] ->
  control_outcome u e before (t1 ++ tr) after.
Proof.
  intros H Ht. destruct H as [tr Hw | tr Hw Ha Hc Hl].
  - apply no_write. rewrite writes_app, Hw, Ht. reflexivity.
  - apply one_write; auto.
    + rewrite writes_app, Hw, Ht. reflexivity.
    + intros Hf. apply in_or_app. right. auto.
Qed.

Lemma preserves_controlled u e {A} (m : M A) :
  preserves last_fan_activation is_write m -> controlled u e m.
Proof. intros H s. destruct (H s) as [Hv Hw]. rewrite Hv. apply no_write, Hw. Qed.

Lemma controlled_bind_l u e {A B} (m : M A) (f : A -> M B) :
  controlled u e m -> (forall a, preserves last_fan_activation is_write (f a)) ->
  controlled u e (bind m f).
Proof.
  intros Hm Hf s. rewrite bind_run. specialize (Hm s).
  destruct (result_of (m s)) as [a|ex]; run_simpl; [|assumption].
  destruct (Hf a (state_of (m s))) as [Hv Hw]. rewrite Hv.
  apply control_outcome_app_r; assumption.
Qed.

Lemma controlled_bind_r u e {A B} (m : M A) (f : A -> M B) :
  preserves last_fan_activation is_write m -> (forall a, controlled u e (f a)) ->
  controlled u e (bind m f).
Proof.
  intros Hm Hf s. rewrite bind_run. destruct (Hm s) as [Hv Hw].
  destruct (result_of (m s)) as [a|ex]; run_simpl.
  - specialize (Hf a (state_of (m s))). rewrite Hv in Hf.
    apply control_outcome_app_l; assumption.
  - rewrite Hv. apply no_write, Hw.
Qed.

Lemma controlled_try_except u e {A} (m : M A) h :
  controlled u e m -> (forall ex, preserves last_fan_activation is_write (h ex)) ->
  controlled u e (try_except m h).
Proof.
  intros Hm Hh s. rewrite try_except_run. specialize (Hm s).
  destruct (result_of (m s)) as [a|ex]; run_simpl; [assumption|].
  destruct (Hh ex (state_of (m s))) as [Hv Hw]. rewrite Hv.
  apply control_outcome_app_r; assumption.
Qed.

Lemma controlled_finally u e {A} (m : M A) fin :
  controlled u e m -> preserves last_fan_activation is_write fin ->
  controlled u e (finally m fin).
Proof.
  intros Hm Hf s. rewrite finally_run. specialize (Hm s). run_simpl.
  destruct (Hf (state_of (m s))) as [Hv Hw]. rewrite Hv.
  apply control_outcome_app_r; assumption.
Qed.

Lemma controlled_auto_control u e : controlled u e (auto_control u e).
Proof.
  intros s. unfold auto_control, trigger, load_turbo_temp.
  destruct (e_auto_control_active e) eqn:Hauto; [|apply no_write; reflexivity].
  unfold bind, get, ret, raise, print, emit, modify, write_register, trace_of, state_of.
  simpl.
  destruct (turbo_temp s) as [v|] eqn:Hv; simpl; [|apply no_write; reflexivity].
  destruct (e_turbo_temp_threshold e <=? v); simpl; [|apply no_write; reflexivity].
  destruct (cooldown_elapsed (e_time e) (default 0%Q (last_fan_activation s !! ip_address u)))
    eqn:Hcool; simpl; rewrite ?Hv; simpl; [|apply no_write; reflexivity].
  pose proof (one_write u e (last_fan_activation s)) as Hone.
  destruct (e_fan e) eqn:Hfan; simpl; rewrite ?Hv; simpl.
  - eapply (Hone [_; _; _]); auto. discriminate.
  - eapply (Hone [_; _; _]); auto. intros _. simpl. auto.
  - eapply (Hone [_; _]); auto. discriminate.
Qed.

Local Ltac lfa_view := intros; reflexivity.

Lemma controlled_poll u e : controlled u e (poll u e).
Proof.
  unfold poll. apply controlled_bind_r; [apply preserves_connect; lfa_view|].
  intros [|]; [|apply preserves_controlled, preserves_ret].
  destruct (is_lfpc u); simpl.
  - apply preserves_controlled, preserves_bind; [|intros; apply preserves_ret].
    apply preserves_lfpc_monitoring; lfa_view.
  - apply controlled_bind_r.
    + unfold prime_monitoring.
      apply preserves_bind; [apply preserves_read_turbo; lfa_view|intros].
      apply preserves_bind; [apply preserves_read_battery; lfa_view|intros].
      apply preserves_read_setting; lfa_view.
    + intros _. unfold prime_status. apply controlled_bind_l.
      * apply controlled_auto_control.
      * intros _. apply preserves_status_rest; lfa_view.
Qed.

Lemma controlled_iteration u e : controlled u e (iteration u e).
Proof.
  unfold iteration. apply controlled_bind_r; [apply preserves_emit; reflexivity|].
  intros _. apply controlled_finally.
  - apply controlled_try_except; [apply controlled_poll|].
    intros ex. apply preserves_reset_displays; lfa_view.
  - apply preserves_close_client; lfa_view.
Qed.

Lemma fan_write_in_writes tr : In fan_write tr -> In fan_write (writes tr).
Proof. intros H. apply List.filter_In. split; [assumption|reflexivity]. Qed.

(** An iteration that issues the fan write found the cooldown elapsed. *)
Lemma iteration_write_cooldown u e s :
  In fan_write (trace_of (iteration u e s)) ->
  cooldown_elapsed (e_time e) (default 0%Q (last_fan_activation s !! ip_address u)) = true.
Proof.
  intros Hin. apply fan_write_in_writes in Hin.
  destruct (controlled_iteration u e s) as [tr Hw | tr Hw Ha Hc Hl]; [|assumption].
  rewrite Hw in Hin. destruct Hin.
Qed.

(** The activation time of the unit after an iteration: the time of this
    iteration when it wrote with success, the former one otherwise. *)
Lemma iteration_activation u e s :
  (In fan_write (trace_of (iteration u e s)) /\ e_fan e = WriteOk /\
   last_fan_activation (state_of (iteration u e s)) =
     <[ip_address u := e_time e]> (last_fan_activation s))
  \/
  (~ (In fan_write (trace_of (iteration u e s)) /\ e_fan e = WriteOk) /\
   last_fan_activation (state_of (iteration u e s)) = last_fan_activation s).
Proof.
  destruct (controlled_iteration u e s) as [tr Hw | tr Hw Ha Hc Hl].
  - right. split; [|reflexivity].
    intros [Hin _]. apply fan_write_in_writes in Hin. rewrite Hw in Hin. destruct Hin.
  - assert (Hin : In fan_write tr).
    { apply (proj1 (List.filter_In is_write fan_write tr)).
      fold (writes tr). rewrite Hw. left. reflexivity. }
    destruct (e_fan e) eqn:Hfan.
    + left. auto.
    + right. split; [|reflexivity]. intros [_ ?]; discriminate.
    + right. split; [|reflexivity]. intros [_ ?]; discriminate.
Qed.

Lemma clock_monotone_tail e rest :
  clock_monotone (e :: rest) ->
  clock_monotone rest /\
  (forall j ej, rest !! j = Some ej -> (e_time e <= e_time ej)%Q).
Proof.
  intros H. split.
  - intros i j ei ej Hij Hi Hj. apply (H (S i) (S j)); auto. lia.
  - intros j ej Hj. apply (H O (S j)); auto. lia.
Qed.

(** Position [0] of the run, and the positions after it. *)
Lemma monitor_unit_head u e rest s t :
  (monitor_unit u (e :: rest) s).1 !! O = Some t ->
  In fan_write t -> In fan_write (trace_of (iteration u e s)).
Proof.
  simpl. destruct (e_active_while e); simpl; [|discriminate].
  destruct (e_active_top e); simpl.
  - destruct (e_active_end e); simpl; intros [= <-] Hin;
      apply in_app_or in Hin as [Hin|[Hin|[]]]; auto; discriminate.
  - intros [= <-] [Hin|[]]. discriminate.
Qed.

Lemma monitor_unit_tail u e rest s j t :
  (monitor_unit u (e :: rest) s).1 !! (S j) = Some t ->
  (monitor_unit u rest (state_of (iteration u e s))).1 !! j = Some t.
Proof.
  simpl. destruct (e_active_while e); simpl; [|discriminate].
  destruct (e_active_top e); simpl; [|discriminate].
  destruct (e_active_end e); simpl; [|discriminate].
  auto.
Qed.

(** Once a time [t0] is recorded for the unit, every later fan write of
    the run comes at least the cooldown after [t0]. *)
Lemma writes_after_activation u envs : forall s t0,
  last_fan_activation s !! ip_address u = Some t0 ->
  (forall j ej, envs !! j = Some ej -> (t0 <= e_time ej)%Q) ->
  clock_monotone envs ->
  forall j ej tj,
    envs !! j = Some ej ->
    (monitor_unit u envs s).1 !! j = Some tj ->
    In fan_write tj ->
    (cooldown <= e_time ej - t0)%Q.
Proof.
  induction envs as [|e rest IH]; intros s t0 Hlast Hafter Hmono j ej tj Hej Htj Hin.
  - destruct j; discriminate.
  - destruct (clock_monotone_tail _ _ Hmono) as [Hmono' Hhead].
    destruct j as [|j].
    + injection Hej as <-.
      pose proof (monitor_unit_head _ _ _ _ _ Htj Hin) as Hit.
      apply iteration_write_cooldown in Hit. rewrite Hlast in Hit. simpl in Hit.
      apply Qle_bool_iff in Hit. exact Hit.
    + apply monitor_unit_tail in Htj. simpl in Hej.
      pose proof (Hafter O e eq_refl) as Ht0.
      destruct (iteration_activation u e s) as [(_ & _ & Hact)|[_ Hact]].
      * assert (Hnew : last_fan_activation (state_of (iteration u e s)) !! ip_address u
                       = Some (e_time e)).
        { rewrite Hact. apply lookup_insert_eq. }
        pose proof (IH _ _ Hnew Hhead Hmono' j ej tj Hej Htj Hin) as Hgap.
        lra.
      * assert (Hold : last_fan_activation (state_of (iteration u e s)) !! ip_address u
                       = Some t0) by (rewrite Hact; exact Hlast).
        apply (IH _ _ Hold (fun k ek Hk => Hafter (S k) ek Hk) Hmono' j ej tj Hej Htj Hin).
Qed.

Lemma clock_sorted_monotone envs : clock_sorted envs = true -> clock_monotone envs.
Proof.
  induction envs as [|e rest IH]; intros Hs i j ei ej Hij Hi Hj.
  - destruct i; discriminate.
  - simpl in Hs. apply andb_prop in Hs as [Hall Hrest].
    destruct i as [|i]; destruct j as [|j]; simpl in Hi, Hj; try lia.
    + injection Hi as <-. injection Hj as <-. apply Qle_refl.
    + injection Hi as <-. rewrite forallb_forall in Hall.
      apply Qle_bool_iff, Hall. apply list_elem_of_In. eapply list_elem_of_lookup_2, Hj.
    + apply (IH Hrest i j); auto. lia.
Qed.

(** C1, as amended. In a run of the polling loop of a device under a clock
    that does not run backwards, a fan write that follows a fan write which
    reported success comes at least the 10 seconds of the cooldown after
    it, however often the trigger condition holds in between. *)
Theorem cooldown_after_successful_write u envs : forall s i j ei ej ti tj,
  clock_monotone envs -> (i < j)%nat ->
  envs !! i = Some ei -> envs !! j = Some ej ->
  (monitor_unit u envs s).1 !! i = Some ti ->
  (monitor_unit u envs s).1 !! j = Some tj ->
  In fan_write ti -> e_fan ei = WriteOk -> In fan_write tj ->
  (cooldown <= e_time ej - e_time ei)%Q.
Proof.
  induction envs as [|e rest IH];
    intros s i j ei ej ti tj Hmono Hij Hei Hej Hti Htj Hini Hok Hinj.
  - destruct i; discriminate.
  - destruct (clock_monotone_tail _ _ Hmono) as [Hmono' Hhead].
    destruct j as [|j]; [lia|]. apply monitor_unit_tail in Htj. simpl in Hej.
    destruct i as [|i].
    + injection Hei as <-.
      pose proof (monitor_unit_head _ _ _ _ _ Hti Hini) as Hit.
      destruct (iteration_activation u e s) as [(_ & _ & Hact)|[Hno _]];
        [|exfalso; apply Hno; auto].
      eapply writes_after_activation; eauto.
      rewrite Hact. apply lookup_insert_eq.
    + apply monitor_unit_tail in Hti. simpl in Hei.
      eapply (IH _ i j); eauto. lia.
Qed.

Lemma cooldown_after_successful_write_witness :
  let envs := [Scenario.hot 100 WriteOk; Scenario.hot (203 # 2) WriteOk;
               Scenario.hot 110 WriteError] in
  (cooldown <= e_time (Scenario.hot 110 WriteError) - e_time (Scenario.hot 100 WriteOk))%Q.
Proof.
  intros envs.
  refine (cooldown_after_successful_write Scenario.prime_unit envs (initial ∅)
            0 2 _ _ _ _ _ _ eq_refl eq_refl eq_refl eq_refl _ eq_refl _).
  - apply clock_sorted_monotone. reflexivity.
  - lia.
  - vm_compute. tauto.
  - vm_compute. tauto.
Defined.

(** The scenario of the specification: threshold 1050, one iteration every
    1.5 s, temperatures 1040, 1049, 1051, 1052, 1053, 1051, 1040. The third
    iteration writes, no other does. *)
Example end_to_end_scenario :
  let at_ (n : Z) (temp : Z) :=
    Scenario.cycle (100 + (3 # 2) * inject_Z n) ConnectTrue (ReadOk [temp]) WriteOk in
  map (existsb is_fan_write)
    (monitor_unit Scenario.prime_unit
       [at_ 0 1040; at_ 1 1049; at_ 2 1051; at_ 3 1052; at_ 4 1053; at_ 5 1051; at_ 6 1040]
       (initial ∅)).1
  = [false; false; true; false; false; false; false].
Proof. vm_compute. reflexivity. Qed.

(** C1 as worded fails: when the first write reports an error, the next
    iteration, 1.5 seconds later, writes again. *)
Lemma one_write_per_window_fails : ~ Stated.one_write_per_window.
Proof.
  intros H.
  pose (e1 := Scenario.hot 100 WriteError).
  pose (e2 := Scenario.hot (203 # 2) WriteOk).
  assert (Hgap : (cooldown <= e_time e2 - e_time e1)%Q).
  { eapply (H Scenario.prime_unit [e1; e2] (initial ∅) 0%nat 1%nat e1 e2).
    - apply clock_sorted_monotone. reflexivity.
    - lia.
    - reflexivity.
    - reflexivity.
    - reflexivity.
    - reflexivity.
    - vm_compute. tauto.
    - vm_compute. tauto. }
  vm_compute in Hgap. apply Hgap. reflexivity.
Qed.

(** C2, as amended. An iteration that issues the fan write issues exactly
    that one register write; it records the time of the iteration as the
    unit's last activation when the write reports success and leaves the
    activation times as they were when it does not, so that the following
    iteration tests the cooldown against the former time again; a write
    that reports an error is logged. *)
Theorem activation_recorded_on_success u e s :
  In fan_write (trace_of (iteration u e s)) ->
  writes (trace_of (iteration u e s)) = [fan_write] /\
  (e_fan e = WriteOk ->
   last_fan_activation (state_of (iteration u e s))
   = <[ip_address u := e_time e]> (last_fan_activation s)) /\
  (e_fan e <> WriteOk ->
   last_fan_activation (state_of (iteration u e s)) = last_fan_activation s) /\
  (e_fan e = WriteError -> In (EvPrint MsgFanError) (trace_of (iteration u e s))).
Proof.
  intros Hin. apply fan_write_in_writes in Hin.
  destruct (controlled_iteration u e s) as [tr Hw | tr Hw Ha Hc Hl].
  - rewrite Hw in Hin. destruct Hin.
  - split; [assumption|]. destruct (e_fan e); repeat split; auto; congruence.
Qed.

Lemma activation_recorded_on_success_witness :
  let e := Scenario.hot 100 WriteError in
  let r := iteration Scenario.prime_unit e (initial ∅) in
  writes (trace_of r) = [fan_write] /\
  (e_fan e = WriteOk ->
   last_fan_activation (state_of r)
   = <[ip_address Scenario.prime_unit := e_time e]> (last_fan_activation (initial ∅))) /\
  (e_fan e <> WriteOk ->
   last_fan_activation (state_of r) = last_fan_activation (initial ∅)) /\
  (e_fan e = WriteError -> In (EvPrint MsgFanError) (trace_of r)).
Proof.
  intros e r.
  apply (activation_recorded_on_success Scenario.prime_unit e (initial ∅)).
  vm_compute. tauto.
Defined.

(** C2 as worded fails: a write that reports an error leaves no time
    recorded. *)
Lemma timestamp_always_recorded_fails : ~ Stated.timestamp_always_recorded.
Proof.
  intros H.
  assert (Hin : In fan_write (trace_of (iteration Scenario.prime_unit
                                         (Scenario.hot 100 WriteError) (initial ∅))))
    by (vm_compute; tauto).
  apply H in Hin. vm_compute in Hin. discriminate Hin.
Qed.

End Control.

(** ** The cooldown in a fleet of workers *)

Module Fleet.
Import Monitor Control.

Lemma fleet_step_unit_of k e workers acts k' :
  unit_of (fleet_step k e workers acts).1.1 k' = unit_of workers k'.
Proof.
  unfold fleet_step, unit_of. destruct (workers !! k) as [[u s]|] eqn:Hk; [|reflexivity].
  cbn [fst]. destruct (decide (k = k')) as [<-|Hne].
  - rewrite list_lookup_insert_eq by (eapply lookup_lt_Some, Hk). rewrite Hk. reflexivity.
  - rewrite list_lookup_insert_ne by assumption. reflexivity.
Qed.

(** A step changes the shared dictionary at most under the address of the
    unit that ran, and then to the clock reading of the step. *)
Lemma fleet_step_activation k e workers acts ip t0 :
  acts !! ip = Some t0 ->
  (fleet_step k e workers acts).1.2 !! ip = Some t0 \/
  (fleet_step k e workers acts).1.2 !! ip = Some (e_time e).
Proof.
  intros Hip. unfold fleet_step. destruct (workers !! k) as [[u s]|]; [|left; exact Hip].
  cbn [fst snd].
  destruct (iteration_activation u e (with_activations acts s)) as [(_ & _ & ->)|[_ ->]];
    cbn [last_fan_activation with_activations]; [|left; exact Hip].
  destruct (decide (ip_address u = ip)) as [->|Hne].
  - right. apply lookup_insert_eq.
  - left. rewrite lookup_insert_ne by assumption. exact Hip.
Qed.

Lemma fleet_step_write k e workers acts u :
  unit_of workers k = Some u ->
  In fan_write (fleet_step k e workers acts).2 ->
  cooldown_elapsed (e_time e) (default 0%Q (acts !! ip_address u)) = true /\
  (e_fan e = WriteOk ->
   (fleet_step k e workers acts).1.2 !! ip_address u = Some (e_time e)).
Proof.
  unfold unit_of, fleet_step. destruct (workers !! k) as [[u' s]|]; [|discriminate].
  cbn [fmap option_fmap option_map fst snd]. intros [= ->] Hin. split.
  - apply (iteration_write_cooldown u e (with_activations acts s) Hin).
  - intros Hok.
    destruct (iteration_activation u e (with_activations acts s)) as [(_ & _ & ->)|[Hno _]];
      [apply lookup_insert_eq | exfalso; apply Hno; auto].
Qed.

Lemma schedule_monotone_tail ke rest :
  schedule_monotone (ke :: rest) ->
  schedule_monotone rest /\
  (forall j kj, rest !! j = Some kj -> (e_time ke.2 <= e_time kj.2)%Q).
Proof.
  unfold schedule_monotone. rewrite fmap_cons. intros H.
  destruct (clock_monotone_tail _ _ H) as [Ht Hh]. split; [exact Ht|].
  intros j kj Hj. apply (Hh j). rewrite list_lookup_fmap, Hj. reflexivity.
Qed.

Lemma fleet_writes_after_activation schedule : forall workers acts ip t0,
  acts !! ip = Some t0 ->
  (forall j kj, schedule !! j = Some kj -> (t0 <= e_time kj.2)%Q) ->
  schedule_monotone schedule ->
  forall j k e u tj,
    schedule !! j = Some (k, e) ->
    unit_of workers k = Some u -> ip_address u = ip ->
    fleet_run schedule workers acts !! j = Some tj ->
    In fan_write tj ->
    (cooldown <= e_time e - t0)%Q.
Proof.
  induction schedule as [|[k0 e0] rest IH];
    intros workers acts ip t0 Hip Hafter Hmono j k e u tj Hj Hu Hipu Htj Hin.
  - destruct j; discriminate.
  - destruct (schedule_monotone_tail _ _ Hmono) as [Hmono' Hhead]. cbn [snd] in Hhead.
    destruct j as [|j]; cbn [fleet_run] in Htj; simpl in Hj, Htj.
    + injection Hj as -> ->. injection Htj as <-.
      destruct (fleet_step_write k e workers acts u Hu Hin) as [Hcool _].
      rewrite Hipu, Hip in Hcool. apply Qle_bool_iff in Hcool. exact Hcool.
    + pose proof (Hafter O (k0, e0) eq_refl) as Ht0. cbn [snd] in Ht0.
      rewrite <- (fleet_step_unit_of k0 e0 workers acts k) in Hu.
      destruct (fleet_step_activation k0 e0 workers acts ip t0 Hip) as [Hsame|Hnew].
      * apply (IH _ _ ip t0 Hsame (fun i ki Hi => Hafter (S i) ki Hi) Hmono'
                 j k e u tj Hj Hu Hipu Htj Hin).
      * pose proof (IH _ _ ip (e_time e0) Hnew Hhead Hmono' j k e u tj Hj Hu Hipu Htj Hin).
        lra.
Qed.

(** The cooldown across the workers of a fleet: after a fan write to a
    device that reported success, no iteration writes to the device at the
    same address before the cooldown has elapsed, whatever the other workers
    do in between. *)
Theorem fleet_cooldown schedule : forall workers acts i j ki kj ei ej ui uj ti tj,
  schedule_monotone schedule -> (i < j)%nat ->
  schedule !! i = Some (ki, ei) -> schedule !! j = Some (kj, ej) ->
  unit_of workers ki = Some ui -> unit_of workers kj = Some uj ->
  ip_address ui = ip_address uj ->
  fleet_run schedule workers acts !! i = Some ti ->
  fleet_run schedule workers acts !! j = Some tj ->
  In fan_write ti -> e_fan ei = WriteOk -> In fan_write tj ->
  (cooldown <= e_time ej - e_time ei)%Q.
Proof.
  induction schedule as [|[k0 e0] rest IH];
    intros workers acts i j ki kj ei ej ui uj ti tj Hmono Hij Hi Hj Hui Huj Hip Hti Htj
      Hini Hok Hinj.
  - destruct i; discriminate.
  - destruct (schedule_monotone_tail _ _ Hmono) as [Hmono' Hhead]. cbn [snd] in Hhead.
    destruct j as [|j]; [lia|]. cbn [fleet_run] in Hti, Htj. simpl in Hj, Htj.
    rewrite <- (fleet_step_unit_of k0 e0 workers acts kj) in Huj.
    destruct i as [|i]; simpl in Hi, Hti.
    + injection Hi as -> ->. injection Hti as <-.
      destruct (fleet_step_write ki ei workers acts ui Hui Hini) as [_ Hrec].
      eapply (fleet_writes_after_activation rest _ _ (ip_address ui) (e_time ei));
        eauto.
    + rewrite <- (fleet_step_unit_of k0 e0 workers acts ki) in Hui.
      eapply (IH _ _ i j); eauto. lia.
Qed.

End Fleet.

(** ** One iteration of the 230xx branch, step by step *)

Module Cycle.
Import Monitor Frame.

(** The iteration of a 230xx unit whose [connect] succeeds: first part,
    second part unless the first raised, handler if either raised, close. *)
Lemma iteration_prime u e s :
  is_lfpc u = false -> e_connect e = ConnectTrue ->
  iteration u e s =
    let r1 := prime_monitoring u e s in
    let r2 := match result_of r1 with
              | Normal _ => prime_status u e (state_of r1)
              | Raised ex => (Raised ex, state_of r1, [])
              end in
    let r3 := match result_of r2 with
              | Normal _ => (Normal tt, state_of r2, [])
              | Raised ex => reset_displays u ex (state_of r2)
              end in
    let r4 := close_client e (state_of r3) in
    (result_of r3, state_of r4,
     EvNewClient (ip_address u) :: EvConnect ::
       trace_of r1 ++ trace_of r2 ++ trace_of r3 ++ trace_of r4).
Proof.
  intros Hl Hc. cbv [iteration poll connect bind finally try_except emit ret].
  rewrite Hl, Hc. cbv [negb].
  destruct (prime_monitoring u e s) as [[[[]|ex] s1] t1];
    cbv [result_of state_of trace_of fst snd].
  - destruct (prime_status u e s1) as [[[[]|ex] s2] t2].
    + destruct (close_client e s2) as [[r4 s4] t4]. simpl.
      rewrite ?app_nil_r, <- ?app_assoc. reflexivity.
    + destruct (reset_displays u ex s2) as [[r3 s3] t3].
      destruct (close_client e s3) as [[r4 s4] t4]. simpl.
      rewrite ?app_nil_r, <- ?app_assoc. reflexivity.
  - destruct (reset_displays u ex s1) as [[r3 s3] t3].
    destruct (close_client e s3) as [[r4 s4] t4]. simpl.
    rewrite ?app_nil_r, <- ?app_assoc. reflexivity.
Qed.

Local Ltac trivial_view := intros; reflexivity.

Lemma writes_prime_monitoring u e : preserves last_fan_activation is_write (prime_monitoring u e).
Proof. apply preserves_prime_monitoring; trivial_view. Qed.

Lemma writes_status_rest u e : preserves last_fan_activation is_write (status_rest u e).
Proof. apply preserves_status_rest; trivial_view. Qed.

Lemma writes_reset_displays u ex : preserves last_fan_activation is_write (reset_displays u ex).
Proof. apply preserves_reset_displays; trivial_view. Qed.

Lemma writes_close_client e : preserves last_fan_activation is_write (close_client e).
Proof. apply preserves_close_client; trivial_view. Qed.

Lemma control_read_battery e : preserves control_view is_write (read_battery e).
Proof. apply preserves_read_battery; trivial_view. Qed.

Lemma control_read_setting u e : preserves control_view is_write (read_setting u e).
Proof. apply preserves_read_setting; trivial_view. Qed.

Lemma lifecycle_poll u e : preserves (fun _ => tt) is_lifecycle (poll u e).
Proof. apply preserves_poll; trivial_view. Qed.

Lemma lifecycle_reset_displays u ex :
  preserves (fun _ => tt) is_lifecycle (reset_displays u ex).
Proof. apply preserves_reset_displays; trivial_view. Qed.

Lemma reset_displays_run u ex s :
  reset_displays u ex s = (Normal tt, s, EvPrint (MsgLoopError ex) :: unknown_displays u).
Proof. unfold unknown_displays. destruct (has_setpoint_value u) eqn:H;
  cbv [reset_displays bind print widget_update emit ret]; rewrite H; reflexivity. Qed.

Lemma close_client_run e s :
  close_client e s =
    (Normal tt, s, EvClose :: (if e_close_raises e then [EvPrint MsgCloseError] else [])).
Proof. cbv [close_client bind print emit ret]. destruct (e_close_raises e); reflexivity. Qed.

Lemma in_writes tr : In fan_write tr <-> In fan_write (writes tr).
Proof.
  split; intros H.
  - apply List.filter_In. split; [assumption|reflexivity].
  - apply List.filter_In in H. tauto.
Qed.

(** What the auto-control does when the local is bound, and when not. *)
Lemma auto_control_decision u e s v :
  e_auto_control_active e = true -> turbo_temp s = Some v ->
  writes (trace_of (auto_control u e s)) =
    if (e_turbo_temp_threshold e <=? v)
       && cooldown_elapsed (e_time e) (default 0%Q (last_fan_activation s !! ip_address u))
    then [fan_write] else [].
Proof.
  intros Hauto Hv.
  unfold auto_control, trigger, load_turbo_temp. rewrite Hauto.
  unfold bind, get, ret, raise, print, emit, modify, write_register, trace_of, state_of.
  simpl. rewrite Hv. simpl.
  destruct (e_turbo_temp_threshold e <=? v); simpl; [|reflexivity].
  destruct (cooldown_elapsed _ _); simpl; rewrite ?Hv; simpl; [|reflexivity].
  destruct (e_fan e); simpl; rewrite ?Hv; reflexivity.
Qed.

Lemma auto_control_unbound u e s :
  e_auto_control_active e = true -> turbo_temp s = None ->
  auto_control u e s = (Raised (UnboundLocalError "turbo_temp"), s, []).
Proof.
  intros Hauto Hv.
  cbv [auto_control trigger load_turbo_temp bind get ret raise].
  rewrite Hauto, Hv. reflexivity.
Qed.

(** With a turbo temperature read that returns an error response, the
    first part of the branch is the battery and the setpoint alone. *)
Lemma prime_monitoring_turbo_error u e s :
  e_turbo e = ReadError ->
  prime_monitoring u e s =
    let r := (read_battery e ;; read_setting u e) s in
    (result_of r, state_of r, EvReadInput 2075 1 :: trace_of r).
Proof.
  intros Ht. unfold prime_monitoring. rewrite bind_run.
  assert (Hr : read_turbo e s = (Normal tt, s, [EvReadInput 2075 1])).
  { cbv [read_turbo read_input_registers reply_registers bind emit ret]. rewrite Ht.
    reflexivity. }
  rewrite Hr. run_simpl. reflexivity.
Qed.

Lemma control_after_battery_setting u e s :
  control_view (state_of ((read_battery e ;; read_setting u e) s)) = control_view s.
Proof.
  apply (preserves_bind control_view is_write); [apply control_read_battery|].
  intros _. apply control_read_setting.
Qed.

Lemma writes_iteration_prime u e s :
  is_lfpc u = false -> e_connect e = ConnectTrue ->
  result_of (prime_monitoring u e s) = Normal tt ->
  writes (trace_of (iteration u e s))
  = writes (trace_of (auto_control u e (state_of (prime_monitoring u e s)))).
Proof.
  intros Hl Hc Hn. rewrite (iteration_prime u e s Hl Hc). cbv zeta. rewrite Hn.
  run_simpl. set (s1 := state_of (prime_monitoring u e s)).
  unfold writes. cbn [List.filter is_write]. rewrite !List.filter_app.
  destruct (writes_prime_monitoring u e s) as [_ ->]. cbn [app].
  assert (H3 : List.filter is_write
                 (trace_of match result_of (prime_status u e s1) with
                           | Normal _ => (Normal tt, state_of (prime_status u e s1), [])
                           | Raised ex => reset_displays u ex (state_of (prime_status u e s1))
                           end) = []).
  { destruct (result_of (prime_status u e s1)); [reflexivity|].
    apply writes_reset_displays. }
  rewrite H3. cbn [app].
  match goal with |- context [close_client e ?x] =>
    destruct (writes_close_client e x) as [_ ->] end.
  rewrite app_nil_r. unfold prime_status. rewrite bind_run.
  destruct (result_of (auto_control u e s1)); run_simpl; [|reflexivity].
  rewrite List.filter_app.
  match goal with |- context [status_rest u e ?x] =>
    destruct (writes_status_rest u e x) as [_ ->] end.
  apply app_nil_r.
Qed.

(** C10. In an iteration on a 230xx unit with auto-control active whose
    turbo temperature read returns an error response, and which reaches the
    comparison (the battery and setpoint part raises nothing): when the
    local [turbo_temp] is bound, to the value [v] of an earlier iteration,
    the fan write is issued exactly when [v] is at or above the threshold
    and the cooldown has elapsed; when it is not bound, the comparison
    raises [UnboundLocalError], nothing more of the cycle runs, and the
    handler resets the displays of the unit before the client is closed. *)
Theorem trigger_reads_stale_turbo_temp u e s :
  is_lfpc u = false -> e_connect e = ConnectTrue ->
  e_auto_control_active e = true -> e_turbo e = ReadError ->
  result_of ((read_battery e ;; read_setting u e) s) = Normal tt ->
  match turbo_temp s with
  | Some v =>
      In fan_write (trace_of (iteration u e s)) <->
      e_turbo_temp_threshold e <= v /\
      cooldown_elapsed (e_time e)
        (default 0%Q (last_fan_activation s !! ip_address u)) = true
  | None =>
      trace_of (iteration u e s) =
        EvNewClient (ip_address u) :: EvConnect :: EvReadInput 2075 1 ::
          trace_of ((read_battery e ;; read_setting u e) s)
          ++ EvPrint (MsgLoopError (UnboundLocalError "turbo_temp")) :: unknown_displays u
          ++ EvClose :: (if e_close_raises e then [EvPrint MsgCloseError] else [])
  end.
Proof.
  intros Hl Hc Hauto Ht Hn.
  pose proof (prime_monitoring_turbo_error u e s Ht) as Hpm. cbv zeta in Hpm.
  pose proof (control_after_battery_setting u e s) as Hview.
  set (r := (read_battery e ;; read_setting u e) s) in *.
  assert (Hres : result_of (prime_monitoring u e s) = Normal tt)
    by (rewrite Hpm; exact Hn).
  assert (Hst : state_of (prime_monitoring u e s) = state_of r)
    by (rewrite Hpm; reflexivity).
  unfold control_view in Hview. injection Hview as Hturbo Hlast.
  destruct (turbo_temp s) as [v|] eqn:Hv.
  - rewrite in_writes, (writes_iteration_prime u e s Hl Hc Hres), Hst.
    rewrite (auto_control_decision u e (state_of r) v Hauto Hturbo), Hlast.
    destruct (Z.leb_spec (e_turbo_temp_threshold e) v) as [Hle|Hgt]; simpl.
    + destruct (cooldown_elapsed _ _); simpl.
      * split; [intros _; split; [exact Hle|reflexivity] | intros _; left; reflexivity].
      * split; [intros [] | intros [_ ?]; discriminate].
    + split; [intros [] | intros [? _]; lia].
  - rewrite (iteration_prime u e s Hl Hc). cbv zeta. rewrite Hres, Hst.
    unfold prime_status. rewrite bind_run.
    rewrite (auto_control_unbound u e (state_of r) Hauto Hturbo). run_simpl.
    rewrite reset_displays_run. run_simpl. rewrite close_client_run. run_simpl.
    rewrite Hpm. run_simpl. simpl. rewrite <- app_assoc. reflexivity.
Qed.

Lemma trigger_reads_stale_turbo_temp_witness :
  let s := state_of (iteration Scenario.prime_unit (Scenario.hot 100 WriteOk) (initial ∅)) in
  let e := Scenario.cycle 120 ConnectTrue ReadError WriteOk in
  turbo_temp s = Some 1051 /\
  (In fan_write (trace_of (iteration Scenario.prime_unit e s)) <->
   1050 <= 1051 /\
   cooldown_elapsed 120
     (default 0%Q (last_fan_activation s !! ip_address Scenario.prime_unit)) = true).
Proof.
  intros s e. split; [vm_compute; reflexivity|].
  pose proof (trigger_reads_stale_turbo_temp Scenario.prime_unit e s
                eq_refl eq_refl eq_refl eq_refl) as H.
  assert (Hn : result_of ((read_battery e ;; read_setting Scenario.prime_unit e) s)
               = Normal tt) by (vm_compute; reflexivity).
  specialize (H Hn).
  assert (Hv : turbo_temp s = Some 1051) by (vm_compute; reflexivity).
  rewrite Hv in H. exact H.
Defined.

(** The same iteration from a worker that has never read the temperature:
    the handler runs and the status part does not. *)
Example unbound_turbo_temp_run :
  trace_of (iteration Scenario.prime_unit
              (Scenario.cycle 100 ConnectTrue ReadError WriteOk) (initial ∅)) =
    [EvNewClient "10.55.10.101"; EvConnect; EvReadInput 2075 1; EvReadInput 2027 1;
     EvWidget w_battery_value (battery_update 80 "#1e1e1e");
     EvPrint (MsgLoopError (UnboundLocalError "turbo_temp"));
     EvWidget w_turbo_value (set_text (TStr "---"));
     EvWidget w_battery_value (set_text (TStr "---"));
     EvWidget w_setpoint_value (set_text (TStr "---"));
     EvWidget w_status_light (set_bg "gray");
     EvWidget w_control_button (set_bg "#0078d4");
     EvClose].
Proof. vm_compute. reflexivity. Qed.

(** C6, as amended. An iteration whose [connect] returns [False] issues no
    read, no write and no widget update, so that the displays keep what the
    last iteration showed; one whose [connect] raises runs the handler,
    which resets the displays to their unknown look. Both close the client
    and leave the state of the worker as it was, and the loop goes on to its
    sleep. *)
Theorem connect_failure_iteration u e s :
  e_connect e <> ConnectTrue ->
  iteration u e s =
    (Normal tt, s,
     EvNewClient (ip_address u) :: EvConnect ::
       match e_connect e with
       | ConnectRaises => EvPrint (MsgLoopError ModbusException) :: unknown_displays u
       | _ => []
       end
       ++ EvClose :: (if e_close_raises e then [EvPrint MsgCloseError] else []))
  /\
  (e_active_while e = true -> e_active_top e = true -> e_active_end e = true ->
   forall rest,
     (monitor_unit u (e :: rest) s).1 =
       (trace_of (iteration u e s) ++ [EvSleep poll_interval])
         :: (monitor_unit u rest s).1).
Proof.
  intros Hne.
  assert (Hrun : iteration u e s =
    (Normal tt, s,
     EvNewClient (ip_address u) :: EvConnect ::
       match e_connect e with
       | ConnectRaises => EvPrint (MsgLoopError ModbusException) :: unknown_displays u
       | _ => []
       end
       ++ EvClose :: (if e_close_raises e then [EvPrint MsgCloseError] else []))).
  { cbv [iteration poll connect finally try_except bind emit ret raise].
    destruct (e_connect e); [contradiction| |].
    - rewrite close_client_run. reflexivity.
    - rewrite reset_displays_run, close_client_run. simpl.
      rewrite ?app_nil_r. reflexivity. }
  split; [exact Hrun|].
  intros Hw Htop Hend rest. simpl. rewrite Hw, Htop, Hend. simpl.
  rewrite Hrun. reflexivity.
Qed.

Lemma connect_failure_iteration_witness :
  let e := Scenario.cycle 100 ConnectFalse (ReadOk [1051]) WriteOk in
  trace_of (iteration Scenario.prime_unit e (initial ∅)) =
    [EvNewClient "10.55.10.101"; EvConnect; EvClose].
Proof.
  intros e.
  destruct (connect_failure_iteration Scenario.prime_unit e (initial ∅)
              ltac:(discriminate)) as [H _].
  rewrite H. reflexivity.
Defined.

(** C6 as worded fails: with a [connect] that returns [False] no display is
    reset. *)
Lemma unknown_on_connect_failure_fails : ~ Stated.unknown_on_connect_failure.
Proof.
  intros H.
  destruct (H Scenario.prime_unit (Scenario.cycle 100 ConnectFalse (ReadOk [1051]) WriteOk)
              (initial ∅) ltac:(discriminate)) as [Hin _].
  vm_compute in Hin. intuition discriminate.
Qed.

End Cycle.

(** ** Connections: one client per iteration in 5.3.1, a pool in 5.2.1 *)

Module Connections.
Import Monitor Frame.

(** C3, as amended. In revision 5.3.1 every iteration of the worker begins
    by creating a client of its own and ends by closing it, whatever
    happened in between, so that no connection is carried from one cycle to
    the next; and [stop_monitoring] closes nothing. *)
Theorem client_created_and_closed_each_iteration u e s :
  hd_error (trace_of (iteration u e s)) = Some (EvNewClient (ip_address u)) /\
  List.filter is_lifecycle (trace_of (iteration u e s))
  = [EvNewClient (ip_address u); EvClose] /\
  forall sv now, List.filter is_lifecycle (Supervisor.stop_monitoring sv now).2 = [].
Proof.
  split; [|split].
  - unfold iteration. rewrite bind_run. reflexivity.
  - unfold iteration. rewrite bind_run.
    change (result_of (emit (EvNewClient (ip_address u)) s)) with (Normal (A:=unit) tt).
    change (state_of (emit (EvNewClient (ip_address u)) s)) with s.
    change (trace_of (emit (EvNewClient (ip_address u)) s))
      with [EvNewClient (ip_address u)].
    run_simpl. rewrite finally_run. run_simpl. cbn [app List.filter is_lifecycle].
    rewrite List.filter_app.
    destruct (preserves_try_except (fun _ => tt) is_lifecycle (poll u e) (reset_displays u)
                (Cycle.lifecycle_poll u e) (Cycle.lifecycle_reset_displays u) s) as [_ ->].
    rewrite Cycle.close_client_run. run_simpl.
    destruct (e_close_raises e); reflexivity.
  - intros sv now. unfold Supervisor.stop_monitoring.
    destruct (Supervisor.monitoring_active sv); simpl; [|reflexivity].
    destruct (Supervisor.join_threads _ _ _).2; reflexivity.
Qed.

(** C3 as worded fails on that revision: the first iteration already closes
    its client. *)
Lemma connection_kept_fails : ~ Stated.connection_kept.
Proof.
  intros H.
  apply (H Scenario.prime_unit [Scenario.hot 100 WriteOk] (initial ∅)
           (trace_of (iteration Scenario.prime_unit (Scenario.hot 100 WriteOk) (initial ∅))
              ++ [EvSleep poll_interval])).
  - left. reflexivity.
  - vm_compute. tauto.
Qed.

(** The pool of revision 5.2.1, for comparison: a client whose socket is
    open is handed out again without any call, and only
    [close_all_connections] closes it. *)
Lemma pool_reuses_open_connection ip r (pool : gmap string bool) :
  pool !! ip = Some true ->
  Pool.get_modbus_connection ip r pool = (Some ip, pool, []).
Proof. intros H. unfold Pool.get_modbus_connection. rewrite H. simpl. rewrite H. reflexivity. Qed.

Lemma pool_never_closes ip r (pool : gmap string bool) :
  List.filter is_close (Pool.get_modbus_connection ip r pool).2 = [].
Proof.
  unfold Pool.get_modbus_connection.
  destruct (pool !! ip) as [b|] eqn:H; simpl.
  - rewrite H. destruct b; [reflexivity|]. destruct r; reflexivity.
  - rewrite lookup_insert_eq. destruct r; reflexivity.
Qed.

Lemma pool_connects_and_keeps ip (pool : gmap string bool) :
  (Pool.get_modbus_connection ip ConnectTrue pool).1.2 !! ip = Some true.
Proof.
  unfold Pool.get_modbus_connection.
  destruct (pool !! ip) as [b|] eqn:H; simpl.
  - rewrite H. destruct b; simpl; [exact H|apply lookup_insert_eq].
  - rewrite lookup_insert_eq. simpl. apply lookup_insert_eq.
Qed.

Lemma pool_cleared_on_release close_raises (pool : gmap string bool) :
  (Pool.close_all_connections close_raises pool).1 = ∅.
Proof. reflexivity. Qed.

End Connections.

(** ** The battery band *)

Module Battery.
Import Monitor.



Example battery_49_and_50 :
  trace_of (show_battery 49 (initial ∅))
    = [EvWidget w_battery_value (battery_update 49 "#ff0000")] /\
  trace_of (show_battery 50 (initial ∅))
    = [EvWidget w_battery_value (battery_update 50 "#1e1e1e")].
Proof. split; reflexivity. Qed.

End Battery.

(** ** Stopping the workers *)

Module Stop.
Import Supervisor.

Lemma is_alive_spec now t :
  is_alive now t = true <->
  match ends_at t with None => True | Some d => (now < d)%Q end.
Proof.
  unfold is_alive. destruct (ends_at t) as [d|]; [|tauto].
  rewrite negb_true_iff. split.
  - intros H. apply Qnot_le_lt. intros Hle. apply Qle_bool_iff in Hle. congruence.
  - intros H. destruct (Qle_bool d now) eqn:E; [|reflexivity].
    apply Qle_bool_iff in E. exfalso. apply (Qlt_not_le _ _ H E).
Qed.

Lemma join_bounds now t :
  is_alive now t = true ->
  (now <= join join_timeout now t <= now + join_timeout)%Q.
Proof.
  intros Ha. apply is_alive_spec in Ha. unfold join, join_timeout in *.
  destruct (ends_at t) as [d|]; [|split; lra].
  destruct (Q.max_spec now d) as [[H1 H2]|[H1 H2]];
    destruct (Q.min_spec (Qmax now d) (now + (3 # 2))) as [[H3 H4]|[H3 H4]];
    split; lra.
Qed.

Lemma still_alive_after_join now t :
  is_alive now t = true -> is_alive (join join_timeout now t) t = true ->
  is_alive (now + join_timeout) t = true.
Proof.
  rewrite !is_alive_spec. unfold join, join_timeout.
  destruct (ends_at t) as [d|]; [|tauto]. intros Ha Hj.
  destruct (Q.max_spec now d) as [[H1 H2]|[H1 H2]];
    destruct (Q.min_spec (Qmax now d) (now + (3 # 2))) as [[H3 H4]|[H3 H4]]; lra.
Qed.

Lemma is_alive_earlier t1 t2 t :
  (t1 <= t2)%Q -> is_alive t2 t = true -> is_alive t1 t = true.
Proof. rewrite !is_alive_spec. destruct (ends_at t); [intros H1 H2; lra|tauto]. Qed.

Lemma budget_succ n :
  (join_timeout * inject_Z (Z.of_nat (S n))
   == join_timeout + join_timeout * inject_Z (Z.of_nat n))%Q.
Proof. rewrite Nat2Z.inj_succ. unfold Z.succ. rewrite inject_Z_plus. ring. Qed.

(** The loop over the threads: the clock stays within the budget of one
    timeout per thread, and the threads it collects are those that were
    still alive a full timeout after the loop began, all that never end
    among them. *)
Lemma join_threads_spec threads : forall now acc,
  (now <= (join_threads threads now acc).1
       <= now + join_timeout * inject_Z (Z.of_nat (length threads)))%Q /\
  exists late,
    (join_threads threads now acc).2 = acc ++ late /\
    (forall t, In t threads -> ends_at t = None -> In t late) /\
    (forall t, In t late -> In t threads /\ is_alive (now + join_timeout) t = true).
Proof.
  induction threads as [|t rest IH]; intros now acc.
  - cbn [join_threads length fst snd]. change (inject_Z (Z.of_nat 0)) with 0%Q.
    split; [unfold join_timeout; split; lra|].
    exists []. rewrite app_nil_r. split; [reflexivity|].
    split; [intros t []|intros t []].
  - cbn [join_threads length]. pose proof (budget_succ (length rest)) as Hb.
    assert (Hpos : (0 <= join_timeout * inject_Z (Z.of_nat (length rest)))%Q).
    { apply Qmult_le_0_compat; [unfold join_timeout; lra|].
      change 0%Q with (inject_Z 0). rewrite <- Zle_Qle. lia. }
    destruct (is_alive now t) eqn:Ha.
    + pose proof (join_bounds now t Ha) as Hj.
      set (now' := join join_timeout now t) in *.
      destruct (is_alive now' t) eqn:Ha'.
      * destruct (IH now' (acc ++ [t])) as [Hbound (late & Hl & Hnever & Hlate)].
        split; [unfold join_timeout in *; lra|].
        exists (t :: late). rewrite Hl, <- app_assoc. split; [reflexivity|]. split.
        -- intros t' [<-|Hin] Hn; [left; reflexivity|right; auto].
        -- intros t' [<-|Hin].
           ++ split; [left; reflexivity|]. apply still_alive_after_join; assumption.
           ++ destruct (Hlate t' Hin) as [? Hal]. split; [right; assumption|].
              apply (is_alive_earlier _ (now' + join_timeout)); [lra|assumption].
      * destruct (IH now' acc) as [Hbound (late & Hl & Hnever & Hlate)].
        split; [unfold join_timeout in *; lra|].
        exists late. split; [assumption|]. split.
        -- intros t' [<-|Hin] Hn; [|auto].
           unfold is_alive in Ha'. rewrite Hn in Ha'. discriminate.
        -- intros t' Hin. destruct (Hlate t' Hin) as [? Hal].
           split; [right; assumption|].
           apply (is_alive_earlier _ (now' + join_timeout)); [lra|assumption].
    + destruct (IH now acc) as [Hbound (late & Hl & Hnever & Hlate)].
      split; [unfold join_timeout in *; lra|].
      exists late. split; [assumption|]. split.
      * intros t' [<-|Hin] Hn; [|auto].
        unfold is_alive in Ha. rewrite Hn in Ha. discriminate.
      * intros t' Hin. destruct (Hlate t' Hin). split; [right|]; assumption.
Qed.

(** C9. [stop_monitoring] returns, and no later than one timeout of 1.5 s
    per monitoring thread after it was called, also when a thread never
    ends; when monitoring was active it clears the flag and the thread list,
    and logs the number of the threads that were still alive when their
    [join] returned: every thread that never ends is counted, and every
    counted thread was still running 1.5 s after the call. *)
Theorem stop_monitoring_returns_in_time sv now :
  (now <= (stop_monitoring sv now).1.2
       <= now + join_timeout * inject_Z (Z.of_nat (length (monitor_threads sv))))%Q /\
  (monitoring_active sv = true ->
   monitoring_active (stop_monitoring sv now).1.1 = false /\
   monitor_threads (stop_monitoring sv now).1.1 = [] /\
   exists late,
     (stop_monitoring sv now).2 =
       EvPrint MsgStopping ::
         match late with
         | [] => []
         | _ => [EvPrint (MsgNotTerminated (length late))]
         end /\
     (forall t, In t (monitor_threads sv) -> ends_at t = None -> In t late) /\
     (forall t, In t late ->
        In t (monitor_threads sv) /\ is_alive (now + join_timeout) t = true)).
Proof.
  destruct (join_threads_spec (monitor_threads sv) now [])
    as [Hbound (late & Hl & Hnever & Hlate)].
  unfold stop_monitoring. destruct (monitoring_active sv) eqn:Hact; simpl.
  - split; [exact Hbound|]. intros _. split; [reflexivity|]. split; [reflexivity|].
    exists late. simpl in Hl. rewrite Hl.
    split; [destruct late; reflexivity|]. split; assumption.
  - split; [|discriminate].
    assert (Hpos : (0 <= join_timeout * inject_Z (Z.of_nat (length (monitor_threads sv))))%Q).
    { apply Qmult_le_0_compat; [unfold join_timeout; lra|].
      change 0%Q with (inject_Z 0). rewrite <- Zle_Qle. lia. }
    split; lra.
Qed.

Lemma stop_monitoring_returns_in_time_witness :
  ((stop_monitoring Scenario.three_workers 0).1.2 == 2)%Q /\
  (stop_monitoring Scenario.three_workers 0).2
    = [EvPrint MsgStopping; EvPrint (MsgNotTerminated 1)] /\
  exists late,
     (stop_monitoring Scenario.three_workers 0).2 =
       EvPrint MsgStopping ::
         match late with
         | [] => []
         | _ => [EvPrint (MsgNotTerminated (length late))]
         end /\
     (forall t, In t (monitor_threads Scenario.three_workers) -> ends_at t = None -> In t late) /\
     (forall t, In t late ->
        In t (monitor_threads Scenario.three_workers)
        /\ is_alive (0 + join_timeout) t = true).
Proof.
  split; [vm_compute; reflexivity|]. split; [vm_compute; reflexivity|].
  destruct (stop_monitoring_returns_in_time Scenario.three_workers 0) as [_ H].
  destruct (H eq_refl) as (_ & _ & Hlate). exact Hlate.
Defined.

End Stop.

(** ** Configuration and operator commands *)

Module Commands.
Import Threshold Setpoint.



Example set_turbo_threshold_texts :
  let st := {| turbo_temp_threshold := 1050; auto_threshold := 1050 |} in
  (set_turbo_threshold "950" st).1.(turbo_temp_threshold) = 950 /\
  (set_turbo_threshold " 1_000 " st).1.(turbo_temp_threshold) = 1000 /\
  (set_turbo_threshold "949" st).1 = st /\
  (set_turbo_threshold "1000.0" st).1 = st /\
  (set_turbo_threshold "" st).1 = st.
Proof. repeat split; reflexivity. Qed.



Example send_register_value_runs :
  let ok := {| s_connect := ConnectTrue; s_arm := WriteOk; s_value := WriteOk;
               s_close_raises := false |} in
  let failing := {| s_connect := ConnectTrue; s_arm := WriteError; s_value := WriteOk;
                    s_close_raises := false |} in
  network (send_register_value "10.55.10.101" " 75 " 1212 ok)
    = [EvNewClient "10.55.10.101"; EvConnect; EvWriteRegister 509 3;
       EvWriteRegister 1212 75; EvClose] /\
  network (send_register_value "10.55.10.101" "75" 1212 failing)
    = [EvNewClient "10.55.10.101"; EvConnect; EvWriteRegister 509 3; EvClose] /\
  network (send_register_value "10.55.10.101" "49" 1212 ok) = [] /\
  network (send_register_value "10.55.10.101" "7_5" 1212 ok) = [] /\
  network (send_register_value "10.55.10.101" "-75" 1212 ok) = [].
Proof. repeat split; reflexivity. Qed.

End Commands.

(** ** The binary32 codec *)

Module FloatCodec.
Import Codec.

Lemma land_shiftl_small a b k : 0 <= k -> 0 <= b < 2 ^ k -> Z.land (Z.shiftl a k) b = 0.
Proof.
  intros Hk Hb. apply Z.bits_inj'. intros n Hn. rewrite Z.land_spec, Z.bits_0.
  destruct (Z.lt_ge_cases n k) as [Hlt|Hge].
  - rewrite Z.shiftl_spec_low by assumption. reflexivity.
  - rewrite <- (Z.mod_small b (2 ^ k)) by assumption.
    rewrite Z.mod_pow2_bits_high by lia. apply andb_false_r.
Qed.

Lemma lor_shiftl_add a b k : 0 <= k -> 0 <= b < 2 ^ k -> Z.lor (Z.shiftl a k) b = a * 2 ^ k + b.
Proof.
  intros Hk Hb. pose proof (Z.add_lor_land (Z.shiftl a k) b) as H.
  rewrite land_shiftl_small in H by assumption.
  rewrite Z.shiftl_mul_pow2 in * by assumption. lia.
Qed.

Lemma land_255 a : Z.land a 255 = a mod 256.
Proof. change 255 with (Z.ones 8). rewrite Z.land_ones by lia. reflexivity. Qed.

(** Arithmetic with quotients and remainders by constant powers of two. *)
Ltac pow2 :=
  repeat match goal with
    | |- context [Z.pow 2 ?n] =>
        let v := eval vm_compute in (Z.pow 2 n) in change (Z.pow 2 n) with v
    | H : context [Z.pow 2 ?n] |- _ =>
        let v := eval vm_compute in (Z.pow 2 n) in change (Z.pow 2 n) with v in H
    end.
Ltac zdiv := unfold is_word in *; pow2; Z.to_euclidean_division_equations; lia.

Lemma combined_value_add hi lo : is_word lo -> combined_value hi lo = hi * 2 ^ 16 + lo.
Proof. intros Hlo. unfold combined_value. apply lor_shiftl_add; [lia|exact Hlo]. Qed.

Lemma combined_value_range hi lo :
  is_word hi -> is_word lo -> 0 <= combined_value hi lo < 2 ^ 32.
Proof. intros Hhi Hlo. rewrite combined_value_add by assumption. zdiv. Qed.

Lemma pack_u32_be_bytes w :
  0 <= w < 2 ^ 32 ->
  pack_u32_be w = Some [w / 2 ^ 24; (w / 2 ^ 16) mod 256; (w / 2 ^ 8) mod 256; w mod 256].
Proof.
  intros Hw. unfold pack_u32_be.
  destruct (Z.leb_spec 0 w); [|lia]. destruct (Z.ltb_spec w (2 ^ 32)); [|lia].
  cbn [andb]. rewrite !land_255, !Z.shiftr_div_pow2 by lia. reflexivity.
Qed.

(** Unpacking what [struct.pack('>I', w)] packed gives [w] back. *)
Lemma unpack_pack_u32 w : 0 <= w < 2 ^ 32 -> pack_u32_be w ≫= unpack_u32_be = Some w.
Proof.
  intros Hw. rewrite pack_u32_be_bytes by assumption. cbn [mbind option_bind unpack_u32_be].
  f_equal.
  rewrite (lor_shiftl_add ((w / 2 ^ 8) mod 256) (w mod 256) 8) by zdiv.
  rewrite (lor_shiftl_add ((w / 2 ^ 16) mod 256) _ 16) by zdiv.
  rewrite (lor_shiftl_add (w / 2 ^ 24) _ 24) by zdiv.
  zdiv.
Qed.








(** The three fields of a 32-bit pattern. *)
Lemma testbit_31 w : 0 <= w < 2 ^ 32 -> Z.testbit w 31 = (2 ^ 31 <=? w).
Proof.
  intros Hw. rewrite Z.testbit_odd, Z.shiftr_div_pow2 by lia.
  destruct (Z.leb_spec (2 ^ 31) w) as [Hs|Hs].
  - replace (w / 2 ^ 31) with 1 by zdiv. reflexivity.
  - replace (w / 2 ^ 31) with 0 by zdiv. reflexivity.
Qed.

Lemma exponent_field w : Z.land (Z.shiftr w 23) 255 = (w / 2 ^ 23) mod 256.
Proof. rewrite land_255, Z.shiftr_div_pow2 by lia. reflexivity. Qed.

Lemma fraction_field w : Z.land w (2 ^ 23 - 1) = w mod 2 ^ 23.
Proof. change (2 ^ 23 - 1) with (Z.ones 23). apply Z.land_ones. lia. Qed.

Lemma fields_sum w :
  0 <= w < 2 ^ 32 ->
  w = sign_bit (2 ^ 31 <=? w) + (w / 2 ^ 23) mod 256 * 2 ^ 23 + w mod 2 ^ 23.
Proof.
  intros Hw. unfold sign_bit. destruct (Z.leb_spec (2 ^ 31) w); zdiv.
Qed.

Lemma nan_pattern_fields hi lo :
  is_word hi -> is_word lo ->
  is_nan_pattern hi lo =
    ((combined_value hi lo / 2 ^ 23) mod 256 =? 255)
    && negb (combined_value hi lo mod 2 ^ 23 =? 0).
Proof.
  intros Hhi Hlo. rewrite combined_value_add by assumption. unfold is_nan_pattern.
  rewrite land_255, Z.shiftr_div_pow2 by lia.
  change 127 with (Z.ones 7). rewrite Z.land_ones by lia.
  replace ((hi * 2 ^ 16 + lo) / 2 ^ 23 mod 256) with (hi / 2 ^ 7 mod 256) by zdiv.
  f_equal. f_equal.
  destruct (Z.eqb_spec (hi mod 2 ^ 7) 0) as [H0|H0]; destruct (Z.eqb_spec lo 0) as [H1|H1];
    destruct (Z.eqb_spec ((hi * 2 ^ 16 + lo) mod 2 ^ 23) 0) as [H2|H2];
    try reflexivity; exfalso; zdiv.
Qed.






Example float_round_trip_special :
  decodeFloat32BE 0x7F80 0 ≫= encodeFloat32BE = Some (0x7F80, 0) /\
  decodeFloat32BE 0x8000 0 ≫= encodeFloat32BE = Some (0x8000, 0) /\
  decodeFloat32BE 0x0000 1 ≫= encodeFloat32BE = Some (0x0000, 1) /\
  decodeFloat32BE 0xFF7F 0xFFFF ≫= encodeFloat32BE = Some (0xFF7F, 0xFFFF) /\
  decodeFloat32BE 0x7FC0 0 ≫= encodeFloat32BE = Some (0x7FC0, 0).
Proof. repeat split; reflexivity. Qed.

End FloatCodec.

(** ** The poll cycle in closed form *)

Lemma result_bind {S A B} (m : M (S:=S) A) (f : A -> M B) s :
  result_of (bind m f s) =
    match result_of (m s) with
    | Normal a => result_of (f a (state_of (m s)))
    | Raised ex => Raised ex
    end.
Proof. rewrite bind_run. destruct (result_of (m s)); reflexivity. Qed.

Lemma state_bind {S A B} (m : M (S:=S) A) (f : A -> M B) s :
  state_of (bind m f s) =
    match result_of (m s) with
    | Normal a => state_of (f a (state_of (m s)))
    | Raised ex => state_of (m s)
    end.
Proof. rewrite bind_run. destruct (result_of (m s)); reflexivity. Qed.

Module DecisionFacts.
Import Monitor Frame Decision.

Lemma next_flash_result s : result_of (next_flash s) = Normal (flash_counter (state_of (next_flash s)) <? 2).
Proof. reflexivity. Qed.

Lemma show_battery_result v s : result_of (show_battery v s) = Normal tt.
Proof.
  unfold show_battery. destruct (battery_low v); [|reflexivity].
  rewrite result_bind, next_flash_result. destruct (_ <? 2); reflexivity.
Qed.

(** The turbo temperature read: it completes unless the call raises or the
    response has no register, and binds the local only on a value. *)
Lemma read_turbo_run e s :
  result_of (read_turbo e s)
    = (if reply_has (e_turbo e) 1 then Normal tt else
         Raised (match e_turbo e with ReadRaises => ModbusException | _ => IndexError end))
  /\ control_view (state_of (read_turbo e s)) = (turbo_after e s, last_fan_activation s).
Proof.
  unfold turbo_after, reply_has, control_view.
  cbv [read_turbo read_input_registers reply_registers item bind emit ret raise modify
       widget_update result_of state_of fst snd].
  destruct (e_turbo e) as [[|v regs]| |]; split; reflexivity.
Qed.

Lemma read_battery_result e s :
  result_of (read_battery e s)
    = (if reply_has (e_battery e) 1 then Normal tt else
         Raised (match e_battery e with ReadRaises => ModbusException | _ => IndexError end)).
Proof.
  unfold reply_has.
  destruct (e_battery e) as [[|v regs]| |] eqn:Hb;
    cbv [read_battery read_input_registers reply_registers item nth_error bind emit ret
         raise modify result_of fst snd]; rewrite Hb; try reflexivity.
  pose proof (show_battery_result v (with_has_red_params false s)) as H.
  destruct (show_battery v (with_has_red_params false s)) as [[r s1] t1].
  cbv [result_of fst] in H. subst r. reflexivity.
Qed.

Lemma read_setting_result u e s :
  result_of (read_setting u e s)
    = (if negb ((e_maintenance_mode_active e || e_master_maintenance_mode e)
                && has_setpoint_value u)
          || reply_has (e_setting e) 1
       then Normal tt
       else Raised (match e_setting e with ReadRaises => ModbusException | _ => IndexError end)).
Proof.
  unfold read_setting, reply_has.
  destruct ((e_maintenance_mode_active e || e_master_maintenance_mode e)
            && has_setpoint_value u); [|reflexivity].
  cbv [read_holding_registers reply_registers item nth_error bind emit ret raise
       widget_update result_of fst snd negb orb].
  destruct (e_setting e) as [[|v regs]| |]; reflexivity.
Qed.

(** The first part of the 230xx branch as a whole. *)
Lemma prime_monitoring_run u e s :
  (if first_part_completes u e
   then result_of (prime_monitoring u e s) = Normal tt
   else exists ex, result_of (prime_monitoring u e s) = Raised ex)
  /\ control_view (state_of (prime_monitoring u e s)) = (turbo_after e s, last_fan_activation s).
Proof.
  unfold prime_monitoring, first_part_completes.
  destruct (read_turbo_run e s) as [Hr Hv].
  pose proof (Cycle.control_read_battery e (state_of (read_turbo e s))) as [Hvb _].
  pose proof (read_battery_result e (state_of (read_turbo e s))) as Hb.
  pose proof (Cycle.control_read_setting u e
                (state_of (read_battery e (state_of (read_turbo e s))))) as [Hvs _].
  pose proof (read_setting_result u e
                (state_of (read_battery e (state_of (read_turbo e s))))) as Hs.
  rewrite result_bind, state_bind, Hr.
  destruct (reply_has (e_turbo e) 1); cbn [andb]; [|split; [eauto|exact Hv]].
  rewrite result_bind, state_bind, Hb.
  destruct (reply_has (e_battery e) 1); cbn [andb];
    [|split; [eauto|rewrite Hvb; exact Hv]].
  rewrite Hs. split; [|rewrite Hvs, Hvb; exact Hv].
  destruct (_ || _); eauto.
Qed.

Local Ltac trivial_view := intros; reflexivity.

Lemma iteration_preserves u e :
  preserves last_fan_activation is_write (poll u e) ->
  preserves last_fan_activation is_write (iteration u e).
Proof.
  intros Hp. unfold iteration.
  apply preserves_bind; [apply preserves_emit; reflexivity|intros _].
  apply preserves_finally; [|apply Cycle.writes_close_client].
  apply preserves_try_except; [exact Hp|apply Cycle.writes_reset_displays].
Qed.

Lemma writes_poll_lfpc u e :
  is_lfpc u = true -> preserves last_fan_activation is_write (poll u e).
Proof.
  intros Hl. unfold poll. rewrite Hl. cbn [negb].
  assert (Hm : preserves last_fan_activation is_write (lfpc_monitoring u e))
    by (apply preserves_lfpc_monitoring; trivial_view).
  assert (Hc : preserves last_fan_activation is_write (connect (S:=state) (e_connect e)))
    by (apply preserves_connect; trivial_view).
  quiet.
Qed.

Lemma writes_poll_disconnected u e :
  connected e = false -> preserves last_fan_activation is_write (poll u e).
Proof.
  unfold connected. intros Hc s.
  cbv [poll connect bind emit ret raise state_of trace_of fst snd].
  destruct (e_connect e); [discriminate| |]; split; reflexivity.
Qed.

(** X1. The register writes of one iteration of [monitor_unit], in closed
    form: the iteration writes 100 to register 1000, once, when the unit is
    a 230xx unit, [connect] succeeded, the reads of the first part raised
    nothing, auto-control is on, the turbo temperature in force (read in
    this iteration, or else kept from an earlier one) is at or above the
    threshold and the cooldown has elapsed; in every other case it writes no
    register at all. *)
Theorem fan_command_decision u e s :
  writes (trace_of (iteration u e s))
  = if sends_fan_command u e s then [fan_write] else [].
Proof.
  unfold sends_fan_command.
  destruct (is_lfpc u) eqn:Hl; cbn [negb andb].
  { apply (iteration_preserves u e (writes_poll_lfpc u e Hl) s). }
  destruct (connected e) eqn:Hc; cbn [andb].
  2:{ apply (iteration_preserves u e (writes_poll_disconnected u e Hc) s). }
  assert (Hct : e_connect e = ConnectTrue)
    by (unfold connected in Hc; destruct (e_connect e); congruence).
  destruct (prime_monitoring_run u e s) as [Hres Hview].
  unfold control_view in Hview. injection Hview as Hturbo Hlast.
  destruct (first_part_completes u e); cbn [andb].
  - rewrite (Cycle.writes_iteration_prime u e s Hl Hct Hres).
    destruct (e_auto_control_active e) eqn:Hauto; cbn [andb].
    + destruct (turbo_after e s) as [v|] eqn:Hv.
      * rewrite (Cycle.auto_control_decision u e _ v Hauto Hturbo), Hlast. reflexivity.
      * rewrite (Cycle.auto_control_unbound u e _ Hauto Hturbo). reflexivity.
    + unfold auto_control, trigger. rewrite Hauto. reflexivity.
  - destruct Hres as [ex Hex].
    rewrite (Cycle.iteration_prime u e s Hl Hct). cbv zeta. rewrite Hex. run_simpl.
    rewrite Cycle.reset_displays_run, Cycle.close_client_run. run_simpl.
    unfold writes. cbn [List.filter is_write]. rewrite !List.filter_app.
    destruct (Cycle.writes_prime_monitoring u e s) as [_ ->].
    unfold unknown_displays. destruct (has_setpoint_value u), (e_close_raises e); reflexivity.
Qed.

(** X2. The turbo temperature a worker holds after an iteration: the value
    read in the iteration when the unit is a 230xx unit, [connect] succeeded
    and the read returned a register; in every other case the value it held
    before. No later failure of the iteration undoes or clears it. *)
Theorem turbo_temp_kept u e s :
  turbo_temp (state_of (iteration u e s))
  = if negb (is_lfpc u) && connected e then turbo_after e s else turbo_temp s.
Proof.
  assert (Hk : forall m : M unit,
             preserves turbo_temp (fun _ => false) m ->
             turbo_temp (state_of ((emit (EvNewClient (ip_address u)) ;;
                                    finally (try_except m (reset_displays u)) (close_client e)) s))
             = turbo_temp (state_of (m s))).
  { intros m Hm. rewrite bind_run. cbn [emit result_of state_of fst snd].
    rewrite finally_run. run_simpl.
    assert (Hc : preserves turbo_temp (fun _ => false) (close_client e))
      by (apply preserves_close_client; trivial_view).
    destruct (Hc (state_of (try_except m (reset_displays u) s))) as [-> _].
    rewrite try_except_run. destruct (result_of (m s)); run_simpl; [reflexivity|].
    assert (Hr : preserves turbo_temp (fun _ => false) (reset_displays u e0))
      by (apply preserves_reset_displays; trivial_view).
    apply Hr. }
  unfold iteration. destruct (is_lfpc u) eqn:Hl; cbn [negb andb].
  { assert (Hp : preserves turbo_temp (fun _ => false) (poll u e)).
    { unfold poll. rewrite Hl. cbn [negb].
      assert (Hm : preserves turbo_temp (fun _ => false) (lfpc_monitoring u e))
        by (apply preserves_lfpc_monitoring; trivial_view).
      assert (Hc : preserves turbo_temp (fun _ => false) (connect (S:=state) (e_connect e)))
        by (apply preserves_connect; trivial_view).
      quiet. }
    rewrite (Hk _ Hp). apply Hp. }
  destruct (connected e) eqn:Hc.
  2:{ assert (Hp : preserves turbo_temp (fun _ => false) (poll u e)).
      { unfold connected in Hc. intros x.
        cbv [poll connect bind emit ret raise state_of trace_of fst snd].
        destruct (e_connect e); [discriminate| |]; split; reflexivity. }
      rewrite (Hk _ Hp). apply Hp. }
  assert (Hct : e_connect e = ConnectTrue)
    by (unfold connected in Hc; destruct (e_connect e); congruence).
  fold (iteration u e). rewrite (Cycle.iteration_prime u e s Hl Hct). cbv zeta. run_simpl.
  destruct (prime_monitoring_run u e s) as [_ Hview].
  unfold control_view in Hview. injection Hview as Hturbo _.
  assert (Hcl : forall x, turbo_temp (state_of (close_client e x)) = turbo_temp x)
    by (intros x; rewrite Cycle.close_client_run; reflexivity).
  assert (Hrs : forall ex x, state_of (reset_displays u ex x) = x)
    by (intros ex x; rewrite Cycle.reset_displays_run; reflexivity).
  assert (Hps : forall x, turbo_temp (state_of (prime_status u e x)) = turbo_temp x).
  { intros x. unfold prime_status.
    assert (Ha : preserves turbo_temp (fun _ => false) (auto_control u e)).
    { pose proof (preserves_load_turbo_temp turbo_temp (fun _ => false)) as Hld.
      unfold auto_control, trigger, write_register, print. quiet. }
    assert (Hs : preserves turbo_temp (fun _ => false) (status_rest u e))
      by (apply preserves_status_rest; trivial_view).
    apply (preserves_bind turbo_temp (fun _ => false)); [exact Ha|intros _; exact Hs]. }
  rewrite Hcl.
  destruct (result_of (prime_monitoring u e s)); run_simpl.
  - destruct (result_of (prime_status u e _)); run_simpl; rewrite ?Hrs, Hps; exact Hturbo.
  - rewrite Hrs. exact Hturbo.
Qed.

End DecisionFacts.

(** ** Leaving the loop *)

Module LoopFacts.
Import Monitor Frame.

Lemma iteration_never_sleeps u e s :
  List.filter (fun ev => match ev with EvSleep _ => true | _ => false end)
    (trace_of (iteration u e s)) = [].
Proof.
  set (loud := fun ev => match ev with EvSleep _ => true | _ => false end).
  assert (Hp : preserves (fun _ : state => tt) loud (poll u e))
    by (apply preserves_poll; intros; reflexivity).
  assert (Hr : forall ex, preserves (fun _ : state => tt) loud (reset_displays u ex))
    by (intros ex; apply preserves_reset_displays; intros; reflexivity).
  assert (Hc : preserves (fun _ : state => tt) loud (close_client e))
    by (apply preserves_close_client; intros; reflexivity).
  unfold iteration.
  apply (preserves_bind (fun _ : state => tt) loud);
    [apply preserves_emit; reflexivity|intros _].
  apply preserves_finally; [|exact Hc]. apply preserves_try_except; assumption.
Qed.

(** X3. The worker honours the stop flag. If the flag reads false at the
    top of iteration [k] (in the [while] test or in the test that follows
    it), the worker makes no Modbus call in that iteration and runs no later
    one; if it reads false after the [finally] block of iteration [k], the
    worker leaves without sleeping and runs no later iteration. *)
Theorem stop_flag_honoured u envs : forall s k e,
  envs !! k = Some e ->
  (e_active_while e && e_active_top e = false ->
   (length (monitor_unit u envs s).1 <= S k)%nat /\
   forall tr, (monitor_unit u envs s).1 !! k = Some tr -> network tr = []) /\
  (e_active_end e = false ->
   (length (monitor_unit u envs s).1 <= S k)%nat /\
   forall tr, (monitor_unit u envs s).1 !! k = Some tr ->
     forall secs, ~ In (EvSleep secs) tr).
Proof.
  induction envs as [|e0 rest IH]; intros s k e Hk; [destruct k; discriminate|].
  destruct k as [|k].
  - injection Hk as ->. simpl. split.
    + intros Hflag. destruct (e_active_while e); cbn [negb];
        [|split; [simpl; lia|intros tr H; discriminate H]].
      cbn [andb] in Hflag. rewrite Hflag. cbn [negb].
      split; [simpl; lia|]. intros tr [= <-]. reflexivity.
    + intros Hend. destruct (e_active_while e); cbn [negb];
        [|split; [simpl; lia|intros tr H; discriminate H]].
      destruct (e_active_top e); cbn [negb].
      * rewrite Hend. cbn [negb]. split; [simpl; lia|].
        intros tr [= <-] secs Hin. apply in_app_or in Hin as [Hin|[Hin|[]]]; [|discriminate].
        pose proof (iteration_never_sleeps u e s) as Hq.
        assert (Hf : In (EvSleep secs)
                       (List.filter (fun ev => match ev with EvSleep _ => true | _ => false end)
                          (trace_of (iteration u e s))))
          by (apply List.filter_In; split; [exact Hin|reflexivity]).
        rewrite Hq in Hf. destruct Hf.
      * split; [simpl; lia|]. intros tr [= <-] secs [Hin|[]]. discriminate.
  - simpl in Hk. simpl.
    destruct (e_active_while e0); cbn [negb];
      [|split; intros _; (split; [simpl; lia|intros tr H; discriminate H])].
    destruct (e_active_top e0); cbn [negb];
      [|split; intros _; (split; [simpl; lia|intros tr H; discriminate H])].
    destruct (e_active_end e0); cbn [negb];
      [|split; intros _; (split; [simpl; lia|intros tr H; discriminate H])].
    destruct (IH (state_of (iteration u e0 s)) k e Hk) as [H1 H2]. cbn [fst].
    split.
    + intros Hflag. destruct (H1 Hflag) as [Hlen Hnet]. split; [simpl; lia|exact Hnet].
    + intros Hend. destruct (H2 Hend) as [Hlen Hns]. split; [simpl; lia|exact Hns].
Qed.

Lemma stop_flag_honoured_witness :
  let stop := {| e_active_while := true; e_active_top := false; e_active_end := true;
                 e_connect := ConnectTrue; e_close_raises := false;
                 e_plc := ReadOk [0]; e_gear := ReadOk [0]; e_gas_sub := ReadOk [0];
                 e_rpm := ReadOk [1500]; e_turbo := ReadOk [1051]; e_battery := ReadOk [80];
                 e_setting := ReadOk [60]; e_fan := WriteOk; e_control := ReadOk [0];
                 e_envolts := ReadOk [5]; e_pe_oil := ReadOk [0x4220; 0];
                 e_gb_oil := ReadOk [0x4220; 0]; e_gas_psi := ReadOk [120];
                 e_auto_control_active := true; e_turbo_temp_threshold := 1050;
                 e_maintenance_mode_active := false; e_master_maintenance_mode := false;
                 e_time := 102 |} in
  let envs := [Scenario.hot 100 WriteOk; stop; Scenario.hot 104 WriteOk] in
  (length (monitor_unit Scenario.prime_unit envs (initial ∅)).1 <= 2)%nat /\
  forall tr, (monitor_unit Scenario.prime_unit envs (initial ∅)).1 !! 1%nat = Some tr ->
             network tr = [].
Proof.
  intros stop envs.
  destruct (stop_flag_honoured Scenario.prime_unit envs (initial ∅) 1 stop eq_refl) as [H _].
  apply H. reflexivity.
Defined.

End LoopFacts.

(** ** The oil-rate alarm on raw registers *)

Module OilFacts.
Import Codec FloatCodec Oil Monitor.

(** Two 16-bit registers always decode. *)
Lemma decode_words hi lo :
  is_word hi -> is_word lo ->
  decodeFloat32BE hi lo = Some (float_of_bits32 (combined_value hi lo)).
Proof.
  intros Hhi Hlo. pose proof (combined_value_range hi lo Hhi Hlo) as Hw.
  unfold decodeFloat32BE. pose proof (unpack_pack_u32 _ Hw) as Hup.
  rewrite pack_u32_be_bytes in * by assumption.
  cbn [mbind option_bind] in *. unfold unpack_f32_be. rewrite Hup. reflexivity.
Qed.

Lemma below_34_bits w :
  0 <= w < 2 ^ 32 ->
  SFltb (float_of_bits32 w) float_34 =
    negb (((w / 2 ^ 23) mod 256 =? 255) && negb (w mod 2 ^ 23 =? 0))
    && ((2 ^ 31 <=? w) || (w <? 0x42080000)).
Proof.
  intros Hw. pose proof (fields_sum w Hw) as Hsum.
  unfold float_of_bits32. rewrite testbit_31, exponent_field, fraction_field by assumption.
  set (e := (w / 2 ^ 23) mod 256) in *.
  set (m := w mod 2 ^ 23) in *.
  assert (He : 0 <= e < 256) by (subst e; zdiv).
  assert (Hm : 0 <= m < 2 ^ 23) by (subst m; zdiv).
  unfold sign_bit in Hsum.
  destruct (Z.leb_spec (2 ^ 31) w) as [Hs|Hs]; cbn [orb].
  - (* negative: below 34 unless a NaN *)
    destruct (Z.eqb_spec e 0) as [He0|He0].
    + destruct (Z.eqb_spec e 255); [lia|]. destruct m; reflexivity.
    + destruct (Z.eqb_spec e 255) as [He1|He1]; cbn [andb negb]; [|reflexivity].
      destruct (m =? 0); reflexivity.
  - destruct (Z.eqb_spec e 0) as [He0|He0].
    + destruct (Z.eqb_spec e 255); [lia|]. cbn [andb negb].
      destruct (Z.ltb_spec w 0x42080000); [|lia]. destruct m; reflexivity.
    + destruct (Z.eqb_spec e 255) as [He1|He1]; cbn [andb negb].
      * destruct (Z.ltb_spec w 0x42080000); [lia|]. rewrite andb_false_r.
        destruct (m =? 0); reflexivity.
      * assert (Hp : Z.pos (Z.to_pos (m + 2 ^ 23)) = m + 2 ^ 23) by (apply Z2Pos.id; lia).
        unfold SFltb, SFcompare, float_34.
        destruct (Z.compare_spec (e - 150) (-18)) as [Heq|Hlt|Hgt].
        -- change (Pos.compare_cont Eq ?a ?b) with (Pos.compare a b).
           rewrite Pos2Z.inj_compare, Hp.
           destruct (Z.compare_spec (m + 2 ^ 23) 8912896);
             destruct (Z.ltb_spec w 0x42080000); try reflexivity; lia.
        -- destruct (Z.ltb_spec w 0x42080000); [reflexivity|lia].
        -- destruct (Z.ltb_spec w 0x42080000); [lia|reflexivity].
Qed.

(** X4. The oil-rate check on two 16-bit registers never raises, and it
    marks the unit red exactly when the pair is flagged by [oil_low]: the
    pattern is no NaN and has the sign bit set or is below [0x42080000]. A
    NaN reading is never flagged. *)
Theorem oil_rate_alarm hi lo rest s :
  is_word hi -> is_word lo ->
  check_oil_rate (Some (hi :: lo :: rest)) s
  = (Normal tt, (if oil_low hi lo then with_has_red_params true s else s), []).
Proof.
  intros Hhi Hlo. pose proof (combined_value_range hi lo Hhi Hlo) as Hw.
  assert (Hlow : SFltb (float_of_bits32 (combined_value hi lo)) float_34 = oil_low hi lo).
  { rewrite (below_34_bits _ Hw). unfold oil_low.
    rewrite (nan_pattern_fields hi lo Hhi Hlo). f_equal. f_equal.
    rewrite (combined_value_add hi lo Hlo).
    destruct (Z.leb_spec (2 ^ 31) (hi * 2 ^ 16 + lo)); destruct (Z.leb_spec (2 ^ 15) hi);
      try reflexivity; exfalso; zdiv. }
  cbv [check_oil_rate item nth_error bind ret raise].
  rewrite (decode_words hi lo Hhi Hlo), Hlow.
  destruct (oil_low hi lo); reflexivity.
Qed.

Lemma oil_rate_alarm_witness :
  check_oil_rate (Some [0x4207; 0xFFFF]) (initial ∅)
    = (Normal tt, with_has_red_params true (initial ∅), []) /\
  check_oil_rate (Some [0x4208; 0]) (initial ∅) = (Normal tt, initial ∅, []) /\
  check_oil_rate (Some [0x7FC0; 0]) (initial ∅) = (Normal tt, initial ∅, []).
Proof.
  split; [|split].
  - apply (oil_rate_alarm 0x4207 0xFFFF [] (initial ∅)); unfold is_word; lia.
  - apply (oil_rate_alarm 0x4208 0 [] (initial ∅)); unfold is_word; lia.
  - apply (oil_rate_alarm 0x7FC0 0 [] (initial ∅)); unfold is_word; lia.
Defined.

(** X5. With fewer than two registers in the response the oil-rate check
    raises [IndexError], and with registers whose combination does not fit
    32 bits it raises [struct.error]; in both cases nothing is marked. *)
Theorem oil_rate_check_errors regs s :
  ((length regs < 2)%nat -> check_oil_rate (Some regs) s = (Raised IndexError, s, [])) /\
  (forall hi lo rest,
     regs = hi :: lo :: rest ->
     ~ (0 <= combined_value hi lo < 2 ^ 32) ->
     check_oil_rate (Some regs) s = (Raised StructError, s, [])).
Proof.
  split.
  - intros Hlen. destruct regs as [|hi [|lo rest]]; [reflexivity|reflexivity|simpl in Hlen; lia].
  - intros hi lo rest -> Hout.
    cbv [check_oil_rate item nth_error bind ret raise decodeFloat32BE pack_u32_be].
    destruct (Z.leb_spec 0 (combined_value hi lo));
      destruct (Z.ltb_spec (combined_value hi lo) (2 ^ 32)); try reflexivity. lia.
Qed.

Lemma oil_rate_check_errors_witness :
  check_oil_rate (Some [0x4208]) (initial ∅) = (Raised IndexError, initial ∅, []) /\
  check_oil_rate (Some [0x10000; 0]) (initial ∅) = (Raised StructError, initial ∅, []).
Proof.
  destruct (oil_rate_check_errors [0x4208] (initial ∅)) as [H1 _].
  destruct (oil_rate_check_errors [0x10000; 0] (initial ∅)) as [_ H2].
  split; [apply H1; simpl; lia|].
  apply (H2 0x10000 0 []); [reflexivity|]. vm_compute. intros [_ H]. discriminate H.
Defined.

End OilFacts.

(** ** Accounts *)

Module UsersFacts.
Import Users.

Section Hash.
Variable hash : string -> string.

Lemma admin_count_delete (m : gmap string user) k x :
  m !! k = Some x ->
  admin_count m = ((if is_active_admin x then 1 else 0) + admin_count (delete k m))%nat.
Proof.
  intros Hk. unfold admin_count.
  rewrite <- (map_to_list_delete m k x Hk). rewrite fmap_cons. cbn [snd].
  rewrite filter_cons. destruct (decide (is_active_admin x = true)) as [->|Hn].
  - reflexivity.
  - destruct (is_active_admin x); [congruence|reflexivity].
Qed.

(** X6. A login succeeds exactly for an existing account that is active
    and whose stored hash is the hash of the password given. It then makes
    that account the current user with its role. A failed login changes
    nothing: whoever was logged in before remains logged in. *)
Theorem authenticate_user_spec username password st :
  ((authenticate_user hash username password st).1 <> None <->
   exists u, users st !! username = Some u /\ is_active u = true
             /\ hash password = password_hash u) /\
  ((authenticate_user hash username password st).1 = None ->
   (authenticate_user hash username password st).2 = st) /\
  (forall r, (authenticate_user hash username password st).1 = Some r ->
     exists u, users st !! username = Some u /\ role u = r /\
     (authenticate_user hash username password st).2
       = {| users := users st; current_user := Some username;
            current_user_role := Some r |}).
Proof.
  unfold authenticate_user, verify_password.
  destruct (users st !! username) as [u|] eqn:Hu.
  - destruct (is_active u) eqn:Ha; cbn [andb].
    + destruct (String.eqb_spec (hash password) (password_hash u)) as [Hh|Hh]; cbn [fst snd].
      * split; [|split].
        -- split; [intros _; exists u; auto | discriminate].
        -- discriminate.
        -- intros r [= <-]. exists u. auto.
      * split; [|split].
        -- split; [congruence | intros (u' & [= <-] & _ & Hh'); contradiction].
        -- reflexivity.
        -- discriminate.
    + cbn [fst snd]. split; [|split].
      * split; [congruence | intros (u' & [= <-] & Ha' & _); congruence].
      * reflexivity.
      * discriminate.
  - cbn [fst snd]. split; [|split].
    + split; [congruence | intros (u' & Hu' & _); discriminate].
    + reflexivity.
    + discriminate.
Qed.

(** What an accepted call of [create_user] does: the account is added with
    the hash of the password, whether or not saving succeeds. *)
Lemma create_user_accepted username password role_ by_admin today save_ok st :
  users st !! username = None ->
  role_ = "admin"%string \/ role_ = "tech"%string ->
  by_admin = true \/ is_admin_session st = true ->
  (create_user hash username password role_ by_admin today save_ok st).1.1 = save_ok /\
  (create_user hash username password role_ by_admin today save_ok st).2
  = with_users (<[username := {| password_hash := hash password; role := role_;
                                 active := Some true; created_date := today |}]>
                  (users st)) st.
Proof.
  intros Hfree Hrole Hperm. unfold create_user.
  assert (Hp : negb by_admin && negb (is_admin_session st) = false)
    by (destruct Hperm as [-> | ->]; [reflexivity|apply andb_false_r]).
  rewrite Hp. rewrite bool_decide_eq_false_2 by (rewrite Hfree; intros [? ?]; discriminate).
  assert (Hr : negb (String.eqb role_ "admin" || String.eqb role_ "tech") = false)
    by (destruct Hrole as [-> | ->]; reflexivity).
  rewrite Hr. destruct save_ok; cbn [fst snd]; split; reflexivity.
Qed.

Lemma login_of_new_account username password role_ today st :
  (authenticate_user hash username password
     (with_users (<[username := {| password_hash := hash password; role := role_;
                                   active := Some true; created_date := today |}]>
                    (users st)) st)).1 = Some role_.
Proof.
  unfold authenticate_user, verify_password. cbn [users with_users].
  rewrite lookup_insert_eq. cbn [is_active active default password_hash andb role].
  rewrite String.eqb_refl. reflexivity.
Qed.

(** X7. An account that [create_user] may create (the name is free, the
    role is "admin" or "tech", and the call comes from an administrator) can
    log in with its password and gets its role, also when saving the
    configuration failed: [create_user] then reports failure, but the
    account is in [self.users] all the same. *)
Theorem created_user_can_log_in username password role_ by_admin today save_ok st :
  users st !! username = None ->
  role_ = "admin"%string \/ role_ = "tech"%string ->
  by_admin = true \/ is_admin_session st = true ->
  (create_user hash username password role_ by_admin today save_ok st).1.1 = save_ok /\
  (authenticate_user hash username password
     (create_user hash username password role_ by_admin today save_ok st).2).1
  = Some role_.
Proof.
  intros Hfree Hrole Hperm.
  destruct (create_user_accepted username password role_ by_admin today save_ok st
              Hfree Hrole Hperm) as [Hres Hst].
  split; [exact Hres|]. rewrite Hst. apply login_of_new_account.
Qed.

(** X8. [create_user] never touches an account that exists: whatever its
    arguments, every account there before is there afterwards with the same
    hash, role and state, and the session is the same. *)
Theorem create_user_keeps_accounts username password role_ by_admin today save_ok st :
  (forall name u, users st !! name = Some u ->
     users (create_user hash username password role_ by_admin today save_ok st).2 !! name
     = Some u) /\
  current_user (create_user hash username password role_ by_admin today save_ok st).2
    = current_user st /\
  current_user_role (create_user hash username password role_ by_admin today save_ok st).2
    = current_user_role st.
Proof.
  unfold create_user.
  destruct (negb by_admin && negb (is_admin_session st)); [auto|].
  case_bool_decide as Hex; [auto|].
  destruct (negb _); [auto|].
  assert (Hkeep : forall name u, users st !! name = Some u ->
                     <[username := {| password_hash := hash password; role := role_;
                                      active := Some true; created_date := today |}]>
                       (users st) !! name = Some u).
  { intros name u Hu. destruct (decide (username = name)) as [->|Hne].
    - exfalso. apply Hex. rewrite Hu. eauto.
    - rewrite lookup_insert_ne by assumption. exact Hu. }
  destruct save_ok; cbn [snd users with_users current_user current_user_role]; auto.
Qed.

(** X9. [delete_user] never removes the last active administrator: when
    there is an active administrator before the call there is one after
    it. *)
Theorem delete_user_keeps_admin username save_ok st :
  (1 <= admin_count (users st))%nat ->
  (1 <= admin_count (users (delete_user username save_ok st).2))%nat.
Proof.
  intros Hone. unfold delete_user.
  destruct (negb (is_admin_session st)); [exact Hone|].
  case_bool_decide; [exact Hone|].
  destruct (users st !! username) as [target|] eqn:Ht; [|exact Hone].
  pose proof (admin_count_delete (users st) username target Ht) as Hc.
  destruct (String.eqb (role target) "admin") eqn:Hr; cbn [andb].
  - destruct (Nat.leb_spec (admin_count (users st)) 1) as [Hle|Hgt]; [exact Hone|].
    assert (Hafter : (1 <= admin_count (delete username (users st)))%nat)
      by (destruct (is_active_admin target); lia).
    destruct save_ok; exact Hafter.
  - assert (Hn : is_active_admin target = false)
      by (unfold is_active_admin; rewrite Hr; reflexivity).
    rewrite Hn in Hc.
    assert (Hafter : (1 <= admin_count (delete username (users st)))%nat) by lia.
    destruct save_ok; exact Hafter.
Qed.

(** X10. [delete_user] removes at most the account named, and only when
    the caller is an administrator who is not that account; the other
    accounts and the session stay as they are. *)
Theorem delete_user_frame username save_ok st :
  (delete_user username save_ok st).2 = st \/
  (is_admin_session st = true /\ current_user st <> Some username /\
   (delete_user username save_ok st).2 = with_users (delete username (users st)) st).
Proof.
  unfold delete_user.
  destruct (is_admin_session st); cbn [negb]; [|left; reflexivity].
  case_bool_decide as Hcur; [left; reflexivity|].
  destruct (users st !! username) as [target|]; [|left; reflexivity].
  destruct (_ && _); [left; reflexivity|].
  right. destruct save_ok; auto.
Qed.

(** X11. For an existing account, [update_user_password] acts when the
    caller is that account or an administrator: the account then logs in
    with the new password (if it is active) and no other account changes,
    also when saving failed. Any other caller leaves everything as it
    was. *)
Theorem update_user_password_effect username new_password save_ok st u :
  users st !! username = Some u ->
  if bool_decide (current_user st = Some username) || is_admin_session st then
    (authenticate_user hash username new_password
       (update_user_password hash username new_password save_ok st).2).1
    = (if is_active u then Some (role u) else None) /\
    (forall other, other <> username ->
       users (update_user_password hash username new_password save_ok st).2 !! other
       = users st !! other)
  else (update_user_password hash username new_password save_ok st).2 = st.
Proof.
  intros Hu.
  assert (Hnew : forall x,
            (authenticate_user hash username new_password
               (with_users (<[username := {| password_hash := hash new_password;
                                             role := role u; active := active u;
                                             created_date := created_date u |}]>
                              (users st)) x)).1
            = (if is_active u then Some (role u) else None)).
  { intros x. unfold authenticate_user, verify_password. cbn [users with_users].
    rewrite lookup_insert_eq. unfold is_active. cbn [active password_hash role].
    rewrite String.eqb_refl. destruct (default true (active u)); reflexivity. }
  assert (Hother : forall x other, other <> username ->
            users (with_users (<[username := {| password_hash := hash new_password;
                                                 role := role u; active := active u;
                                                 created_date := created_date u |}]>
                                  (users st)) x) !! other = users st !! other).
  { intros x other Hne. cbn [users with_users]. apply lookup_insert_ne. congruence. }
  unfold update_user_password. rewrite Hu.
  destruct (bool_decide (current_user st = Some username)); cbn [negb andb orb].
  - destruct save_ok; cbn [snd]; split; auto.
  - destruct (is_admin_session st); cbn [negb].
    + destruct save_ok; cbn [snd]; split; auto.
    + reflexivity.
Qed.


End Hash.

Lemma created_user_can_log_in_witness :
  let st := {| users := ∅; current_user := None; current_user_role := None |} in
  (create_user (String.append "sha256:") "operator" "secret" "tech" true "2025-01-01" false st).1.1
    = false /\
  (authenticate_user (String.append "sha256:") "operator" "secret"
     (create_user (String.append "sha256:") "operator" "secret" "tech" true "2025-01-01"
        false st).2).1 = Some "tech"%string.
Proof.
  intros st.
  apply (created_user_can_log_in (String.append "sha256:")
           "operator" "secret" "tech" true "2025-01-01" false st);
    [reflexivity | right; reflexivity | left; reflexivity].
Defined.

Lemma update_user_password_effect_witness :
  let tech := {| password_hash := "sha256:old"; role := "tech"; active := Some true;
                 created_date := "2025-01-01" |} in
  let st := {| users := <["operator" := tech]> ∅; current_user := Some "operator"%string;
               current_user_role := Some "tech"%string |} in
  (authenticate_user (String.append "sha256:") "operator" "new"
     (update_user_password (String.append "sha256:") "operator" "new" false st).2).1
  = Some "tech"%string.
Proof.
  intros tech st.
  pose proof (update_user_password_effect (String.append "sha256:") "operator" "new" false
                st tech eq_refl) as H.
  cbn [bool_decide orb] in H.
  change (bool_decide (current_user st = Some "operator"%string)) with true in H.
  cbn [orb] in H. destruct H as [H _]. exact H.
Defined.

Lemma delete_user_keeps_admin_witness :
  let admin := {| password_hash := "h"; role := "admin"; active := None;
                  created_date := "2025-01-01" |} in
  let st := {| users := <["admin" := admin]> (<["spare" := admin]> ∅);
               current_user := Some "spare"%string;
               current_user_role := Some "admin"%string |} in
  (1 <= admin_count (users (delete_user "admin" true st).2))%nat /\
  (1 <= admin_count (users (delete_user "admin" true (delete_user "admin" true st).2).2))%nat
  /\ users (delete_user "admin" true st).2 !! "admin"%string = None.
Proof.
  intros admin st.
  assert (H0 : (1 <= admin_count (users st))%nat) by (vm_compute; lia).
  pose proof (delete_user_keeps_admin "admin" true st H0) as H1.
  pose proof (delete_user_keeps_admin "admin" true _ H1) as H2.
  split; [exact H1|]. split; [exact H2|]. vm_compute. reflexivity.
Defined.

End UsersFacts.

(** ** Starting, stopping and leaving the monitor page *)

Module AppFacts.
Import Supervisor App.

Lemma stop_result now a :
  monitoring_active (supervisor_of (stop now a).1.1) = false /\
  auto_control_active (stop now a).1.1 = auto_control_active a /\
  (monitoring_active (supervisor_of a) = true ->
   monitor_threads (supervisor_of (stop now a).1.1) = []) /\
  (monitoring_active (supervisor_of a) = false ->
   (stop now a).1.1 = a /\ (stop now a).2 = []).
Proof.
  unfold stop, stop_monitoring. destruct a as [[act ths] auto]. cbn [supervisor_of].
  cbn [monitoring_active monitor_threads]. destruct act; cbn; repeat split; congruence.
Qed.

Lemma tracked_start units ends a :
  tracked units a -> tracked units (start_monitoring units ends a).
Proof.
  unfold tracked, start_monitoring. intros Ha.
  destruct (monitoring_active (supervisor_of a)) eqn:Hact.
  - rewrite Hact. exact Ha.
  - cbn [supervisor_of monitoring_active monitor_threads]. rewrite Ha.
    cbn [List.app]. apply length_map.
Qed.

Lemma tracked_step units ends op a :
  tracked units a -> tracked units (apply_operation units ends op a).
Proof.
  intros Ha. destruct op as [|now| |now]; cbn [apply_operation].
  - apply tracked_start, Ha.
  - destruct (stop_result now a) as (Hoff & _ & Hclear & Hsame). unfold tracked in *.
    rewrite Hoff.
    destruct (monitoring_active (supervisor_of a)) eqn:Hact; [auto|].
    destruct (Hsame eq_refl) as [-> _]. exact Ha.
  - unfold toggle_auto_control. cbn [auto_control_active supervisor_of].
    destruct (negb (auto_control_active a)).
    + destruct (monitoring_active (supervisor_of a)) eqn:Hact; cbn [negb].
      * unfold tracked in *. cbn [supervisor_of]. rewrite Hact in *. exact Ha.
      * apply tracked_start. unfold tracked in *. cbn [supervisor_of].
        rewrite Hact in *. exact Ha.
    + unfold tracked in *. cbn [supervisor_of]. exact Ha.
  - unfold tracked, back_to_main. cbn [supervisor_of auto_control_active fst snd].
    destruct (monitoring_active (supervisor_of a)) eqn:Hact.
    + set (a1 := {| supervisor_of := supervisor_of a; auto_control_active := false |}).
      destruct (stop_result now a1) as (Hoff & _ & _ & _).
      cbn [fst snd supervisor_of monitoring_active]. rewrite Hoff.
      cbn [fst snd supervisor_of monitoring_active monitor_threads]. reflexivity.
    + cbn [fst snd supervisor_of monitoring_active]. rewrite Hact.
      cbn [fst snd supervisor_of monitoring_active monitor_threads]. reflexivity.
Qed.

Ltac no_warning H :=
  repeat match type of H with
    | In _ (_ ++ _) => apply in_app_or in H; destruct H as [H|H]
    | In _ (_ :: _) => destruct H as [H|H]; [discriminate|]
    | In _ [] => destruct H
    | In _ (map _ _) => apply in_map_iff in H; destruct H as (? & ? & _); discriminate
    | In _ (if ?b then _ else _) => destruct b
    end.

(** X13. Whatever the operator does, in any order (start, stop, toggle
    auto-control, back to the main page), the thread list is empty while
    monitoring is off and holds exactly one thread per unit while it is on:
    no operation starts a second tracked worker for a unit. *)
Theorem one_thread_per_unit units ends ops :
  let a := run_operations units ends ops initial_app in
  if monitoring_active (supervisor_of a)
  then length (monitor_threads (supervisor_of a)) = length units
  else monitor_threads (supervisor_of a) = [].
Proof.
  cbv zeta. change (tracked units (run_operations units ends ops initial_app)).
  unfold run_operations.
  assert (H0 : tracked units initial_app) by reflexivity.
  revert H0. generalize initial_app.
  induction ops as [|op ops IH]; intros a Ha; [exact Ha|].
  cbn [fold_left]. apply IH, tracked_step, Ha.
Qed.

(** X14. Toggling the auto-control flips the flag; switching it on starts
    the monitoring when it is not running (one more thread per unit), and
    switching it off never stops the monitoring nor touches the threads. *)
Theorem toggle_auto_control_effect units ends a :
  let a' := toggle_auto_control units ends a in
  auto_control_active a' = negb (auto_control_active a) /\
  monitoring_active (supervisor_of a')
  = monitoring_active (supervisor_of a) || negb (auto_control_active a) /\
  if monitoring_active (supervisor_of a) || auto_control_active a
  then supervisor_of a' = supervisor_of a
  else length (monitor_threads (supervisor_of a'))
       = (length (monitor_threads (supervisor_of a)) + length units)%nat.
Proof.
  cbv zeta. unfold toggle_auto_control. cbn [auto_control_active supervisor_of].
  destruct (auto_control_active a); cbn [negb].
  - rewrite !orb_true_r, orb_false_r. auto.
  - destruct (monitoring_active (supervisor_of a)) eqn:Hact; cbn [negb orb].
    + cbn [auto_control_active supervisor_of]. auto.
    + unfold start_monitoring. cbn [supervisor_of]. rewrite Hact.
      cbn [auto_control_active supervisor_of monitoring_active monitor_threads].
      rewrite length_app, length_map. auto.
Qed.

(** X15. Leaving the monitor page: [back_to_main] ends with monitoring off,
    auto-control off and no thread tracked, and its "threads still active
    during navigation" warning is never printed, whatever the threads do
    (stop_monitoring has emptied the list before it is counted). *)
Theorem back_to_main_result now a :
  let r := back_to_main now a in
  monitoring_active (supervisor_of r.1.1) = false /\
  auto_control_active r.1.1 = false /\
  monitor_threads (supervisor_of r.1.1) = [] /\
  forall n, ~ In (Navigation (NavStillActive n)) r.2.
Proof.
  cbv zeta. unfold back_to_main. cbn [supervisor_of auto_control_active].
  destruct (monitoring_active (supervisor_of a)) eqn:Hact.
  - set (a1 := {| supervisor_of := supervisor_of a; auto_control_active := false |}).
    destruct (stop_result now a1) as (Hoff & Hauto & Hclear & _).
    specialize (Hclear Hact).
    cbn [fst snd supervisor_of monitoring_active monitor_threads auto_control_active].
    rewrite Hoff, Hclear, Hauto.
    cbn [fst snd supervisor_of monitoring_active monitor_threads auto_control_active
         active_count List.filter length Nat.ltb Nat.leb].
    repeat split.
    intros n Hin. unfold stop in Hin. cbn [snd] in Hin. no_warning Hin.
  - cbn [fst snd supervisor_of monitoring_active monitor_threads auto_control_active].
    rewrite Hact.
    cbn [fst snd supervisor_of monitoring_active monitor_threads auto_control_active].
    repeat split.
    intros n Hin. no_warning Hin.
Qed.

End AppFacts.

(** ** [str] and [int] *)

Module PyFormatFacts.
Import PyStr PyFormat.

Local Abbreviation chars d := (list_ascii_of_string (NilEmpty.string_of_uint d)).

Lemma chars_digits d : forallb is_digit (chars d) = true.
Proof. induction d; cbn [NilEmpty.string_of_uint list_ascii_of_string forallb]; auto. Qed.

Lemma digits_acc d a :
  digits (Zpos a) true (chars d) = Some (Zpos (Pos.of_uint_acc d a)).
Proof.
  revert a. induction d; intros a;
    cbn [NilEmpty.string_of_uint list_ascii_of_string digits Pos.of_uint_acc];
    try reflexivity;
    match goal with
    | |- context [Ascii.eqb ?c "_"] =>
        change (Ascii.eqb c "_") with false; change (is_digit c) with true; cbv iota
    end;
    match goal with
    | |- context [digit_value ?c] =>
        let v := eval vm_compute in (digit_value c) in change (digit_value c) with v
    end;
    match goal with
    | |- digits ?x true _ = Some (Zpos (Pos.of_uint_acc _ ?p)) =>
        replace x with (Zpos p) by lia
    end; apply IHd.
Qed.

Lemma digits_uint d :
  digits 0 true (chars d) = Some (Z.of_N (Pos.of_uint d)).
Proof.
  induction d;
    cbn [NilEmpty.string_of_uint list_ascii_of_string digits Pos.of_uint];
    try reflexivity;
    match goal with
    | |- context [Ascii.eqb ?c "_"] =>
        change (Ascii.eqb c "_") with false; change (is_digit c) with true; cbv iota
    end;
    [exact IHd | ..];
    match goal with
    | |- digits ?x true _ = Some (Z.of_N (N.pos (Pos.of_uint_acc _ ?p))) =>
        change x with (Zpos p)
    end; apply digits_acc.
Qed.

Lemma digits_start d :
  d <> Decimal.Nil -> digits 0 false (chars d) = digits 0 true (chars d).
Proof. destruct d; intros Hd; [congruence | reflexivity ..]. Qed.

Lemma lstrip_id l : forallb (fun c => negb (isspace c)) l = true -> lstrip l = l.
Proof.
  destruct l as [|c l]; [reflexivity|]. cbn [forallb lstrip].
  intros [Hc _]%andb_prop. apply negb_true_iff in Hc. rewrite Hc. reflexivity.
Qed.

Lemma strip_chars_id l :
  forallb (fun c => negb (isspace c)) l = true -> strip_chars l = l.
Proof.
  intros Hl. unfold strip_chars. rewrite (lstrip_id l Hl), lstrip_id, rev_involutive; auto.
  rewrite forallb_forall in *. intros c Hc%in_rev. auto.
Qed.

Lemma digit_not_space c : is_digit c = true -> negb (isspace c) = true.
Proof.
  unfold is_digit, isspace. generalize (nat_of_ascii c). intros n Hn.
  apply andb_prop in Hn as [H1%Nat.leb_le H2%Nat.leb_le]. apply negb_true_iff.
  repeat (apply orb_false_iff; split); try apply andb_false_iff.
  - right. apply Nat.leb_gt. lia.
  - right. apply Nat.leb_gt. lia.
  - apply Nat.eqb_neq. lia.
Qed.

Lemma chars_no_space d : forallb (fun c => negb (isspace c)) (chars d) = true.
Proof.
  pose proof (chars_digits d) as H. rewrite forallb_forall in *.
  intros c Hc. apply digit_not_space, H, Hc.
Qed.

Lemma str_nonneg_chars n :
  0 <= n ->
  exists d, d <> Decimal.Nil /\ Z.of_N (Pos.of_uint d) = n /\
            list_ascii_of_string (str n) = chars d.
Proof.
  intros Hn. unfold str. destruct n as [|p|p]; [| |lia].
  - exists (Decimal.D0 Decimal.Nil). repeat split; congruence.
  - exists (Pos.to_uint p). pose proof (Unsigned.to_uint_nonnil p) as Hnil.
    repeat split; [exact Hnil | rewrite Unsigned.of_to; reflexivity |].
    cbn [Z.to_int NilZero.string_of_int]. unfold NilZero.string_of_uint.
    destruct (Pos.to_uint p); congruence.
Qed.

Lemma int_digit_chars l :
  l <> [] -> forallb is_digit l = true ->
  int (string_of_list_ascii l) = digits 0 false l.
Proof.
  intros Hl Hd. unfold int. rewrite list_ascii_of_string_of_list_ascii.
  rewrite strip_chars_id.
  2:{ rewrite forallb_forall in *. intros c Hc. apply digit_not_space, Hd, Hc. }
  destruct l as [|c l]; [congruence|]. cbn [forallb] in Hd.
  apply andb_prop in Hd as [Hc _].
  destruct c as [[] [] [] [] [] [] [] []]; try discriminate Hc; reflexivity.
Qed.

Lemma chars_nonempty d : d <> Decimal.Nil -> chars d <> [].
Proof. destruct d; cbn; congruence. Qed.

Lemma int_str_nonneg n : 0 <= n -> int (str n) = Some n.
Proof.
  intros Hn. destruct (str_nonneg_chars n Hn) as (d & Hd & Hv & Hc).
  rewrite <- (string_of_list_ascii_of_string (str n)), Hc.
  rewrite int_digit_chars by (auto using chars_nonempty, chars_digits).
  rewrite digits_start, digits_uint, Hv by exact Hd. reflexivity.
Qed.

(** [int(str(n)) == n] for every integer [n]: the decimal text Python
    prints for an integer is read back as that integer. *)
Lemma int_str n : int (str n) = Some n.
Proof.
  destruct (Z_le_gt_dec 0 n) as [Hn|Hn]; [apply int_str_nonneg, Hn|].
  destruct n as [|p|p]; try lia. unfold str, int.
  cbn [Z.to_int NilZero.string_of_int list_ascii_of_string].
  pose proof (Unsigned.to_uint_nonnil p) as Hnil.
  assert (Hs : NilZero.string_of_uint (Pos.to_uint p)
               = NilEmpty.string_of_uint (Pos.to_uint p)).
  { unfold NilZero.string_of_uint. destruct (Pos.to_uint p); congruence. }
  rewrite Hs, strip_chars_id.
  2:{ cbn [forallb]. rewrite chars_no_space. reflexivity. }
  rewrite digits_start, digits_uint, Unsigned.of_to by exact Hnil. reflexivity.
Qed.

Lemma isdigit_str n : 0 <= n -> isdigit (str n) = true.
Proof.
  intros Hn. destruct (str_nonneg_chars n Hn) as (d & Hd & _ & Hc).
  unfold isdigit. rewrite Hc. pose proof (chars_digits d).
  destruct (chars d) eqn:E; [|assumption]. exfalso. revert E. apply chars_nonempty, Hd.
Qed.

Lemma strip_str n : strip (str n) = str n.
Proof.
  unfold strip. rewrite strip_chars_id; [apply string_of_list_ascii_of_string|].
  destruct n as [|p|p]; try reflexivity; unfold str;
    cbn [Z.to_int NilZero.string_of_int list_ascii_of_string];
    pose proof (Unsigned.to_uint_nonnil p) as Hnil;
    assert (Hs : NilZero.string_of_uint (Pos.to_uint p)
                 = NilEmpty.string_of_uint (Pos.to_uint p))
      by (unfold NilZero.string_of_uint; destruct (Pos.to_uint p); congruence);
    rewrite Hs; cbn [forallb]; rewrite chars_no_space; reflexivity.
Qed.

(** An accepted digit text has a value, and it is not negative. *)
Lemma isdigit_int s :
  isdigit s = true -> exists v, int s = Some v /\ 0 <= v.
Proof.
  unfold isdigit. intros Hs.
  assert (Hl : list_ascii_of_string s <> [] /\
               forallb is_digit (list_ascii_of_string s) = true).
  { destruct (list_ascii_of_string s); [discriminate|]. split; [congruence|exact Hs]. }
  destruct Hl as [Hne Hd].
  rewrite <- (string_of_list_ascii_of_string s), int_digit_chars by assumption.
  clear Hs. revert Hne Hd. generalize (list_ascii_of_string s). intros l Hne Hd.
  assert (Hgen : forall l acc, 0 <= acc -> forallb is_digit l = true ->
                   exists v, digits acc true l = Some v /\ 0 <= v).
  { clear. induction l as [|c l IH]; intros acc Hacc Hd; cbn [digits].
    - eauto.
    - cbn [forallb] in Hd. apply andb_prop in Hd as [Hc Hd].
      assert (Hu : Ascii.eqb c "_" = false).
      { destruct (Ascii.eqb_spec c "_") as [->|]; [discriminate Hc|reflexivity]. }
      rewrite Hu, Hc. apply IH; [|exact Hd].
      unfold is_digit in Hc. unfold digit_value.
      apply andb_prop in Hc as [H1%Nat.leb_le _]. lia. }
  destruct l as [|c l]; [congruence|]. cbn [digits]. cbn [forallb] in Hd.
  apply andb_prop in Hd as [Hc Hd].
  assert (Hu : Ascii.eqb c "_" = false).
  { destruct (Ascii.eqb_spec c "_") as [->|]; [discriminate Hc|reflexivity]. }
  rewrite Hu, Hc. apply Hgen; [|exact Hd].
  unfold is_digit in Hc. unfold digit_value.
  apply andb_prop in Hc as [H1%Nat.leb_le _]. lia.
Qed.

End PyFormatFacts.

(** ** The scan range *)

Module IpConfigFacts.
Import IpConfig.

Lemma read_octets_ok which entries : forall i acc l,
  read_octets which i entries acc = inl l ->
  exists vs, l = acc ++ vs /\ length vs = length entries /\ Forall octet vs.
Proof.
  induction entries as [|entry rest IH]; intros i acc l; cbn [read_octets].
  - intros [= <-]. exists []. rewrite app_nil_r. auto.
  - destruct (_ || _); [discriminate|].
    destruct (PyStr.int _) as [value|]; [|discriminate].
    destruct (negb _) eqn:Hrange; [discriminate|].
    intros (vs & -> & Hlen & Hvs)%IH. exists (value :: vs).
    rewrite <- app_assoc. cbn [List.app length]. repeat split; [congruence|].
    constructor; [|exact Hvs]. apply negb_false_iff, andb_prop in Hrange.
    unfold octet. lia.
Qed.

Lemma read_octets_displayed which vs : forall i acc,
  Forall octet vs ->
  read_octets which i (PyFormat.str <$> vs) acc = inl (acc ++ vs).
Proof.
  induction vs as [|v vs IH]; intros i acc Hvs; cbn [fmap list_fmap read_octets].
  - rewrite app_nil_r. reflexivity.
  - inversion Hvs as [|? ? Hv Hvs']; subst. unfold octet in Hv.
    rewrite PyFormatFacts.strip_str, PyFormatFacts.isdigit_str by lia.
    rewrite PyFormatFacts.int_str.
    assert (Hne : String.eqb (PyFormat.str v) EmptyString = false).
    { apply String.eqb_neq. intros He.
      pose proof (PyFormatFacts.isdigit_str v ltac:(lia)) as Hd.
      rewrite He in Hd. discriminate Hd. }
    rewrite Hne. cbn [orb negb].
    replace ((0 <=? v) && (v <=? 255)) with true by lia. cbn [negb].
    fold (list_fmap _ _ PyFormat.str vs). change (list_fmap _ _ PyFormat.str vs)
      with (PyFormat.str <$> vs).
    rewrite IH by exact Hvs'. rewrite <- app_assoc. reflexivity.
Qed.

Lemma four_octets l :
  length l = 4%nat -> Forall octet l ->
  exists a b c d, l = [a; b; c; d] /\
    0 <= a <= 255 /\ 0 <= b <= 255 /\ 0 <= c <= 255 /\ 0 <= d <= 255.
Proof.
  destruct l as [|a [|b [|c [|d [|]]]]]; try discriminate. intros _ H.
  repeat match goal with H : Forall _ (_ :: _) |- _ => inversion H; clear H; subst end.
  unfold octet in *. eauto 10.
Qed.

Lemma ip_int_four a b c d :
  ip_int [a; b; c; d] = Some (a * 2 ^ 24 + b * 2 ^ 16 + c * 2 ^ 8 + d).
Proof. unfold ip_int. cbn. rewrite !Z.shiftl_mul_pow2 by lia. reflexivity. Qed.

(** The comparison of the two sums is the order of the addresses. *)
Lemma address_le_ip_int s e si ei :
  length s = 4%nat -> length e = 4%nat -> Forall octet s -> Forall octet e ->
  ip_int s = Some si -> ip_int e = Some ei ->
  (si <= ei <-> address_le s e).
Proof.
  intros Hls Hle Hs He.
  destruct (four_octets s Hls Hs) as (a & b & c & d & -> & ?).
  destruct (four_octets e Hle He) as (a' & b' & c' & d' & -> & ?).
  rewrite !ip_int_four. intros [= <-] [= <-]. cbn [address_le]. lia.
Qed.

(** X16. With the four start and four end entries of the configuration
    page, [save_ip_config] keeps the stored range well formed (four octets
    each within 0..255, start not above end), whatever is typed and whether
    or not the file can be written; and every rejection by one of the
    validation messages leaves the stored range as it was. *)
Theorem save_ip_config_well_formed start_entries end_entries write_ok cfg :
  length start_entries = 4%nat -> length end_entries = 4%nat ->
  well_formed cfg ->
  let r := save_ip_config start_entries end_entries write_ok cfg in
  well_formed r.1 /\
  (r.2 <> Saved -> r.2 <> SaveFailed -> r.1 = cfg).
Proof.
  intros Hs He Hcfg. cbv zeta. unfold save_ip_config.
  destruct (read_octets StartIp 0 start_entries []) as [start_ip|err] eqn:Hrs;
    [|cbn; auto].
  destruct (read_octets EndIp 0 end_entries []) as [end_ip|err] eqn:Hre;
    [|cbn; auto].
  apply read_octets_ok in Hrs as (vs & -> & Hlvs & Hvs).
  apply read_octets_ok in Hre as (ve & -> & Hlve & Hve).
  cbn [List.app]. rewrite Hs in Hlvs. rewrite He in Hlve.
  destruct (ip_int vs) as [si|] eqn:Hsi; [|cbn; auto].
  destruct (ip_int ve) as [ei|] eqn:Hei; [|cbn; auto].
  destruct (ei <? si) eqn:Hcmp; [cbn; auto|].
  assert (Hwf : well_formed {| ip_start := vs; ip_end := ve |}).
  { unfold well_formed. cbn [ip_start ip_end]. repeat split; auto.
    apply (address_le_ip_int vs ve si ei); auto. lia. }
  destruct write_ok; cbn [fst snd]; split; auto; congruence.
Qed.

(** X17. Saving the page as it is displayed is accepted and stores the
    range that was displayed: the entries are filled with [str] of the
    stored octets, and for a well-formed range these texts pass every check
    of [save_ip_config] and are read back as the same octets. *)
Theorem save_displayed_range cfg start_entries end_entries current :
  well_formed cfg ->
  displayed (ip_start cfg) = Some start_entries ->
  displayed (ip_end cfg) = Some end_entries ->
  save_ip_config start_entries end_entries true current = (cfg, Saved).
Proof.
  intros (Hls & Hle & Hs & He & Hord) Hds Hde. destruct cfg as [s e].
  cbn [ip_start ip_end] in *.
  destruct (four_octets s Hls Hs) as (a & b & c & d & -> & ?).
  destruct (four_octets e Hle He) as (a' & b' & c' & d' & -> & ?).
  cbn in Hds, Hde. injection Hds as <-. injection Hde as <-.
  unfold save_ip_config.
  change [PyFormat.str a; PyFormat.str b; PyFormat.str c; PyFormat.str d]
    with (PyFormat.str <$> [a; b; c; d]).
  change [PyFormat.str a'; PyFormat.str b'; PyFormat.str c'; PyFormat.str d']
    with (PyFormat.str <$> [a'; b'; c'; d']).
  rewrite !read_octets_displayed by assumption. cbn [List.app].
  rewrite !ip_int_four. cbn [address_le] in Hord.
  replace (_ <? _) with false by lia. reflexivity.
Qed.

Lemma default_config_well_formed : well_formed default_config.
Proof.
  unfold well_formed, default_config, octet. cbn [ip_start ip_end address_le length].
  split_and!; try reflexivity; [repeat constructor; lia .. | lia].
Qed.

Lemma save_ip_config_well_formed_witness :
  let r := save_ip_config ["10"; "55"; "10"; "200"] ["10"; "55"; "11"; "256"]
             true default_config in
  well_formed r.1 /\ (r.2 <> Saved -> r.2 <> SaveFailed -> r.1 = default_config).
Proof.
  apply (save_ip_config_well_formed ["10"; "55"; "10"; "200"] ["10"; "55"; "11"; "256"]
           true default_config);
    [reflexivity | reflexivity | exact default_config_well_formed].
Defined.

Lemma save_displayed_range_witness :
  save_ip_config ["10"; "55"; "10"; "100"] ["10"; "55"; "10"; "255"] true
    {| ip_start := [192; 168; 1; 1]; ip_end := [192; 168; 1; 9] |}
  = (default_config, Saved).
Proof.
  apply save_displayed_range;
    [exact default_config_well_formed | reflexivity | reflexivity].
Defined.

End IpConfigFacts.

(** ** The address scan *)

Module ScanFacts.
Import IpConfig Scan.

Lemma str_inj : Inj eq eq PyFormat.str.
Proof.
  intros i j Hij. pose proof (PyFormatFacts.int_str i) as Hi.
  rewrite Hij, PyFormatFacts.int_str in Hi. congruence.
Qed.

Lemma dot_inj base : Inj eq eq (fun i => PyFormat.dot base (PyFormat.str i)).
Proof.
  intros i j Hij. unfold PyFormat.dot in Hij.
  apply String.app_inj in Hij. apply (String.app_inj ".") in Hij.
  apply str_inj, Hij.
Qed.

Lemma read_octets_err which entries : forall i acc err,
  read_octets which i entries acc = inr err -> err <> Saved /\ err <> SaveFailed.
Proof.
  induction entries as [|entry rest IH]; intros i acc err; cbn [read_octets].
  - discriminate.
  - destruct (_ || _); [intros [= <-]; split; discriminate|].
    destruct (PyStr.int _) as [value|]; [|intros [= <-]; split; discriminate].
    destruct (negb _); [intros [= <-]; split; discriminate|]. apply IH.
Qed.

(** X18. After an accepted save the scan has its list of addresses: it
    visits [end[3] - start[3] + 1] addresses (none when that is not
    positive), no address twice, all of them built from the first three
    octets of the start address alone. So a range that is accepted with a
    last end octet below the last start octet is scanned as empty. *)
Theorem scan_targets_of_saved_range start_entries end_entries write_ok cfg :
  length start_entries = 4%nat -> length end_entries = 4%nat ->
  (save_ip_config start_entries end_entries write_ok cfg).2 = Saved ->
  let cfg' := (save_ip_config start_entries end_entries write_ok cfg).1 in
  exists a b c d a' b' c' d' targets,
    ip_start cfg' = [a; b; c; d] /\ ip_end cfg' = [a'; b'; c'; d'] /\
    scan_targets cfg' = Some targets /\
    length targets = Z.to_nat (d' - d + 1) /\
    NoDup targets /\
    Forall (fun ip => exists i, d <= i <= d' /\
              ip = PyFormat.dot (PyFormat.dot (PyFormat.dot (PyFormat.str a)
                     (PyFormat.str b)) (PyFormat.str c)) (PyFormat.str i)) targets.
Proof.
  intros Hs He Hsaved. cbv zeta. revert Hsaved. unfold save_ip_config.
  destruct (read_octets StartIp 0 start_entries []) as [start_ip|err] eqn:Hrs.
  2:{ cbn. intros ->. apply read_octets_err in Hrs as [[] _]. reflexivity. }
  destruct (read_octets EndIp 0 end_entries []) as [end_ip|err] eqn:Hre.
  2:{ cbn. intros ->. apply read_octets_err in Hre as [[] _]. reflexivity. }
  apply IpConfigFacts.read_octets_ok in Hrs as (vs & -> & Hlvs & Hvs).
  apply IpConfigFacts.read_octets_ok in Hre as (ve & -> & Hlve & Hve).
  cbn [List.app]. rewrite Hs in Hlvs. rewrite He in Hlve.
  destruct (IpConfigFacts.four_octets vs Hlvs Hvs) as (a & b & c & d & -> & _).
  destruct (IpConfigFacts.four_octets ve Hlve Hve) as (a' & b' & c' & d' & -> & _).
  rewrite !IpConfigFacts.ip_int_four.
  destruct (_ <? _); [discriminate|]. destruct write_ok; [|discriminate].
  intros _. cbn [fst ip_start ip_end].
  exists a, b, c, d, a', b', c', d'.
  exists ((fun i => PyFormat.dot (PyFormat.dot (PyFormat.dot (PyFormat.str a)
             (PyFormat.str b)) (PyFormat.str c)) (PyFormat.str i))
            <$> range d (d' + 1)).
  split_and!; try reflexivity.
  - rewrite length_fmap. unfold range. rewrite length_seqZ. f_equal. lia.
  - apply (NoDup_fmap_2 _ (Inj0 := dot_inj _)). apply NoDup_seqZ.
  - apply Forall_fmap, Forall_forall. intros i Hi. cbn.
    unfold range in Hi. apply elem_of_seqZ in Hi. exists i. split; [lia|reflexivity].
Qed.

Lemma scan_targets_of_saved_range_witness :
  let cfg' := (save_ip_config ["10"; "55"; "10"; "200"] ["10"; "55"; "11"; "100"]
                 true default_config).1 in
  exists a b c d a' b' c' d' targets,
    ip_start cfg' = [a; b; c; d] /\ ip_end cfg' = [a'; b'; c'; d'] /\
    scan_targets cfg' = Some targets /\
    length targets = Z.to_nat (d' - d + 1) /\
    NoDup targets /\
    Forall (fun ip => exists i, d <= i <= d' /\
              ip = PyFormat.dot (PyFormat.dot (PyFormat.dot (PyFormat.str a)
                     (PyFormat.str b)) (PyFormat.str c)) (PyFormat.str i)) targets.
Proof.
  apply (scan_targets_of_saved_range ["10"; "55"; "10"; "200"] ["10"; "55"; "11"; "100"]
           true default_config); reflexivity.
Defined.

(** X19. Scanning one address is read-only and never leaks the client:
    whatever the device answers and whether or not a call raises, the
    client that was created is closed exactly once, as the last call, no
    register is written, and besides connecting the only calls are the
    reads of holding registers 128..137 and 138. *)
Theorem scan_single_ip_calls ip e :
  let r := scan_single_ip ip e in
  writes (calls r) = [] /\
  List.filter is_lifecycle (calls r) = [EvNewClient ip; EvClose] /\
  exists middle,
    calls r = EvNewClient ip :: middle ++ [EvClose] /\
    (middle = [EvConnect] \/ middle = [EvConnect; EvReadHolding 128 10] \/
     middle = [EvConnect; EvReadHolding 128 10; EvReadHolding 138 1]).
Proof.
  cbv zeta. unfold scan_single_ip.
  destruct (s_connect e); [destruct (s_string e); destruct (s_int e) | |];
    cbn [calls fst snd]; (split; [reflexivity|]); (split; [reflexivity|]);
    eexists; (split; [reflexivity|]); auto.
Qed.

Lemma perform_sublist (P : file_action -> Prop) fs_ok todo :
  Forall P todo -> Forall P (perform fs_ok todo).1.
Proof.
  induction 1 as [|a todo Ha Htodo IH]; cbn [perform]; [constructor|].
  destruct (fs_ok a); cbn [fst]; [constructor; assumption | constructor].
Qed.

(** X20. What a scan leaves on the disk: nothing unless the connection
    was made and both reads returned registers; then only the folder named
    after the pump and, for the model codes 22 and 1 alone, the executable
    of that model with an ini file of the same version for the address that
    was scanned. Any other code leaves at most the (empty) folder. *)
Theorem scan_single_ip_files ip e :
  Forall (fun a =>
    exists string_registers code more,
      s_connect e = ConnectTrue /\ s_string e = ReadOk string_registers /\
      s_int e = ReadOk (code :: more) /\
      let pump_number := pump_number_of string_registers in
      (a = MakeDirs pump_number \/
       (code = 22 /\ (a = CopyExe "PumperHMI 8.exe" pump_number \/
                      a = WriteIni pump_number ip 8)) \/
       (code = 1 /\ (a = CopyExe "PumperHMI.exe" pump_number \/
                     a = WriteIni pump_number ip 1))))
    (made (scan_single_ip ip e)).
Proof.
  unfold scan_single_ip.
  destruct (s_connect e) eqn:Hc; cbn [made fst snd]; try constructor.
  destruct (s_string e) as [sregs| |] eqn:Hs; cbn [made fst snd]; try constructor;
    destruct (s_int e) as [iregs| |] eqn:Hi; cbn [made fst snd]; try constructor.
  unfold process_scan_results.
  destruct iregs as [|code more]; cbn [lookup list_lookup]; [constructor|].
  unfold create_pump_files. apply perform_sublist.
  destruct (code =? 22) eqn:H22; [apply Z.eqb_eq in H22|];
    [|destruct (code =? 1) eqn:H1; [apply Z.eqb_eq in H1|]];
    repeat constructor; exists sregs, code, more; cbv zeta; tauto.
Qed.

Lemma append_empty_r s : s +:+ EmptyString = s.
Proof.
  induction s as [|c s IH]; [reflexivity|].
  change (String c (s +:+ EmptyString) = String c s). rewrite IH. reflexivity.
Qed.

Lemma append_assoc a b c : (a +:+ b) +:+ c = a +:+ (b +:+ c).
Proof.
  induction a as [|x a IH]; [reflexivity|].
  change (String x ((a +:+ b) +:+ c) = String x (a +:+ (b +:+ c))). rewrite IH. reflexivity.
Qed.

Lemma pump_number_fold registers : forall prefix,
  fold_left (fun pump_number reg => pump_number +:+ register_text reg) registers prefix
  = prefix +:+ pump_number_of registers.
Proof.
  unfold pump_number_of.
  induction registers as [|reg registers IH]; intros prefix; cbn [fold_left].
  - rewrite append_empty_r. reflexivity.
  - rewrite IH, (IH (EmptyString +:+ _)). cbn [String.append].
    apply append_assoc.
Qed.

Lemma pump_number_cons reg registers :
  pump_number_of (reg :: registers) = register_text reg +:+ pump_number_of registers.
Proof. unfold pump_number_of at 1. cbn [fold_left]. apply pump_number_fold. Qed.

Lemma chr_not_nul b : 0 < b < 256 -> chr b <> zero.
Proof.
  intros Hb He. unfold chr in He.
  assert (H : N_of_ascii (ascii_of_N (Z.to_N b)) = N_of_ascii zero) by congruence.
  rewrite N_ascii_embedding in H by lia. cbn in H. lia.
Qed.

Lemma list_ascii_append a b :
  list_ascii_of_string (a +:+ b) = list_ascii_of_string a ++ list_ascii_of_string b.
Proof.
  induction a as [|x a IH]; [reflexivity|].
  change (x :: list_ascii_of_string (a +:+ b)
          = x :: (list_ascii_of_string a ++ list_ascii_of_string b)).
  rewrite IH. reflexivity.
Qed.

Lemma length_list_ascii s : length (list_ascii_of_string s) = String.length s.
Proof. induction s as [|c s IH]; cbn; congruence. Qed.

Lemma register_text_chars reg :
  (length (list_ascii_of_string (register_text reg)) <= 2)%nat /\
  Forall (fun c => c <> zero) (list_ascii_of_string (register_text reg)).
Proof.
  unfold register_text.
  assert (H1 : 0 <= Z.land (Z.shiftr reg 8) 255 < 256).
  { change 255 with (Z.ones 8). rewrite Z.land_ones by lia. apply Z.mod_pos_bound. lia. }
  assert (H2 : 0 <= Z.land reg 255 < 256).
  { change 255 with (Z.ones 8). rewrite Z.land_ones by lia. apply Z.mod_pos_bound. lia. }
  destruct (Z.eqb_spec (Z.land (Z.shiftr reg 8) 255) 0);
    destruct (Z.eqb_spec (Z.land reg 255) 0); cbn; split; try lia;
    repeat constructor; apply chr_not_nul; lia.
Qed.

(** X21. The pump number read from the name registers holds at most two
    characters per register and never a NUL character: zero bytes, and so
    zero registers used as padding anywhere in the block, add nothing to
    the name. *)
Theorem pump_number_of_registers registers :
  (String.length (pump_number_of registers) <= 2 * length registers)%nat /\
  Forall (fun c => c <> zero) (list_ascii_of_string (pump_number_of registers)) /\
  forall padding,
    Forall (fun reg => Z.land reg 65535 = 0) padding ->
    forall more,
      pump_number_of (registers ++ padding ++ more)
      = pump_number_of (registers ++ more).
Proof.
  split; [|split].
  - induction registers as [|reg registers IH]; [cbn; lia|].
    rewrite pump_number_cons. rewrite <- length_list_ascii in *.
    rewrite list_ascii_append, length_app. cbn [length].
    pose proof (register_text_chars reg) as [H _]. lia.
  - induction registers as [|reg registers IH]; [constructor|].
    rewrite pump_number_cons, list_ascii_append. apply Forall_app. split; [|exact IH].
    apply register_text_chars.
  - intros padding Hpad more.
    induction registers as [|reg registers IH].
    + cbn [List.app]. induction Hpad as [|reg padding Hreg Hpad IH]; [reflexivity|].
      cbn [List.app]. rewrite pump_number_cons, IH.
      assert (Hz : register_text reg = EmptyString).
      { unfold register_text.
        assert (Hh : Z.land (Z.shiftr reg 8) 255 = 0).
        { apply Z.bits_inj'. intros n Hn. rewrite Z.land_spec, Z.shiftr_spec, Z.bits_0 by lia.
          destruct (Z.ltb_spec n 8).
          - apply (f_equal (fun x => Z.testbit x (n + 8))) in Hreg.
            rewrite Z.land_spec, Z.bits_0 in Hreg.
            change 65535 with (Z.ones 16) in Hreg.
            rewrite Z.ones_spec_low in Hreg by lia.
            rewrite andb_true_r in Hreg. rewrite Hreg. reflexivity.
          - change 255 with (Z.ones 8). rewrite Z.ones_spec_high by lia.
            apply andb_false_r. }
        assert (Hl : Z.land reg 255 = 0).
        { apply Z.bits_inj'. intros n Hn. rewrite Z.land_spec, Z.bits_0.
          destruct (Z.ltb_spec n 8).
          - apply (f_equal (fun x => Z.testbit x n)) in Hreg.
            rewrite Z.land_spec, Z.bits_0 in Hreg.
            change 65535 with (Z.ones 16) in Hreg.
            rewrite Z.ones_spec_low in Hreg by lia.
            rewrite andb_true_r in Hreg. rewrite Hreg. reflexivity.
          - change 255 with (Z.ones 8). rewrite Z.ones_spec_high by lia.
            apply andb_false_r. }
        rewrite Hh, Hl. reflexivity. }
      rewrite Hz. reflexivity.
    + cbn [List.app]. rewrite !pump_number_cons, IH. reflexivity.
Qed.

End ScanFacts.

(** ** Clients: created, closed, pooled *)

Module ClientsFacts.
Import Setpoint Clients.


Lemma serve_snoc requests ip r pool :
  serve (requests ++ [(ip, r)]) pool
  = ((Pool.get_modbus_connection ip r (serve requests pool).1).1.2,
     (serve requests pool).2 ++ (Pool.get_modbus_connection ip r (serve requests pool).1).2).
Proof. unfold serve. rewrite fold_left_app. reflexivity. Qed.

Lemma get_modbus_connection_new ip r (pool : gmap string bool) ip0 :
  List.filter (is_new_client_for ip0) (Pool.get_modbus_connection ip r pool).2
  = (if bool_decide (ip = ip0) && bool_decide (pool !! ip = None)
     then [EvNewClient ip0] else []) /\
  (is_Some ((Pool.get_modbus_connection ip r pool).1.2 !! ip0)
   <-> ip = ip0 \/ is_Some (pool !! ip0)).
Proof.
  unfold Pool.get_modbus_connection.
  destruct (pool !! ip) as [b|] eqn:Hp; cbn [fst snd].
  - rewrite Hp. rewrite (bool_decide_eq_false_2 (Some b = None)) by discriminate.
    rewrite andb_false_r. split.
    + destruct b; [reflexivity|]. destruct r; reflexivity.
    + assert (Hdom : forall m : gmap string bool,
                m = pool \/ m = <[ip := true]> pool ->
                (is_Some (m !! ip0) <-> ip = ip0 \/ is_Some (pool !! ip0))).
      { intros m [ -> | -> ].
        - split; [auto|]. intros [ <- |H]; [rewrite Hp; eauto | exact H].
        - destruct (decide (ip = ip0)) as [ <- |Hne].
          + rewrite lookup_insert_eq. split; eauto.
          + rewrite lookup_insert_ne by exact Hne. split; [auto|]. intros [?|?]; [congruence|auto]. }
      destruct b; cbn [fst snd]; [apply Hdom; auto|].
      destruct r; cbn [fst snd]; apply Hdom; auto.
  - rewrite lookup_insert_eq. rewrite (bool_decide_eq_true_2 (None = None)) by reflexivity.
    rewrite andb_true_r. split.
    + assert (Hev : List.filter (is_new_client_for ip0) [EvNewClient ip]
                    = if bool_decide (ip = ip0) then [EvNewClient ip0] else []).
      { cbn [List.filter is_new_client_for]. case_bool_decide as Heq.
        - subst. rewrite String.eqb_refl. reflexivity.
        - destruct (String.eqb_spec ip ip0); [congruence|reflexivity]. }
      destruct r; cbn [fst snd]; rewrite List.filter_app, Hev; cbn [List.filter is_new_client_for];
        rewrite app_nil_r; reflexivity.
    + assert (Hdom : forall m : gmap string bool,
                m = <[ip := false]> pool \/ m = <[ip := true]> (<[ip := false]> pool) ->
                (is_Some (m !! ip0) <-> ip = ip0 \/ is_Some (pool !! ip0))).
      { intros m Hm. destruct (decide (ip = ip0)) as [ <- |Hne].
        - destruct Hm as [ -> | -> ]; rewrite lookup_insert_eq; split; eauto.
        - destruct Hm as [ -> | -> ]; rewrite ?lookup_insert_ne by exact Hne;
            (split; [auto|]; intros [?|?]; [congruence|auto]). }
      destruct r; cbn [fst snd]; apply Hdom; auto.
Qed.

(** X23. The pool of revision 5.2.1 under any sequence of requests,
    starting from any pool: for an address it creates one client when the
    address is requested and not yet in the pool, and never a second one;
    the addresses in the pool afterwards are those it had and those
    requested. *)
Theorem pool_one_client_per_address requests (pool : gmap string bool) ip :
  List.filter (is_new_client_for ip) (serve requests pool).2
  = (if bool_decide (ip ∈ requests.*1) && bool_decide (pool !! ip = None)
     then [EvNewClient ip] else []) /\
  (is_Some ((serve requests pool).1 !! ip) <-> ip ∈ requests.*1 \/ is_Some (pool !! ip)).
Proof.
  induction requests as [|[ip' r] requests IH] using rev_ind.
  - cbn. split; [reflexivity|]. rewrite elem_of_nil. tauto.
  - rewrite serve_snoc. cbn [fst snd]. destruct IH as [IHt IHd].
    destruct (get_modbus_connection_new ip' r (serve requests pool).1 ip) as [Ht Hd].
    rewrite fmap_app. cbn [fmap list_fmap fst]. split.
    + rewrite List.filter_app, IHt, Ht.
      assert (Hin : ip ∈ requests.*1 ++ [ip'] <-> ip ∈ requests.*1 \/ ip' = ip).
      { rewrite elem_of_app, list_elem_of_singleton. split; intros [?|?]; auto. }
      assert (Hnone : forall m : gmap string bool, m !! ip = None <-> ~ is_Some (m !! ip)).
      { intros m. rewrite eq_None_not_Some. reflexivity. }
      repeat case_bool_decide; cbn [andb List.app]; try reflexivity; exfalso;
        subst; rewrite ?Hnone in *; rewrite ?IHd in *; rewrite ?Hin in *;
        clear Hnone; intuition (auto; congruence).
    + rewrite Hd, IHd, elem_of_app, list_elem_of_singleton. split.
      * intros [ -> | [?|?] ]; auto.
      * intros [ [?|?] | ? ]; auto.
Qed.

End ClientsFacts.
